(** * Raseed knowledge-graph construction engine

    A shallow embedding of [Backend/app/models/knowledge_graph.py] and of the
    graph builder agent [Backend/app/agents/graph_builder.py], with the
    properties of the engine stated and proved over it.

    Conventions of the embedding.
    - A Python [str] is a [string]; the embedding covers ASCII text, where a
      character is a byte.
    - A Python [float] is an exact rational [Q]; every constant that the code
      compares it with is a short decimal.
    - A value decoded from JSON, or a [dict] built by the code, is a [pyval].
    - A raised exception is the left injection of [Exc]; [try]/[except] is
      [try_catch].
    - The wall-clock metadata [created_at]/[updated_at] is written and never
      read, and is left out of the records. *)

From Stdlib Require Import ZArith QArith Qabs Ascii String List Bool Arith Lia Sorted.
From stdpp Require Import base option list pretty.
Import ListNotations.

#[local] Open Scope string_scope.
#[local] Open Scope list_scope.
#[local] Open Scope Z_scope.

(** ** Python strings *)

Module Str.

Definition chars (s : string) : list ascii := list_ascii_of_string s.
Definition of_chars (l : list ascii) : string := string_of_list_ascii l.

Definition code (c : ascii) : nat := nat_of_ascii c.

Definition is_upper (c : ascii) : bool := (65 <=? code c)%nat && (code c <=? 90)%nat.
Definition is_lower (c : ascii) : bool := (97 <=? code c)%nat && (code c <=? 122)%nat.
Definition is_digit (c : ascii) : bool := (48 <=? code c)%nat && (code c <=? 57)%nat.
(** [c.isalpha()] on ASCII. *)
Definition isalpha (c : ascii) : bool := is_upper c || is_lower c.
(** [c.isspace()] on ASCII: TAB..CR, FS..US and the blank. *)
Definition isspace (c : ascii) : bool :=
  ((9 <=? code c)%nat && (code c <=? 13)%nat)
  || ((28 <=? code c)%nat && (code c <=? 32)%nat).

Definition lower_char (c : ascii) : ascii :=
  if is_upper c then ascii_of_nat (code c + 32) else c.

(** [s.lower()] on ASCII text: the letters A..Z are folded, any other
    character is kept. *)
Definition lower (s : string) : string := of_chars (map lower_char (chars s)).

Fixpoint lstrip_chars (l : list ascii) : list ascii :=
  match l with
  | c :: l' => if isspace c then lstrip_chars l' else l
  | [] => []
  end.

(** [s.strip()] *)
Definition strip (s : string) : string :=
  of_chars (rev (lstrip_chars (rev (lstrip_chars (chars s))))).

Definition newline : ascii := ascii_of_nat 10.

(** [s.split('\n')]: the pieces between line feeds, in order; an empty
    string gives one empty piece. *)
Fixpoint split_lines_chars (l : list ascii) (cur : list ascii) : list string :=
  match l with
  | [] => [of_chars (rev cur)]
  | c :: l' =>
      if Ascii.eqb c newline
      then of_chars (rev cur) :: split_lines_chars l' []
      else split_lines_chars l' (c :: cur)
  end.

Definition split_lines (s : string) : list string := split_lines_chars (chars s) [].

Fixpoint is_prefix (p l : list ascii) : bool :=
  match p, l with
  | [], _ => true
  | a :: p', b :: l' => Ascii.eqb a b && is_prefix p' l'
  | _ :: _, [] => false
  end.

Fixpoint contains_chars (p l : list ascii) : bool :=
  is_prefix p l ||
  match l with
  | [] => false
  | _ :: l' => contains_chars p l'
  end.

(** [p in s] *)
Definition contains (p s : string) : bool := contains_chars (chars p) (chars s).

(** [s.startswith(p)] and [s.endswith(p)] *)
Definition startswith (s p : string) : bool := is_prefix (chars p) (chars s).
Definition endswith (s p : string) : bool := is_prefix (rev (chars p)) (rev (chars s)).

Definition len (s : string) : nat := String.length s.

(** [s[n:]] and [s[:-n]] for a literal [n]. *)
Definition drop (n : nat) (s : string) : string := of_chars (skipn n (chars s)).
Definition drop_end (n : nat) (s : string) : string :=
  of_chars (firstn (length (chars s) - n) (chars s)).

(** [s.find(c)] and [s.rfind(c)], defined when [c] occurs. *)
Fixpoint find_char (c : ascii) (l : list ascii) : option nat :=
  match l with
  | [] => None
  | a :: l' => if Ascii.eqb a c then Some 0%nat else option_map S (find_char c l')
  end.

Fixpoint rfind_char (c : ascii) (l : list ascii) : option nat :=
  match l with
  | [] => None
  | a :: l' =>
      match rfind_char c l' with
      | Some i => Some (S i)
      | None => if Ascii.eqb a c then Some 0%nat else None
      end
  end.

(** [s[a:b]] for [0 <= a], [0 <= b]. *)
Definition slice (a b : nat) (s : string) : string :=
  of_chars (firstn (b - a) (skipn a (chars s))).

End Str.

(** ** Python values and exceptions *)

(** The JSON-shaped fragment of Python's values: what [json.loads] returns and
    what the agent stores in its dictionaries.  A [dict] keeps its keys in
    insertion order. *)
#[local] Unset Elimination Schemes.
Inductive pyval : Type :=
| VNone
| VBool (b : bool)
| VInt (z : Z)
| VFloat (q : Q)
| VStr (s : string)
| VList (l : list pyval)
| VDict (d : list (string * pyval)).
#[local] Set Elimination Schemes.

Abbreviation pydict := (list (string * pyval)).

(** The exception classes the agent distinguishes: [except
    json.JSONDecodeError] comes before [except Exception]. *)
Inductive exn : Type :=
| JSONDecodeError
| AttributeError
| TypeError
| ValueError
| ValidationError
| OverflowError
| UnboundLocalError
| TransportError.

Definition Exc (A : Type) : Type := (exn + A)%type.

Definition ok {A} (a : A) : Exc A := inr a.
Definition raise {A} (e : exn) : Exc A := inl e.

Definition ebind {A B} (m : Exc A) (f : A -> Exc B) : Exc B :=
  match m with
  | inl e => inl e
  | inr a => f a
  end.

Notation "'let!' x ':=' m 'in' k" := (ebind m (fun x => k))
  (at level 10, x name, m at level 100, k at level 200).

(** [try: body  except Exception as e: handler] *)
Definition try_catch {A} (body : Exc A) (handler : exn -> Exc A) : Exc A :=
  match body with
  | inl e => handler e
  | inr a => inr a
  end.

Fixpoint mapM {A B} (f : A -> Exc B) (l : list A) : Exc (list B) :=
  match l with
  | [] => ok []
  | a :: l' => let! b := f a in let! bs := mapM f l' in ok (b :: bs)
  end.

Module Dict.

(** [d.get(k)], [None] of the option when the key is absent. *)
Fixpoint lookup (k : string) (d : pydict) : option pyval :=
  match d with
  | [] => None
  | (k', v) :: d' => if String.eqb k k' then Some v else lookup k d'
  end.

(** [d.get(k, dflt)] *)
Definition get (d : pydict) (k : string) (dflt : pyval) : pyval :=
  match lookup k d with
  | Some v => v
  | None => dflt
  end.

(** [d[k] = v]: an existing key keeps its place. *)
Fixpoint set (k : string) (v : pyval) (d : pydict) : pydict :=
  match d with
  | [] => [(k, v)]
  | (k', v') :: d' => if String.eqb k k' then (k, v) :: d' else (k', v') :: set k v d'
  end.

(** [d.update(other)] *)
Definition update (d other : pydict) : pydict :=
  fold_left (fun acc kv => set (fst kv) (snd kv) acc) other d.

End Dict.

(** Python's truth value of an object. *)
Definition truthy (v : pyval) : bool :=
  match v with
  | VNone => false
  | VBool b => b
  | VInt z => negb (z =? 0)
  | VFloat q => negb (Qeq_bool q 0)
  | VStr s => negb (String.eqb s EmptyString)
  | VList l => match l with [] => false | _ => true end
  | VDict d => match d with [] => false | _ => true end
  end.

(** [v.get(k, dflt)]: only a [dict] has the method. *)
Definition py_get (v : pyval) (k : string) (dflt : pyval) : Exc pyval :=
  match v with
  | VDict d => ok (Dict.get d k dflt)
  | _ => raise AttributeError
  end.

(** [len(v)] *)
Definition py_len (v : pyval) : Exc nat :=
  match v with
  | VStr s => ok (Str.len s)
  | VList l => ok (length l)
  | VDict d => ok (length d)
  | _ => raise TypeError
  end.

(** ** The graph model: [knowledge_graph.py] *)

Module GraphEntity.
Record t : Type := Build {
  id : string;
  name : string;
  type : string;
  category : option string;
  attributes : pydict;
  confidence : Q
}.
End GraphEntity.

Module GraphRelation.
Record t : Type := Build {
  id : string;
  source_entity_id : string;
  target_entity_id : string;
  relation_type : string;
  weight : Q;
  attributes : pydict;
  receipt_id : option string
}.
End GraphRelation.

Module KnowledgeGraph.
Record t : Type := Build {
  id : string;
  name : string;
  description : option string;
  entities : list GraphEntity.t;
  relations : list GraphRelation.t;
  receipt_ids : list string;
  user_id : option string;
  total_entities : Z;
  total_relations : Z
}.

(** [KnowledgeGraph(name=..., description=..., receipt_ids=..., user_id=...)]
    with the field defaults; [fresh_id] is the [uuid4] drawn for it. *)
Definition create (fresh_id name : string) (description : option string)
    (receipt_ids : list string) (user_id : option string) : t :=
  Build fresh_id name description [] [] receipt_ids user_id 0 0.

Definition add_entity (entity : GraphEntity.t) (self : t) : t :=
  let entities' := entities self ++ [entity] in
  Build (id self) (name self) (description self) entities' (relations self)
        (receipt_ids self) (user_id self)
        (Z.of_nat (length entities')) (total_relations self).

Definition add_relation (relation : GraphRelation.t) (self : t) : t :=
  let relations' := relations self ++ [relation] in
  Build (id self) (name self) (description self) (entities self) relations'
        (receipt_ids self) (user_id self)
        (total_entities self) (Z.of_nat (length relations')).

(** A mutation of a graph through its two methods. *)
Inductive op : Type :=
| AddEntity (entity : GraphEntity.t)
| AddRelation (relation : GraphRelation.t).

Definition apply (self : t) (o : op) : t :=
  match o with
  | AddEntity e => add_entity e self
  | AddRelation r => add_relation r self
  end.

Definition run (ops : list op) (self : t) : t := fold_left apply ops self.

(** The counter invariant of the data model. *)
Definition counters_ok (g : t) : Prop :=
  total_entities g = Z.of_nat (length (entities g)) /\
  total_relations g = Z.of_nat (length (relations g)).

End KnowledgeGraph.

(** ** Calendar dates: [datetime.date] *)

Module Date.

Record t : Type := Build { year : Z; month : Z; day : Z }.

(** Days since 1970-01-01 of a proleptic Gregorian date. *)
Definition to_days (d : t) : Z :=
  let y := if month d <=? 2 then year d - 1 else year d in
  let era := y / 400 in
  let yoe := y - era * 400 in
  let mp := if 2 <? month d then month d - 3 else month d + 9 in
  let doy := (153 * mp + 2) / 5 + day d - 1 in
  let doe := yoe * 365 + yoe / 4 - yoe / 100 + doy in
  era * 146097 + doe - 719468.

Definition of_days (z : Z) : t :=
  let z := z + 719468 in
  let era := z / 146097 in
  let doe := z - era * 146097 in
  let yoe := (doe - doe / 1460 + doe / 36524 - doe / 146096) / 365 in
  let doy := doe - (365 * yoe + yoe / 4 - yoe / 100) in
  let mp := (5 * doy + 2) / 153 in
  let d := doy - (153 * mp + 2) / 5 + 1 in
  let m := if mp <? 10 then mp + 3 else mp - 9 in
  Build (if m <=? 2 then yoe + era * 400 + 1 else yoe + era * 400) m d.

(** [date.max] is 9999-12-31. *)
Definition max_days : Z := 2932896.

(** [d + timedelta(days=n)] for [0 <= n]: [OverflowError] past [date.max]. *)
Definition add_days (d : t) (n : Z) : Exc t :=
  if to_days d + n <=? max_days then ok (of_days (to_days d + n)) else raise OverflowError.

Definition digit (n : Z) : ascii := ascii_of_nat (48 + Z.to_nat (n mod 10)).

Definition pad2 (n : Z) : string :=
  String (digit (n / 10)) (String (digit n) EmptyString).

Definition pad4 (n : Z) : string :=
  String (digit (n / 1000)) (String (digit (n / 100)) (pad2 n)).

(** [d.isoformat()] *)
Definition isoformat (d : t) : string :=
  (pad4 (year d) ++ "-" ++ pad2 (month d) ++ "-" ++ pad2 (day d))%string.

(** The calendar, day by day: the lengths of the months and the leap years. *)
Definition is_leap (y : Z) : bool :=
  (y mod 4 =? 0) && (negb (y mod 100 =? 0) || (y mod 400 =? 0)).

Definition days_in_month (y m : Z) : Z :=
  if m =? 2 then (if is_leap y then 29 else 28)
  else if (m =? 4) || (m =? 6) || (m =? 9) || (m =? 11) then 30
  else 31.

Definition next_day (d : t) : t :=
  if day d <? days_in_month (year d) (month d) then Build (year d) (month d) (day d + 1)
  else if month d <? 12 then Build (year d) (month d + 1) 1
  else Build (year d + 1) 1 1.

Definition eqb (a b : t) : bool :=
  (year a =? year b) && (month a =? month b) && (day a =? day b).

(** From day number [z] on, for [n] days: the day number of the date of a day
    number is that number, and the date of the next number is the next day. *)
Fixpoint counts_days (n : nat) (z : Z) : bool :=
  match n with
  | O => true
  | S n' =>
      (to_days (of_days z) =? z)
      && eqb (of_days (z + 1)) (next_day (of_days z))
      && counts_days n' (z + 1)
  end.

End Date.

(** ** Receipts and items *)

(** Modelled from the spec: the receipt model [models/receipt.py] is not among
    the sources; the records carry the fields that the agent reads, with the
    types its callers construct them with. *)
Module ReceiptItem.
Record t : Type := Build {
  name : string;
  description : option string;
  unit_price : Q;
  quantity : Q;
  total_price : Q;
  sku : option string
}.
End ReceiptItem.

(** An item is a [ReceiptItem] object or a decoded value, in the agent a
    [dict]; [hasattr(item, 'name')] tells them apart. *)
Inductive item : Type :=
| ItemObj (r : ReceiptItem.t)
| ItemVal (v : pyval).

Module Receipt.
Record t : Type := Build {
  id : string;
  user_id : string;
  merchant_name : string;
  merchant_address : option string;
  merchant_phone : option string;
  merchant_tax_id : option string;
  total_amount : Q;
  payment_method : option string;
  card_last_four : option string;
  date : Date.t;
  raw_text : string;
  items : list item
}.
End Receipt.

(** What lies outside the agent: the JSON decoder, the text-completion
    service, the clock, the identifier source and pydantic's field
    validation.  [ask_items raw_text] and [ask_classes items_data] are the
    outcome of [_call_gemini] on the prompt built from the argument, after
    its retries: a response text or the exception of the last attempt. *)
Record Env : Type := MkEnv {
  json_loads : string -> option pyval;
  ask_items : string -> Exc string;
  ask_classes : list pyval -> Exc string;
  today : Date.t;
  uuid4 : nat -> string;
  py_repr : pyval -> string;
  as_str : pyval -> option string;
  as_float : pyval -> option Q
}.

(** A field validator accepts a value of the field's own type unchanged. *)
Definition validators_ok (env : Env) : Prop :=
  (forall s, as_str env (VStr s) = Some s) /\
  (forall q, as_float env (VFloat q) = Some q).

Definition opt_str (o : option string) : pyval :=
  match o with
  | Some s => VStr s
  | None => VNone
  end.

(** [v.lower()]: a method of [str]. *)
Definition py_lower (v : pyval) : Exc string :=
  match v with
  | VStr s => ok (Str.lower s)
  | _ => raise AttributeError
  end.

(** ** The keyword classifier *)

Definition food_keywords : list string :=
  ["milk"; "bread"; "egg"; "rice"; "sugar"; "tea"; "coffee"; "juice"; "water";
   "cola"; "soda"; "snack"; "biscuit"; "chocolate"; "fruit"; "vegetable";
   "oil"; "flour"; "butter"; "cheese"; "meat"; "chicken"; "fish"; "pasta"].

Definition electronics_keywords : list string :=
  ["laptop"; "computer"; "phone"; "mobile"; "tablet"; "tv"; "camera";
   "headphone"; "speaker"; "cable"; "charger"; "mouse"; "keyboard"].

Definition clothing_keywords : list string :=
  ["shirt"; "pant"; "dress"; "shoe"; "bag"; "jacket"; "cap"; "hat";
   "trouser"; "jean"; "suit"; "sock"; "underwear"].

Definition pharmacy_keywords : list string :=
  ["tablet"; "capsule"; "syrup"; "medicine"; "drug"; "vitamin";
   "paracetamol"; "aspirin"; "cream"; "ointment"; "bandage"].

(** [any(keyword in item_name for keyword in keywords)] *)
Definition any_keyword_in (keywords : list string) (item_name : string) : bool :=
  existsb (fun keyword => Str.contains keyword item_name) keywords.

(** The shelf-life table, in the order its keys are written. *)
Definition expiry_rules : list (string * Z) :=
  [("milk", 3); ("yogurt", 5); ("cream", 4); ("butter", 7); ("cheese", 10);
   ("bread", 3); ("bun", 2); ("cake", 4); ("pastry", 2); ("croissant", 2);
   ("banana", 5); ("apple", 14); ("orange", 10); ("tomato", 7); ("lettuce", 3);
   ("potato", 30); ("onion", 21); ("carrot", 21); ("cucumber", 7);
   ("chicken", 2); ("beef", 3); ("pork", 3); ("fish", 1); ("shrimp", 1);
   ("pasta", 365); ("rice", 365); ("flour", 180); ("sugar", 730);
   ("oil", 180); ("vinegar", 730); ("sauce", 90); ("jam", 365);
   ("juice", 7); ("soda", 180); ("water", 365); ("tea", 730); ("coffee", 365);
   ("frozen", 90); ("ice", 365);
   ("canned", 730); ("can", 730);
   ("tablet", 730); ("capsule", 730); ("syrup", 365); ("vitamin", 730);
   ("default", 30)].

(** The loop over [expiry_rules.items()]: the first key, other than
    ['default'], that occurs in the name, else the value so far. *)
Fixpoint first_rule (rules : list (string * Z)) (product_lower : string) (expiry_days : Z) : Z :=
  match rules with
  | [] => expiry_days
  | (keyword, days) :: rules' =>
      if negb (String.eqb keyword "default") && Str.contains keyword product_lower
      then days
      else first_rule rules' product_lower expiry_days
  end.

Definition rule_days (product_lower : string) : Z :=
  let expiry_days :=
    match find (fun kv => String.eqb (fst kv) "default") expiry_rules with
    | Some kv => snd kv
    | None => 30
    end in
  first_rule expiry_rules product_lower expiry_days.

Definition _predict_expiry_date (env : Env) (product_name : string) : Exc string :=
  let product_lower := Str.lower product_name in
  let expiry_days := rule_days product_lower in
  let! expiry_date := Date.add_days (today env) expiry_days in
  ok (Date.isoformat expiry_date).

(** The name and price that the classifier reads off an item. *)
Definition fallback_name_price (it : item) : Exc (string * pyval) :=
  match it with
  | ItemObj r => ok (Str.lower (ReceiptItem.name r), VFloat (ReceiptItem.unit_price r))
  | ItemVal v =>
      let! n := py_get v "name" (VStr "unknown") in
      let! item_name := py_lower n in
      let! price := py_get v "price" (VFloat 0) in
      ok (item_name, price)
  end.

(** The [if]/[elif] chain: category, [is_food], [has_expiry]. *)
Definition keyword_category (item_name : string) : string * bool * bool :=
  if any_keyword_in food_keywords item_name then ("grocery", true, true)
  else if any_keyword_in electronics_keywords item_name then ("electronics", false, false)
  else if any_keyword_in clothing_keywords item_name then ("clothing", false, false)
  else if any_keyword_in pharmacy_keywords item_name then ("pharmacy", false, true)
  else ("other", false, false).

Definition fallback_record (category : string) (is_food has_expiry : bool)
    (predicted_expiry price : pyval) : pyval :=
  let electronics := String.eqb category "electronics" in
  VDict
    [("category", VStr category);
     ("confidence", VFloat (7 # 10));
     ("brand", VNone);
     ("enhanced_data", VDict
        [("product_type", VStr category);
         ("warranty_info", VDict
            [("has_warranty", VBool electronics);
             ("warranty_period", if electronics then VStr "1 year" else VNone)]);
         ("expiry_info", VDict
            [("has_expiry", VBool has_expiry);
             ("expiry_date", predicted_expiry);
             ("is_expiring_soon", VBool has_expiry)]);
         ("nutritional_info", VDict
            [("is_food", VBool is_food);
             ("allergens", VList []);
             ("dietary_tags", VList [])]);
         ("price_analysis", VDict
            [("unit_price", price);
             ("is_discounted", VBool false);
             ("discount_percentage", VInt 0)])])].

Definition classify_one (env : Env) (it : item) : Exc pyval :=
  let! np := fallback_name_price it in
  let '(item_name, price) := np in
  let '(category, is_food, has_expiry) := keyword_category item_name in
  let! predicted_expiry :=
    (if has_expiry
     then let! d := _predict_expiry_date env item_name in ok (VStr d)
     else ok VNone) in
  ok (fallback_record category is_food has_expiry predicted_expiry price).

Definition _create_fallback_classifications (env : Env) (items : list item) : Exc (list pyval) :=
  mapM (classify_one env) items.

(** ** Classification through the text-completion service *)

(** [for x in v]: the elements of a list, the characters of a string, the
    keys of a dictionary. *)
Definition py_iter (v : pyval) : Exc (list pyval) :=
  match v with
  | VList l => ok l
  | VStr s => ok (map (fun c => VStr (String c EmptyString)) (Str.chars s))
  | VDict d => ok (map (fun kv => VStr (fst kv)) d)
  | _ => raise TypeError
  end.

Definition fallback_categories : list string :=
  ["food"; "beverages"; "household"; "personal_care"; "other"].

(** One record of [_fallback_classification], for index [i]. *)
Definition cycle_record (i : nat) : pyval :=
  let category := nth (i mod length fallback_categories) fallback_categories "other" in
  let edible := String.eqb category "food" || String.eqb category "beverages" in
  VDict
    [("category", VStr category);
     ("confidence", VFloat (5 # 10));
     ("brand", VNone);
     ("enhanced_data", VDict
        [("category", VStr category);
         ("confidence", VFloat (5 # 10));
         ("warranty_info", VDict [("has_warranty", VBool false)]);
         ("expiry_info", VDict
            [("has_expiry", VBool edible);
             ("expiry_date", if edible then VStr "2025-07-25" else VNone)]);
         ("nutritional_info", VDict [("is_food", VBool edible)]);
         ("price_analysis", VDict
            [("unit_price", VFloat 0); ("is_discounted", VBool false)])])].

Definition _fallback_classification (expected_count : nat) : list pyval :=
  map cycle_record (seq 0 expected_count).

(** The record appended while the response is short of classifications. *)
Definition padding_record : pyval :=
  VDict
    [("category", VStr "food");
     ("confidence", VFloat (6 # 10));
     ("brand", VNone);
     ("product_type", VStr "food_item");
     ("warranty_info", VDict [("has_warranty", VBool false)]);
     ("expiry_info", VDict
        [("has_expiry", VBool true);
         ("expiry_date", VStr "2025-07-25");
         ("is_expiring_soon", VBool false)]);
     ("nutritional_info", VDict [("is_food", VBool true); ("allergens", VList [])]);
     ("price_analysis", VDict
        [("unit_price", VFloat 0); ("is_discounted", VBool false)])].

(** The block under [if len(item_classifications) != expected_count]:
    [append] is a method of lists only, and a dictionary has no slices. *)
Definition fix_count (item_classifications : pyval) (n expected_count : nat) : Exc pyval :=
  if Nat.eqb n expected_count then ok item_classifications
  else
    match item_classifications with
    | VList l =>
        ok (VList (firstn expected_count (l ++ repeat padding_record (expected_count - n))))
    | VStr s =>
        if Nat.ltb n expected_count then raise AttributeError
        else ok (VStr (Str.slice 0 expected_count s))
    | _ => if Nat.ltb n expected_count then raise AttributeError else raise TypeError
    end.

(** The backward-compatible record built from one classification. *)
Definition compat_record (classification : pyval) : Exc pyval :=
  let! category := py_get classification "category" (VStr "food") in
  let! confidence := py_get classification "confidence" (VFloat (6 # 10)) in
  let! brand := py_get classification "brand" VNone in
  ok (VDict
        [("category", category);
         ("confidence", confidence);
         ("brand", brand);
         ("enhanced_data", classification)]).

(** The markdown fences around a response: [response[7:-3]] and
    [response[3:-3]]. *)
Definition strip_fences (response : string) : string :=
  let response := Str.strip response in
  if Str.startswith response "```json"
  then Str.strip (Str.slice 7 (Str.len response - 3) response)
  else if Str.startswith response "```"
  then Str.strip (Str.slice 3 (Str.len response - 3) response)
  else response.

Definition loads (env : Env) (text : string) : Exc pyval :=
  match json_loads env text with
  | Some v => ok v
  | None => raise JSONDecodeError
  end.

Definition _parse_classification_response (env : Env) (response : string)
    (expected_count : nat) : list pyval :=
  let body :=
    let response := strip_fences response in
    let! analysis := loads env response in
    let! item_classifications := py_get analysis "item_classifications" (VList []) in
    let! n := py_len item_classifications in
    let! item_classifications := fix_count item_classifications n expected_count in
    let! each := py_iter item_classifications in
    mapM compat_record each in
  match body with
  | inr classifications => classifications
  | inl JSONDecodeError => _fallback_classification expected_count
  | inl _ => _fallback_classification expected_count
  end.

(** The entry of [items_data] for one item. *)
Definition item_data (it : item) : Exc pyval :=
  match it with
  | ItemObj r =>
      ok (VDict
            [("name", VStr (ReceiptItem.name r));
             ("description",
              VStr (match ReceiptItem.description r with
                    | Some d => d
                    | None => EmptyString
                    end));
             ("price", VFloat (ReceiptItem.unit_price r));
             ("quantity", VFloat (ReceiptItem.quantity r))])
  | ItemVal v =>
      let! name := py_get v "name" (VStr "Unknown") in
      let! description := py_get v "description" (VStr EmptyString) in
      let! price := py_get v "price" (VFloat 0) in
      let! quantity := py_get v "quantity" (VInt 1) in
      ok (VDict
            [("name", name); ("description", description);
             ("price", price); ("quantity", quantity)])
  end.

Definition _classify_items_with_gemini (env : Env) (items : list item) : Exc (list pyval) :=
  try_catch
    (let! items_data := mapM item_data items in
     let! response := ask_classes env items_data in
     ok (_parse_classification_response env response (length items)))
    (fun _ => _create_fallback_classifications env items).

(** ** Regular expressions: the fragment of [re] that the agent uses *)

Module Re.

(** A pattern.  Every repetition in the agent's patterns is over a
    character class.  Groups are numbered in the order they close, which
    for groups that do not nest is the order they open. *)
Inductive t : Type :=
| Cls (p : ascii -> bool)        (* one character of a class *)
| Lit (c : ascii)                (* a literal, compared under the flags *)
| Seq (a b : t)
| Star (p : ascii -> bool)       (* greedy [p]* *)
| LazyStar (p : ascii -> bool)   (* [p]*? *)
| Opt (r : t)                    (* greedy r? *)
| Group (r : t)
| Eol.                           (* $ *)

Definition captures : Type := list (list ascii).

(** Greedy repetition: the longest run first, then shorter ones. *)
Fixpoint star_greedy (p : ascii -> bool) (s : list ascii)
    (k : list ascii -> option captures) : option captures :=
  match s with
  | c :: s' =>
      if p c
      then match star_greedy p s' k with
           | Some r => Some r
           | None => k s
           end
      else k s
  | [] => k []
  end.

(** Lazy repetition: the shortest run first, then longer ones. *)
Fixpoint star_lazy (p : ascii -> bool) (s : list ascii)
    (k : list ascii -> option captures) : option captures :=
  match k s with
  | Some r => Some r
  | None =>
      match s with
      | c :: s' => if p c then star_lazy p s' k else None
      | [] => None
      end
  end.

Definition lit_eqb (ignorecase : bool) (a c : ascii) : bool :=
  if ignorecase then Ascii.eqb (Str.lower_char a) (Str.lower_char c) else Ascii.eqb a c.

(** [$] outside MULTILINE: the end, or before a final line feed. *)
Definition at_end (s : list ascii) : bool :=
  match s with
  | [] => true
  | [c] => Ascii.eqb c Str.newline
  | _ => false
  end.

(** The backtracking matcher: [k] is what remains to be matched. *)
Fixpoint run (ignorecase : bool) (r : t) (s : list ascii) (caps : captures)
    (k : list ascii -> captures -> option captures) : option captures :=
  match r with
  | Cls p =>
      match s with
      | c :: s' => if p c then k s' caps else None
      | [] => None
      end
  | Lit c =>
      match s with
      | a :: s' => if lit_eqb ignorecase a c then k s' caps else None
      | [] => None
      end
  | Seq a b => run ignorecase a s caps (fun s' caps' => run ignorecase b s' caps' k)
  | Star p => star_greedy p s (fun s' => k s' caps)
  | LazyStar p => star_lazy p s (fun s' => k s' caps)
  | Opt r' =>
      match run ignorecase r' s caps k with
      | Some res => Some res
      | None => k s caps
      end
  | Group r' =>
      run ignorecase r' s caps
          (fun s' caps' => k s' (caps' ++ [firstn (length s - length s') s]))
  | Eol => if at_end s then k s caps else None
  end.

(** [re.match(pattern, line, flags)]: anchored at the start; the groups of
    the match. *)
Definition match_ (ignorecase : bool) (r : t) (line : string) : option (list string) :=
  option_map (map Str.of_chars)
             (run ignorecase r (Str.chars line) [] (fun _ caps => Some caps)).

Definition plus (p : ascii -> bool) : t := Seq (Cls p) (Star p).
Definition lazy_plus (p : ascii -> bool) : t := Seq (Cls p) (LazyStar p).

Fixpoint lits (l : list ascii) (rest : t) : t :=
  match l with
  | [] => rest
  | c :: l' => Seq (Lit c) (lits l' rest)
  end.

(** [word] followed by [rest]. *)
Definition word (w : string) (rest : t) : t := lits (Str.chars w) rest.

Definition dot (c : ascii) : bool := negb (Ascii.eqb c Str.newline).
Definition space : ascii -> bool := Str.isspace.
Definition digit : ascii -> bool := Str.is_digit.
Definition one_of (w : string) (c : ascii) : bool := existsb (Ascii.eqb c) (Str.chars w).

End Re.

(** ** The deterministic item extractor *)

Definition skip_words : list string :=
  ["receipt"; "company"; "address"; "date"; "manager"; "total"; "thank";
   "description"; "price"; "lorem"; "ipsum";
   "tax"; "taxes"; "subtotal"; "amount"; "payment"; "cash"; "card"; "change";
   "bill"; "invoice"; "customer";
   "phone"; "email"; "website"; "store"; "shop"; "market"; "super"; "makkal";
   "time"; "number"; "id";
   "transaction"; "reference"; "inr"; "usd"; "currency"; "balance"; "tender";
   "received"].

(** The amount group and the end of the line, shared by the price patterns:
    one or more digits, an optional point, digits, closing the group, then
    blanks up to [$]. *)
Definition amount_tail : Re.t :=
  Re.Seq (Re.Group (Re.Seq (Re.plus Re.digit)
                           (Re.Seq (Re.Opt (Re.Lit "."%char)) (Re.Star Re.digit))))
         (Re.Seq (Re.Star Re.space) Re.Eol).

(** The rupee sign, U+20B9, in UTF-8. *)
Definition rupee : string :=
  String (ascii_of_nat 226) (String (ascii_of_nat 130) (String (ascii_of_nat 185) EmptyString)).

(** [^(.+?)\s+] followed by [rest]. *)
Definition name_then (rest : Re.t) : Re.t :=
  Re.Seq (Re.Group (Re.lazy_plus Re.dot)) (Re.Seq (Re.plus Re.space) rest).

Definition same_line_patterns : list Re.t :=
  [ name_then (Re.word "$" amount_tail);
    name_then (Re.word rupee (Re.Seq (Re.Star Re.space) amount_tail));
    name_then (Re.word "INR" (Re.Seq (Re.plus Re.space) amount_tail));
    name_then (Re.word "Rs" (Re.Seq (Re.Opt (Re.Lit "."%char))
                                    (Re.Seq (Re.Star Re.space) amount_tail))) ].

Definition price_patterns : list Re.t :=
  [ Re.word "$" amount_tail;
    Re.word rupee (Re.Seq (Re.Star Re.space) amount_tail);
    Re.word "INR" (Re.Seq (Re.plus Re.space) amount_tail);
    Re.word "Rs" (Re.Seq (Re.Opt (Re.Lit "."%char)) (Re.Seq (Re.Star Re.space) amount_tail));
    amount_tail ].

Definition letter_or (extra : string) (c : ascii) : bool :=
  Str.isalpha c || Re.space c || Re.one_of extra c.

Definition item_patterns : list Re.t :=
  [ Re.Seq (Re.Cls Str.is_upper) (Re.Seq (Re.plus (letter_or EmptyString)) Re.Eol);
    Re.Seq (Re.Cls Str.is_upper) (Re.Seq (Re.plus (letter_or "-")) Re.Eol);
    Re.Seq (Re.Cls Str.isalpha) (Re.Seq (Re.plus (letter_or EmptyString)) Re.Eol);
    Re.Seq (Re.Cls Str.isalpha) (Re.Seq (Re.plus (letter_or "&-")) Re.Eol) ].

(** [^[\*\=\-\:\_\~\s]+$] *)
Definition separator_pattern : Re.t :=
  Re.Seq (Re.plus (fun c => Re.one_of "*=-:_~" c || Re.space c)) Re.Eol.

Definition digit_val (c : ascii) : Z := Z.of_nat (Str.code c) - 48.

Definition digits_val (l : list ascii) : Z :=
  fold_left (fun acc c => acc * 10 + digit_val c) l 0.

(** [float(text)] on a text of the shape [[0-9]+\.?[0-9]*]: the exact value
    of the decimal, where [float] takes the nearest double. *)
Definition float_of (text : string) : Q :=
  let l := Str.chars text in
  let int_part := firstn (default (length l) (Str.find_char "."%char l)) l in
  let frac_part := skipn (S (default (length l) (Str.find_char "."%char l))) l in
  let scale := Z.pow 10 (Z.of_nat (length frac_part)) in
  Qred (Qmake (digits_val int_part * scale + digits_val frac_part) (Z.to_pos scale)).

Definition Qlt_bool (a b : Q) : bool := negb (Qle_bool b a).

(** [receipt and hasattr(receipt, 'total_amount') and receipt.total_amount
    and abs(price - receipt.total_amount) < 0.01], as a truth value, with the
    difference taken exactly. *)
Definition is_total (receipt : option Receipt.t) (price : Q) : bool :=
  match receipt with
  | None => false
  | Some r =>
      negb (Qeq_bool (Receipt.total_amount r) 0)
      && Qlt_bool (Qabs (price - Receipt.total_amount r)) (1 # 100)
  end.

(** [1 <= price <= 10000] *)
Definition price_in_range (price : Q) : bool :=
  Qle_bool 1 price && Qle_bool price 10000.

(** [any(c.isalpha() for c in s)] *)
Definition has_alpha (s : string) : bool := existsb Str.isalpha (Str.chars s).

Definition extracted_item (item_name : string) (price : Q) : pyval :=
  VDict [("name", VStr item_name); ("price", VFloat price);
         ("quantity", VInt 1); ("total_price", VFloat price)].

(** The loop over [same_line_patterns]: the first pattern whose match passes
    the name, range and total checks. *)
Fixpoint same_line_item (receipt : option Receipt.t) (patterns : list Re.t) (line : string)
    : option (string * Q) :=
  match patterns with
  | [] => None
  | pattern :: patterns' =>
      match Re.match_ true pattern line with
      | Some [g1; g2] =>
          let item_name := Str.strip g1 in
          let price := float_of g2 in
          if (3 <=? Str.len item_name)%nat && (Str.len item_name <=? 50)%nat
             && has_alpha item_name && price_in_range price
             && negb (is_total receipt price)
          then Some (item_name, price)
          else same_line_item receipt patterns' line
      | _ => same_line_item receipt patterns' line
      end
  end.

(** The loop over [price_patterns]. *)
Fixpoint price_only (receipt : option Receipt.t) (patterns : list Re.t) (line : string)
    : option Q :=
  match patterns with
  | [] => None
  | pattern :: patterns' =>
      match Re.match_ true pattern line with
      | Some [g1] =>
          let price := float_of g1 in
          if negb (is_total receipt price) && price_in_range price
          then Some price
          else price_only receipt patterns' line
      | _ => price_only receipt patterns' line
      end
  end.

(** The loop over [item_patterns]. *)
Definition item_candidate (line : string) : bool :=
  existsb (fun pattern =>
             match Re.match_ false pattern line with
             | Some _ => (3 <=? Str.len line)%nat && (Str.len line <=? 30)%nat && has_alpha line
             | None => false
             end) item_patterns.

(** What the first loop does with one line. *)
Inductive line_kind : Type :=
| Skipped
| SameLine (item_name : string) (price : Q)
| PriceLine (price : Q)
| ItemLine (line : string).

Definition classify_line (receipt : option Receipt.t) (raw : string) : line_kind :=
  let line := Str.strip raw in
  if String.eqb line EmptyString || (Str.len line <? 3)%nat then Skipped
  else if existsb (fun word => Str.contains word (Str.lower line)) skip_words then Skipped
  else if match Re.match_ false separator_pattern line with Some _ => true | None => false end
  then Skipped
  else
    match same_line_item receipt same_line_patterns line with
    | Some (item_name, price) => SameLine item_name price
    | None =>
        match price_only receipt price_patterns line with
        | Some price => PriceLine price
        | None => if item_candidate line then ItemLine line else Skipped
        end
    end.

(** The state of the first loop: [items], [item_lines], [price_lines]. *)
Record scan : Type := MkScan {
  items : list pyval;
  item_lines : list (nat * string);
  price_lines : list (nat * Q)
}.

Definition scan_line (receipt : option Receipt.t) (st : scan) (il : nat * string) : scan :=
  let '(i, raw) := il in
  match classify_line receipt raw with
  | Skipped => st
  | SameLine item_name price =>
      MkScan (items st ++ [extracted_item item_name price]) (item_lines st) (price_lines st)
  | PriceLine price => MkScan (items st) (item_lines st) (price_lines st ++ [(i, price)])
  | ItemLine line => MkScan (items st) (item_lines st ++ [(i, line)]) (price_lines st)
  end.

(** [enumerate(lines)] *)
Definition enumerate {A} (l : list A) : list (nat * A) := combine (seq 0 (length l)) l.

(** [abs(item_idx - price_idx)] *)
Definition distance (a b : nat) : nat := (a - b) + (b - a).

(** The inner pairing loop: the unused price line closest to the item, the
    earliest one among equals. *)
Definition closest_price (used_prices : list nat) (item_idx : nat)
    (price_lines : list (nat * Q)) : option (nat * nat * Q) :=
  fold_left
    (fun best pl =>
       let '(price_idx, price) := pl in
       if existsb (Nat.eqb price_idx) used_prices then best
       else
         match best with
         | None => Some (distance item_idx price_idx, price_idx, price)
         | Some (best_distance, _, _) =>
             if (distance item_idx price_idx <? best_distance)%nat
             then Some (distance item_idx price_idx, price_idx, price)
             else best
         end)
    price_lines None.

Definition pair_item (price_lines : list (nat * Q)) (st : list nat * list pyval)
    (il : nat * string) : list nat * list pyval :=
  let '(used_prices, items) := st in
  let '(item_idx, item_name) := il in
  match closest_price used_prices item_idx price_lines with
  | Some (_, best_price_idx, best_price) =>
      (best_price_idx :: used_prices, items ++ [extracted_item item_name best_price])
  | None => st
  end.

Definition _fallback_regex_extraction (raw_text : string) (receipt : option Receipt.t)
    : list pyval :=
  let lines := Str.split_lines raw_text in
  let st := fold_left (scan_line receipt) (enumerate lines) (MkScan [] [] []) in
  snd (fold_left (pair_item (price_lines st)) (item_lines st) ([], items st)).

(** ** Item extraction through the text-completion service *)

Definition _clean_gemini_response (response : string) : string :=
  if String.eqb response EmptyString then EmptyString
  else
    let response_clean := Str.strip response in
    let response_clean :=
      if Str.startswith response_clean "```json" then Str.drop 7 response_clean
      else if Str.startswith response_clean "```" then Str.drop 3 response_clean
      else response_clean in
    let response_clean :=
      if Str.endswith response_clean "```" then Str.drop_end 3 response_clean
      else response_clean in
    let response_clean := Str.strip response_clean in
    match Str.find_char "["%char (Str.chars response_clean),
          Str.rfind_char "]"%char (Str.chars response_clean) with
    | Some start, Some last => Str.slice start (last + 1) response_clean
    | _, _ => response_clean
    end.

(** What the [try] block of [_extract_items_from_text] computes: [inl] is an
    exception on its way to a handler, [inr] a returned value. *)
Definition extract_items_body (env : Env) (raw_text : string) : Exc pyval :=
  let! response := ask_items env raw_text in
  let response_clean := _clean_gemini_response response in
  if String.eqb response_clean EmptyString then ok (VList [])
  else
    let! items_data := loads env response_clean in
    let! n := py_len items_data in
    ok items_data.

(** [_extract_items_from_text].  The handler of [json.JSONDecodeError]
    reads the local [response] for its log line before it returns the empty
    list: when the decoder raised, the call had returned and [response] is
    assigned; when the call itself raised that exception, [response] was
    never assigned, and reading it raises [UnboundLocalError] out of the
    method, past the handler of [Exception] beside it. *)
Definition _extract_items_from_text (env : Env) (raw_text : string)
    (receipt : option Receipt.t) : Exc pyval :=
  match extract_items_body env raw_text with
  | inr items_data => ok items_data
  | inl JSONDecodeError =>
      match ask_items env raw_text with
      | inr _ => ok (VList [])
      | inl _ => raise UnboundLocalError
      end
  | inl _ => ok (VList (_fallback_regex_extraction raw_text receipt))
  end.

(** ** Assembly of the entities of a receipt *)

Definition as_int (v : pyval) : option Z :=
  match v with
  | VBool b => Some (if b then 1 else 0)
  | VInt z => Some z
  | _ => None
  end.

Definition as_number (v : pyval) : option Q :=
  match v with
  | VFloat q => Some q
  | _ => option_map inject_Z (as_int v)
  end.

Fixpoint repeat_list {A} (n : nat) (l : list A) : list A :=
  match n with
  | O => []
  | S n' => l ++ repeat_list n' l
  end.

(** [a * b]: numbers multiply, a sequence times an integer repeats. *)
Definition py_mul (a b : pyval) : Exc pyval :=
  match as_int a, as_int b with
  | Some x, Some y => ok (VInt (x * y))
  | _, _ =>
      match as_number a, as_number b with
      | Some x, Some y => ok (VFloat (x * y))
      | _, _ =>
          match a, as_int b, as_int a, b with
          | VStr s, Some n, _, _ | _, _, Some n, VStr s =>
              ok (VStr (Str.of_chars (repeat_list (Z.to_nat n) (Str.chars s))))
          | VList l, Some n, _, _ | _, _, Some n, VList l =>
              ok (VList (repeat_list (Z.to_nat n) l))
          | _, _, _, _ => raise TypeError
          end
      end
  end.

(** [str(v)] *)
Definition py_str (env : Env) (v : pyval) : string :=
  match v with
  | VStr s => s
  | _ => py_repr env v
  end.

(** Validation of a field of type [str], [Optional[str]] and [float]. *)
Definition valid_str (env : Env) (v : pyval) : Exc string :=
  match as_str env v with
  | Some s => ok s
  | None => raise ValidationError
  end.

Definition valid_opt_str (env : Env) (v : pyval) : Exc (option string) :=
  match v with
  | VNone => ok None
  | _ => let! s := valid_str env v in ok (Some s)
  end.

Definition valid_float (env : Env) (v : pyval) : Exc Q :=
  match as_float env v with
  | Some q => ok q
  | None => raise ValidationError
  end.

(** [GraphEntity(name=..., type=..., attributes=...)] for the entity that will
    sit at position [k]: the confidence defaults to 1.0. *)
Definition plain_entity (env : Env) (k : nat) (name type : string) (attributes : pydict)
    : GraphEntity.t :=
  GraphEntity.Build (uuid4 env k) name type None attributes 1.

(** [enhanced_data.get(block, {}).get(key, dflt)] *)
Definition sub_get (enhanced_data : pyval) (block key : string) (dflt : pyval) : Exc pyval :=
  let! b := py_get enhanced_data block (VDict []) in
  py_get b key dflt.

(** [item.attr if hasattr(item, 'attr') else item.get(key, dflt)] *)
Definition item_field (it : item) (attr : ReceiptItem.t -> pyval) (key : string)
    (dflt : pyval) : Exc pyval :=
  match it with
  | ItemObj r => ok (attr r)
  | ItemVal v => py_get v key dflt
  end.

Definition product_attributes (it : item) (classification : pyval) : Exc pydict :=
  let! enhanced_data := py_get classification "enhanced_data" (VDict []) in
  let! base_price :=
    item_field it (fun r => VFloat (ReceiptItem.unit_price r)) "price" (VFloat 0) in
  let! quantity :=
    item_field it (fun r => VFloat (ReceiptItem.quantity r)) "quantity" (VInt 1) in
  let! total_price :=
    match it with
    | ItemObj r => ok (VFloat (ReceiptItem.total_price r))
    | ItemVal v => let! dflt := py_mul base_price quantity in py_get v "total_price" dflt
    end in
  let! sku := item_field it (fun r => opt_str (ReceiptItem.sku r)) "sku" VNone in
  let! description :=
    item_field it (fun r => opt_str (ReceiptItem.description r)) "description" VNone in
  let! confidence := py_get classification "confidence" (VFloat (8 # 10)) in
  let! brand := py_get classification "brand" VNone in
  let! product_type := py_get enhanced_data "product_type" VNone in
  let! has_warranty := sub_get enhanced_data "warranty_info" "has_warranty" (VBool false) in
  let! warranty_period := sub_get enhanced_data "warranty_info" "warranty_period" VNone in
  let! warranty_expiry := sub_get enhanced_data "warranty_info" "warranty_expiry" VNone in
  let! has_expiry := sub_get enhanced_data "expiry_info" "has_expiry" (VBool false) in
  let! expiry_date := sub_get enhanced_data "expiry_info" "expiry_date" VNone in
  let! days_until_expiry := sub_get enhanced_data "expiry_info" "days_until_expiry" VNone in
  let! is_expiring_soon :=
    sub_get enhanced_data "expiry_info" "is_expiring_soon" (VBool false) in
  let! is_food := sub_get enhanced_data "nutritional_info" "is_food" (VBool false) in
  let! allergens := sub_get enhanced_data "nutritional_info" "allergens" (VList []) in
  let! dietary_tags := sub_get enhanced_data "nutritional_info" "dietary_tags" (VList []) in
  let! unit_price := sub_get enhanced_data "price_analysis" "unit_price" base_price in
  let! price_per_unit := sub_get enhanced_data "price_analysis" "price_per_unit" base_price in
  let! is_discounted := sub_get enhanced_data "price_analysis" "is_discounted" (VBool false) in
  let! original_price := sub_get enhanced_data "price_analysis" "original_price" VNone in
  ok [("price", base_price); ("quantity", quantity); ("total_price", total_price);
      ("sku", sku); ("description", description); ("confidence", confidence);
      ("brand", brand); ("product_type", product_type);
      ("has_warranty", has_warranty); ("warranty_period", warranty_period);
      ("warranty_expiry", warranty_expiry);
      ("has_expiry", has_expiry); ("expiry_date", expiry_date);
      ("days_until_expiry", days_until_expiry); ("is_expiring_soon", is_expiring_soon);
      ("is_food", is_food); ("allergens", allergens); ("dietary_tags", dietary_tags);
      ("unit_price", unit_price); ("price_per_unit", price_per_unit);
      ("is_discounted", is_discounted); ("original_price", original_price)].

(** The product name: [item.name], or [str(item.get('name', 'Unknown Item'))]. *)
Definition product_name (env : Env) (it : item) : Exc string :=
  match it with
  | ItemObj r => ok (ReceiptItem.name r)
  | ItemVal v => let! n := py_get v "name" (VStr "Unknown Item") in ok (py_str env n)
  end.

(** The body of the loop over [zip(items_to_process, classified_items)]: the
    entities appended for one pair, after [entities]. *)
Definition item_entities (env : Env) (entities : list GraphEntity.t)
    (ic : item * pyval) : Exc (list GraphEntity.t) :=
  let '(it, classification) := ic in
  let! attributes := product_attributes it classification in
  let! name := product_name env it in
  let! category_v := py_get classification "category" (VStr "other") in
  let! category := valid_opt_str env category_v in
  let! confidence_v := py_get classification "confidence" (VFloat (8 # 10)) in
  let! confidence := valid_float env confidence_v in
  let product_entity :=
    GraphEntity.Build (uuid4 env (length entities)) name "product" category attributes
                      confidence in
  let entities := entities ++ [product_entity] in
  let! brand_name := py_get classification "brand" VNone in
  let! entities :=
    (if truthy brand_name
     then
       let! b := valid_str env brand_name in
       ok (entities ++
           [plain_entity env (length entities) b "brand"
              [("domain", VStr "product_brand");
               ("detected_from", VStr (GraphEntity.name product_entity))]])
     else ok entities) in
  let! category_name_v := py_get classification "category" (VStr "other") in
  let! category_name := valid_str env category_name_v in
  let entities :=
    entities ++
    [plain_entity env (length entities) category_name "category"
       [("domain", VStr "product_category")]] in
  let! brand := py_get classification "brand" VNone in
  if truthy brand
  then
    let! b := valid_str env brand in
    let! product :=
      match it with
      | ItemObj r => ok (VStr (ReceiptItem.name r))
      | ItemVal v => py_get v "name" (VStr "Unknown")
      end in
    ok (entities ++ [plain_entity env (length entities) b "brand" [("product", product)]])
  else ok entities.

Fixpoint foldM {A B} (f : A -> B -> Exc A) (l : list B) (a : A) : Exc A :=
  match l with
  | [] => ok a
  | b :: l' => let! a' := f a b in foldM f l' a'
  end.

(** The merchant, location and payment-method entities. *)
Definition header_entities (env : Env) (receipt : Receipt.t) : list GraphEntity.t :=
  let entities :=
    [plain_entity env 0 (Receipt.merchant_name receipt) "merchant"
       [("address", opt_str (Receipt.merchant_address receipt));
        ("phone", opt_str (Receipt.merchant_phone receipt));
        ("tax_id", opt_str (Receipt.merchant_tax_id receipt));
        ("total_amount", VFloat (Receipt.total_amount receipt))]] in
  let entities :=
    match Receipt.merchant_address receipt with
    | Some address =>
        if truthy (VStr address)
        then entities ++
             [plain_entity env (length entities) address "location"
                [("type", VStr "merchant_location")]]
        else entities
    | None => entities
    end in
  match Receipt.payment_method receipt with
  | Some method =>
      if truthy (VStr method)
      then entities ++
           [plain_entity env (length entities) method "payment_method"
              [("card_last_four", opt_str (Receipt.card_last_four receipt))]]
      else entities
  | None => entities
  end.

(** The choice between the extracted items and the receipt's own. *)
Definition items_to_process (env : Env) (receipt : Receipt.t) : Exc (list item) :=
  let! gemini_items :=
    _extract_items_from_text env (Receipt.raw_text receipt) (Some receipt) in
  let existing_items := Receipt.items receipt in
  let! n := py_len gemini_items in
  if (length existing_items <? n)%nat || match existing_items with [] => true | _ => false end
  then let! each := py_iter gemini_items in ok (map ItemVal each)
  else ok existing_items.

Definition _extract_entities_from_receipt (env : Env) (receipt : Receipt.t)
    : Exc (list GraphEntity.t) :=
  let entities := header_entities env receipt in
  let! items_to_process := items_to_process env receipt in
  match items_to_process with
  | [] => ok entities
  | _ =>
      let! classified_items := _classify_items_with_gemini env items_to_process in
      foldM (item_entities env) (combine items_to_process classified_items) entities
  end.

(** ** Merging graphs *)

(** A dictionary whose keys are tuples: a list of bindings in insertion
    order, which is the order of [values()]. *)
Fixpoint assoc {K V} (eqb : K -> K -> bool) (k : K) (m : list (K * V)) : option V :=
  match m with
  | [] => None
  | (k', v) :: m' => if eqb k k' then Some v else assoc eqb k m'
  end.

Definition entity_key : Type := (string * string)%type.
Definition relation_key : Type := (string * string * string)%type.

Definition entity_key_eqb (a b : entity_key) : bool :=
  String.eqb (fst a) (fst b) && String.eqb (snd a) (snd b).

Definition relation_key_eqb (a b : relation_key) : bool :=
  String.eqb (fst (fst a)) (fst (fst b))
  && String.eqb (snd (fst a)) (snd (fst b))
  && String.eqb (snd a) (snd b).

(** [(entity.name.lower(), entity.type)] *)
Definition key_of (entity : GraphEntity.t) : entity_key :=
  (Str.lower (GraphEntity.name entity), GraphEntity.type entity).

(** [max(a, b)] and [min(a, b)] return their first argument unless the second
    is strictly beyond it. *)
Definition py_max (a b : Q) : Q := if Qlt_bool a b then b else a.
Definition py_min (a b : Q) : Q := if Qlt_bool b a then b else a.

(** [existing.attributes.update(entity.attributes)] and
    [existing.confidence = max(existing.confidence, entity.confidence)] *)
Definition absorb (existing entity : GraphEntity.t) : GraphEntity.t :=
  GraphEntity.Build
    (GraphEntity.id existing) (GraphEntity.name existing) (GraphEntity.type existing)
    (GraphEntity.category existing)
    (Dict.update (GraphEntity.attributes existing) (GraphEntity.attributes entity))
    (py_max (GraphEntity.confidence existing) (GraphEntity.confidence entity)).

(** [relation.source_entity_id = source; relation.target_entity_id = target] *)
Definition rewire (relation : GraphRelation.t) (source target : string) : GraphRelation.t :=
  GraphRelation.Build
    (GraphRelation.id relation) source target (GraphRelation.relation_type relation)
    (GraphRelation.weight relation) (GraphRelation.attributes relation)
    (GraphRelation.receipt_id relation).

(** [existing.weight = min(existing.weight + 0.1, 1.0)] *)
Definition strengthen (existing : GraphRelation.t) : GraphRelation.t :=
  GraphRelation.Build
    (GraphRelation.id existing) (GraphRelation.source_entity_id existing)
    (GraphRelation.target_entity_id existing) (GraphRelation.relation_type existing)
    (py_min (GraphRelation.weight existing + (1 # 10)) 1)
    (GraphRelation.attributes existing) (GraphRelation.receipt_id existing).

(** The objects that [from_dict] creates for the loaded graphs are all
    distinct.  They are kept in one list per class, graph after graph, and an
    object is referred to by its position there: the loops of the merge visit
    the positions in increasing order, and assigning to a field of an object
    replaces the element at its position. *)

(** One step of the loop over the entities: the entity at position [a]. *)
Definition merge_entity (st : list (entity_key * nat) * list GraphEntity.t) (a : nat)
    : list (entity_key * nat) * list GraphEntity.t :=
  let '(entity_map, heap) := st in
  match heap !! a with
  | None => st
  | Some entity =>
      let key := key_of entity in
      match assoc entity_key_eqb key entity_map with
      | None => (entity_map ++ [(key, a)], heap)
      | Some b =>
          match heap !! b with
          | None => st
          | Some existing => (entity_map, <[b := absorb existing entity]> heap)
          end
      end
  end.

Definition merge_entities (heap : list GraphEntity.t)
    : list (entity_key * nat) * list GraphEntity.t :=
  fold_left merge_entity (seq 0 (length heap)) ([], heap).

(** The objects at the positions [refs], as they are in [heap]. *)
Fixpoint deref {A} (heap : list A) (refs : list nat) : list A :=
  match refs with
  | [] => []
  | a :: refs' =>
      match heap !! a with
      | Some x => x :: deref heap refs'
      | None => deref heap refs'
      end
  end.

(** [next((e for e in merged_graph.entities if e.name == endpoint), None)] *)
Definition entity_named (entities : list GraphEntity.t) (endpoint : string)
    : option GraphEntity.t :=
  find (fun e => String.eqb (GraphEntity.name e) endpoint) entities.

(** One step of the loop over the relations: the relation at position [a]. *)
Definition merge_relation (merged_entities : list GraphEntity.t)
    (st : list (relation_key * nat) * list GraphRelation.t) (a : nat)
    : list (relation_key * nat) * list GraphRelation.t :=
  let '(relation_map, heap) := st in
  match heap !! a with
  | None => st
  | Some relation =>
      match entity_named merged_entities (GraphRelation.source_entity_id relation),
            entity_named merged_entities (GraphRelation.target_entity_id relation) with
      | Some source_entity, Some target_entity =>
          let key := (GraphEntity.id source_entity, GraphEntity.id target_entity,
                      GraphRelation.relation_type relation) in
          match assoc relation_key_eqb key relation_map with
          | None =>
              (relation_map ++ [(key, a)],
               <[a := rewire relation (GraphEntity.id source_entity)
                             (GraphEntity.id target_entity)]> heap)
          | Some b =>
              match heap !! b with
              | None => st
              | Some existing => (relation_map, <[b := strengthen existing]> heap)
              end
          end
      | _, _ => st
      end
  end.

Definition merge_relations (merged_entities : list GraphEntity.t)
    (heap : list GraphRelation.t) : list (relation_key * nat) * list GraphRelation.t :=
  fold_left (merge_relation merged_entities) (seq 0 (length heap)) ([], heap).

(** The pieces of [flat] of the lengths [sizes], in order. *)
Fixpoint regroup {A} (sizes : list nat) (flat : list A) : list (list A) :=
  match sizes with
  | [] => []
  | n :: sizes' => firstn n flat :: regroup sizes' (skipn n flat)
  end.

(** The stored documents, by graph id.  A document decodes to the graph it
    was written from. *)
Definition store : Type := list (string * KnowledgeGraph.t).

(** [_store_graph]: storage by the backend is switched off; the method logs
    and returns. *)
Definition _store_graph (db : store) (graph : KnowledgeGraph.t) : store := db.

(** The loop over [graph_ids]: the documents that exist, decoded. *)
Definition load_graphs (db : store) (graph_ids : list string) : list KnowledgeGraph.t :=
  omap (fun graph_id => assoc String.eqb graph_id db) graph_ids.

Definition with_objects (g : KnowledgeGraph.t) (es : list GraphEntity.t)
    (rs : list GraphRelation.t) : KnowledgeGraph.t :=
  KnowledgeGraph.Build
    (KnowledgeGraph.id g) (KnowledgeGraph.name g) (KnowledgeGraph.description g) es rs
    (KnowledgeGraph.receipt_ids g) (KnowledgeGraph.user_id g)
    (KnowledgeGraph.total_entities g) (KnowledgeGraph.total_relations g).

Fixpoint zip3 (gs : list KnowledgeGraph.t) (ess : list (list GraphEntity.t))
    (rss : list (list GraphRelation.t)) : list KnowledgeGraph.t :=
  match gs, ess, rss with
  | g :: gs', es :: ess', rs :: rss' => with_objects g es rs :: zip3 gs' ess' rss'
  | _, _, _ => []
  end.

(** What a merge leaves behind: the graph it returns, the graph objects it
    decoded for itself as they are when it returns (local to the call: no
    caller holds them), and the stored documents. *)
Record merge_result : Type := MkMerge {
  merged : KnowledgeGraph.t;
  sources_after : list KnowledgeGraph.t;
  db_after : store
}.

(** [merge_graphs]; [fresh_id] is the identifier drawn for the new graph and
    [stamp] the formatted reading of the clock in its name. *)
Definition merge_graphs (db : store) (fresh_id stamp : string) (graph_ids : list string)
    (user_id : string) : Exc merge_result :=
  let graphs := load_graphs db graph_ids in
  match graphs with
  | [] => raise ValueError
  | _ =>
      let merged_graph :=
        KnowledgeGraph.create fresh_id
          ("merged_graph_" ++ user_id ++ "_" ++ stamp)%string
          (Some ("Merged knowledge graph from " ++ pretty.pretty (length graphs)
                 ++ " individual graphs")%string)
          [] (Some user_id) in
      let merged_graph :=
        KnowledgeGraph.Build
          (KnowledgeGraph.id merged_graph) (KnowledgeGraph.name merged_graph)
          (KnowledgeGraph.description merged_graph) [] []
          (concat (map KnowledgeGraph.receipt_ids graphs))
          (KnowledgeGraph.user_id merged_graph) 0 0 in
      let '(entity_map, eheap) :=
        merge_entities (concat (map KnowledgeGraph.entities graphs)) in
      let merged_graph :=
        fold_left (fun g e => KnowledgeGraph.add_entity e g)
                  (deref eheap (map snd entity_map)) merged_graph in
      let '(relation_map, rheap) :=
        merge_relations (KnowledgeGraph.entities merged_graph)
                        (concat (map KnowledgeGraph.relations graphs)) in
      let merged_graph :=
        fold_left (fun g r => KnowledgeGraph.add_relation r g)
                  (deref rheap (map snd relation_map)) merged_graph in
      let db := _store_graph db merged_graph in
      ok (MkMerge merged_graph
            (zip3 graphs
               (regroup (map (fun g => length (KnowledgeGraph.entities g)) graphs) eheap)
               (regroup (map (fun g => length (KnowledgeGraph.relations g)) graphs) rheap))
            db)
  end.

(** ** Vocabulary of the statements *)

(** [v[k1][k2]...], when every step is a dictionary holding the key. *)
Fixpoint path (v : pyval) (keys : list string) : option pyval :=
  match keys with
  | [] => Some v
  | k :: keys' =>
      match v with
      | VDict d =>
          match Dict.lookup k d with
          | Some v' => path v' keys'
          | None => None
          end
      | _ => None
      end
  end.

(** An item that the classifiers can read: an object, or a dictionary whose
    name, when it has one, is a string. *)
Definition item_ok (it : item) : Prop :=
  match it with
  | ItemObj _ => True
  | ItemVal (VDict d) => exists s, Dict.get d "name" (VStr "unknown") = VStr s
  | ItemVal _ => False
  end.

(** The longest shelf life of the table, in days, added to the clock's date
    stays a date. *)
Definition clock_ok (env : Env) : Prop :=
  Date.to_days (today env) + 730 <= Date.max_days.

Definition unit_interval (q : Q) : Prop := (0 <= q)%Q /\ (q <= 1)%Q.

(** The classification of the chosen items took one of the two fallbacks:
    the keyword classifier, or the cycle of categories. *)
Definition classified_by_fallback (env : Env) (receipt : Receipt.t) : Prop :=
  forall its,
    items_to_process env receipt = ok its ->
    _classify_items_with_gemini env its = _create_fallback_classifications env its \/
    _classify_items_with_gemini env its = ok (_fallback_classification (length its)).

Definition is_product (e : GraphEntity.t) : bool :=
  String.eqb (GraphEntity.type e) "product".

(** The confidence of entity [e] is the validated confidence of the
    classification record [c]. *)
Definition confidence_from (env : Env) (c : pyval) (e : GraphEntity.t) : Prop :=
  exists v,
    py_get c "confidence" (VFloat (8 # 10)) = ok v /\
    valid_float env v = ok (GraphEntity.confidence e).

(** All the entity objects, and all the relation objects, of some graphs. *)
Definition all_entities (graphs : list KnowledgeGraph.t) : list GraphEntity.t :=
  concat (map KnowledgeGraph.entities graphs).

Definition all_relations (graphs : list KnowledgeGraph.t) : list GraphRelation.t :=
  concat (map KnowledgeGraph.relations graphs).

(** What a merge leaves as it was in an entity, a relation and a graph that
    it loaded. *)
Definition entity_frame (e e' : GraphEntity.t) : Prop :=
  GraphEntity.id e' = GraphEntity.id e /\
  GraphEntity.name e' = GraphEntity.name e /\
  GraphEntity.type e' = GraphEntity.type e /\
  GraphEntity.category e' = GraphEntity.category e.

Definition relation_frame (r r' : GraphRelation.t) : Prop :=
  GraphRelation.id r' = GraphRelation.id r /\
  GraphRelation.relation_type r' = GraphRelation.relation_type r /\
  GraphRelation.attributes r' = GraphRelation.attributes r /\
  GraphRelation.receipt_id r' = GraphRelation.receipt_id r.

Definition graph_frame (g g' : KnowledgeGraph.t) : Prop :=
  KnowledgeGraph.id g' = KnowledgeGraph.id g /\
  KnowledgeGraph.name g' = KnowledgeGraph.name g /\
  KnowledgeGraph.description g' = KnowledgeGraph.description g /\
  KnowledgeGraph.receipt_ids g' = KnowledgeGraph.receipt_ids g /\
  KnowledgeGraph.user_id g' = KnowledgeGraph.user_id g /\
  KnowledgeGraph.total_entities g' = KnowledgeGraph.total_entities g /\
  KnowledgeGraph.total_relations g' = KnowledgeGraph.total_relations g /\
  Forall2 entity_frame (KnowledgeGraph.entities g) (KnowledgeGraph.entities g') /\
  Forall2 relation_frame (KnowledgeGraph.relations g) (KnowledgeGraph.relations g').

(** A relation whose two endpoints are ids of entities of [entities]. *)
Definition endpoints_in (entities : list GraphEntity.t) (r : GraphRelation.t) : Prop :=
  In (GraphRelation.source_entity_id r) (map GraphEntity.id entities) /\
  In (GraphRelation.target_entity_id r) (map GraphEntity.id entities).


(** ** Sample data *)

(** Field validation that accepts a value of the field's type only, and an
    integer for a float. *)
Definition strict_str (v : pyval) : option string :=
  match v with
  | VStr s => Some s
  | _ => None
  end.

Definition strict_float (v : pyval) : option Q :=
  match v with
  | VFloat q => Some q
  | VInt z => Some (inject_Z z)
  | _ => None
  end.

(** A world in which the text-completion service cannot be reached, on
    2025-07-22. *)
Definition offline_env : Env :=
  MkEnv (fun _ => None)
        (fun _ => raise TransportError)
        (fun _ => raise TransportError)
        (Date.Build 2025 7 22)
        (fun k => ("uuid-" ++ pretty.pretty k)%string)
        (fun _ => "<repr>")
        strict_str strict_float.

(** The receipt of the scenario: four lines, and a total of 97.00. *)
Definition nl : string := String Str.newline EmptyString.

Definition scenario_text : string :=
  ("MILK 1L  Rs. 55.00" ++ nl ++ "BREAD" ++ nl ++ "42.00" ++ nl ++ "TOTAL  97.00")%string.

Definition scenario_receipt : Receipt.t :=
  Receipt.Build "rcp-1" "user-1" "Big Mart" None None None 97 None None
                (Date.Build 2025 7 22) scenario_text [].

Definition scenario_items : list pyval :=
  [extracted_item "MILK 1L" 55; extracted_item "BREAD" 42].

(** A world in which the service answers the extraction request in prose,
    which the decoder rejects. *)
Definition prose_env : Env :=
  MkEnv (fun _ => None)
        (fun _ => ok "Sorry, I could not find any items on this receipt.")
        (fun _ => raise TransportError)
        (Date.Build 2025 7 22)
        (fun k => ("uuid-" ++ pretty.pretty k)%string)
        (fun _ => "<repr>")
        strict_str strict_float.

(** A response of the service to the classification request: one record for
    the two items of the scenario, with a confidence written as a percentage
    and a brand.  [dq] is the double quote. *)
Definition dq : string := String (ascii_of_nat 34) EmptyString.

Definition quoted (s : string) : string := (dq ++ s ++ dq)%string.

Definition percent_reply : string :=
  ("{" ++ quoted "item_classifications" ++ ": [{"
   ++ quoted "category" ++ ": " ++ quoted "dairy" ++ ", "
   ++ quoted "confidence" ++ ": 95, "
   ++ quoted "brand" ++ ": " ++ quoted "Amul" ++ "}]}")%string.

Definition percent_analysis : pyval :=
  VDict [("item_classifications",
          VList [VDict [("category", VStr "dairy");
                        ("confidence", VInt 95);
                        ("brand", VStr "Amul")]])].

(** A world in which the extraction request fails, so that the items come
    from the deterministic extractor, and the classification request is
    answered by [percent_reply], which the decoder knows. *)
Definition percent_env : Env :=
  MkEnv (fun text => if String.eqb text percent_reply then Some percent_analysis else None)
        (fun _ => raise TransportError)
        (fun _ => ok percent_reply)
        (Date.Build 2025 7 22)
        (fun k => ("uuid-" ++ pretty.pretty k)%string)
        (fun _ => "<repr>")
        strict_str strict_float.

(** The record that [_parse_classification_response] builds from the
    classification of [percent_reply]. *)
Definition amul_classification : pyval :=
  VDict [("category", VStr "dairy");
         ("confidence", VInt 95);
         ("brand", VStr "Amul");
         ("enhanced_data",
          VDict [("category", VStr "dairy");
                 ("confidence", VInt 95);
                 ("brand", VStr "Amul")])].

(** Two stored graphs of receipts from the same shop, whose name is written
    in two ways, and a third one from another shop. *)
Definition graph_a : KnowledgeGraph.t :=
  KnowledgeGraph.Build "g-a" "2025-07-21_Big_Mart" None
    [GraphEntity.Build "m-a" "Big Mart" "merchant" None [("phone", VStr "1")] (9 # 10);
     GraphEntity.Build "p-a" "Milk" "product" (Some "grocery") [("price", VFloat 55)] (7 # 10)]
    [GraphRelation.Build "r-a" "p-a" "m-a" "purchased_at" 1 [] (Some "rcp-a")]
    ["rcp-a"] (Some "user-1") 2 1.

Definition graph_b : KnowledgeGraph.t :=
  KnowledgeGraph.Build "g-b" "2025-07-22_big_mart" None
    [GraphEntity.Build "m-b" "big mart" "merchant" None
       [("phone", VStr "2"); ("tax_id", VStr "T-9")] 1;
     GraphEntity.Build "p-b" "Bread" "product" (Some "bakery") [("price", VFloat 42)] (7 # 10)]
    [GraphRelation.Build "r-b" "p-b" "m-b" "purchased_at" 1 [] (Some "rcp-b")]
    ["rcp-b"] (Some "user-1") 2 1.

Definition graph_c : KnowledgeGraph.t :=
  KnowledgeGraph.Build "g-c" "2025-07-23_Corner_Shop" None
    [GraphEntity.Build "m-c" "Corner Shop" "merchant" None [] 1;
     GraphEntity.Build "p-c" "Tea" "product" (Some "grocery") [("price", VFloat 85)] (7 # 10)]
    [GraphRelation.Build "r-c" "p-c" "m-c" "purchased_at" 1 [] (Some "rcp-c")]
    ["rcp-c"] (Some "user-1") 2 1.

(** A stored graph whose entities are named by their identifiers, so that the
    endpoints of its relations are found by name, and which holds the same
    edge twice. *)
Definition graph_d : KnowledgeGraph.t :=
  KnowledgeGraph.Build "g-d" "2025-07-24_m-1" None
    [GraphEntity.Build "p-1" "p-1" "product" None [] 1;
     GraphEntity.Build "m-1" "m-1" "merchant" None [] 1]
    [GraphRelation.Build "r-1" "p-1" "m-1" "purchased_at" (95 # 100) [] None;
     GraphRelation.Build "r-2" "p-1" "m-1" "purchased_at" 1 [] None]
    ["rcp-d"] (Some "user-1") 2 2.

(** A stored graph as the assembler builds it for a receipt with two items
    of one category: one category entity per item. *)
Definition graph_e : KnowledgeGraph.t :=
  KnowledgeGraph.Build "g-e" "2025-07-25_Fresh_Foods" None
    [GraphEntity.Build "m-e" "Fresh Foods" "merchant" None [] 1;
     GraphEntity.Build "p-e1" "Milk" "product" (Some "grocery") [("price", VFloat 55)] (7 # 10);
     GraphEntity.Build "c-e1" "grocery" "category" None [("domain", VStr "product_category")] 1;
     GraphEntity.Build "p-e2" "Rice" "product" (Some "grocery") [("price", VFloat 120)] (7 # 10);
     GraphEntity.Build "c-e2" "grocery" "category" None [("domain", VStr "product_category")] 1]
    [GraphRelation.Build "r-e1" "p-e1" "m-e" "purchased_at" 1 [] (Some "rcp-e");
     GraphRelation.Build "r-e2" "p-e2" "m-e" "purchased_at" 1 [] (Some "rcp-e");
     GraphRelation.Build "r-e3" "p-e1" "c-e1" "belongs_to_category" (7 # 10) [] (Some "rcp-e");
     GraphRelation.Build "r-e4" "p-e2" "c-e1" "belongs_to_category" (7 # 10) [] (Some "rcp-e")]
    ["rcp-e"] (Some "user-1") 5 4.

Definition sample_store : store :=
  [("g-a", graph_a); ("g-b", graph_b); ("g-c", graph_c); ("g-d", graph_d);
   ("g-e", graph_e)].







(** ** Queries on a graph: [knowledge_graph.py] *)

(** [next((e for e in self.entities if e.id == entity_id), None)] *)
Definition get_entity_by_id (self : KnowledgeGraph.t) (entity_id : string)
    : option GraphEntity.t :=
  List.find (fun e => String.eqb (GraphEntity.id e) entity_id) (KnowledgeGraph.entities self).

(** [[e for e in self.entities if e.type == entity_type]] *)
Definition get_entities_by_type (self : KnowledgeGraph.t) (entity_type : string)
    : list GraphEntity.t :=
  List.filter (fun e => String.eqb (GraphEntity.type e) entity_type)
              (KnowledgeGraph.entities self).

(** [[r for r in self.relations
      if r.source_entity_id == entity_id or r.target_entity_id == entity_id]] *)
Definition get_relations_for_entity (self : KnowledgeGraph.t) (entity_id : string)
    : list GraphRelation.t :=
  List.filter (fun r => String.eqb (GraphRelation.source_entity_id r) entity_id
                        || String.eqb (GraphRelation.target_entity_id r) entity_id)
              (KnowledgeGraph.relations self).

(** ** The call of the text-completion service: [_call_gemini] *)

(** What the method does to the outside: a request, or a pause of so many
    seconds. *)
Inductive event : Type :=
| Generate (attempt : nat)
| Sleep (seconds : Z).

(** The loop [for attempt in range(max_retries)] over the attempts [todo];
    [generate attempt] is the outcome of the request of that attempt, the
    text of the response or the exception raised.  A loop that runs out
    falls off the end of the method, which returns [None]. *)
Fixpoint call_attempts (generate : nat -> Exc string) (max_retries : nat) (todo : list nat)
    : list event * Exc (option string) :=
  match todo with
  | [] => ([], ok None)
  | attempt :: todo' =>
      match generate attempt with
      | inr text => ([Generate attempt], ok (Some text))
      | inl e =>
          if (attempt =? max_retries - 1)%nat then ([Generate attempt], raise e)
          else
            let '(trace, result) := call_attempts generate max_retries todo' in
            (Generate attempt :: Sleep (2 ^ Z.of_nat attempt) :: trace, result)
      end
  end.

Definition _call_gemini (generate : nat -> Exc string) : list event * Exc (option string) :=
  let max_retries := 3%nat in
  call_attempts generate max_retries (seq 0 max_retries).

(** ** The relations of a receipt: [_create_relationships] *)

(** [[e for e in entities if e.type == t]] and
    [next((e for e in entities if e.type == t), None)] *)
Definition of_type (t : string) (entities : list GraphEntity.t) : list GraphEntity.t :=
  List.filter (fun e => String.eqb (GraphEntity.type e) t) entities.

Definition first_of_type (t : string) (entities : list GraphEntity.t)
    : option GraphEntity.t :=
  List.find (fun e => String.eqb (GraphEntity.type e) t) entities.

(** [relations.append(GraphRelation(...))]: [fresh k] is the identifier drawn
    for the relation at position [k].  The [transaction_date] of a purchase
    is, like the wall-clock metadata, written and never read. *)
Definition append_relation (fresh : nat -> string) (relations : list GraphRelation.t)
    (source target relation_type : string) (weight : Q) (attributes : pydict)
    (receipt_id : string) : list GraphRelation.t :=
  relations ++
  [GraphRelation.Build (fresh (length relations)) source target relation_type weight
                       attributes (Some receipt_id)].

(** [product.category or "other"] *)
Definition category_or_other (product : GraphEntity.t) : string :=
  match GraphEntity.category product with
  | Some c => if truthy (VStr c) then c else "other"
  | None => "other"
  end.

(** [v == s] for a string [s]. *)
Definition py_eq_str (v : pyval) (s : string) : bool :=
  match v with
  | VStr s' => String.eqb s' s
  | _ => false
  end.

(** [b.attributes.get("product") == product.name] *)
Definition brand_of (product b : GraphEntity.t) : bool :=
  py_eq_str (Dict.get (GraphEntity.attributes b) "product" VNone) (GraphEntity.name product).

Definition purchased_at (fresh : nat -> string) (receipt : Receipt.t)
    (merchant : GraphEntity.t) (relations : list GraphRelation.t) (product : GraphEntity.t)
    : list GraphRelation.t :=
  append_relation fresh relations (GraphEntity.id product) (GraphEntity.id merchant)
    "purchased_at" 1
    [("price", Dict.get (GraphEntity.attributes product) "price" (VInt 0))]
    (Receipt.id receipt).

Definition belongs_to_category (fresh : nat -> string) (receipt : Receipt.t)
    (categories : list GraphEntity.t) (relations : list GraphRelation.t)
    (product : GraphEntity.t) : list GraphRelation.t :=
  let product_category := category_or_other product in
  match List.find (fun c => String.eqb (GraphEntity.name c) product_category) categories with
  | Some category =>
      append_relation fresh relations (GraphEntity.id product) (GraphEntity.id category)
        "belongs_to_category" (GraphEntity.confidence product) [] (Receipt.id receipt)
  | None => relations
  end.

Definition manufactured_by (fresh : nat -> string) (receipt : Receipt.t)
    (brands : list GraphEntity.t) (relations : list GraphRelation.t)
    (product : GraphEntity.t) : list GraphRelation.t :=
  match List.find (brand_of product) brands with
  | Some matching_brand =>
      append_relation fresh relations (GraphEntity.id product) (GraphEntity.id matching_brand)
        "manufactured_by" (9 # 10) [] (Receipt.id receipt)
  | None => relations
  end.

Definition _create_relationships (fresh : nat -> string) (entities : list GraphEntity.t)
    (receipt : Receipt.t) : list GraphRelation.t :=
  let relations := [] in
  let products := of_type "product" entities in
  let merchant := first_of_type "merchant" entities in
  let categories := of_type "category" entities in
  let brands := of_type "brand" entities in
  let location := first_of_type "location" entities in
  let payment := first_of_type "payment_method" entities in
  let relations :=
    match merchant with
    | Some merchant => fold_left (purchased_at fresh receipt merchant) products relations
    | None => relations
    end in
  let relations := fold_left (belongs_to_category fresh receipt categories) products relations in
  let relations := fold_left (manufactured_by fresh receipt brands) products relations in
  let relations :=
    match merchant, location with
    | Some merchant, Some location =>
        append_relation fresh relations (GraphEntity.id merchant) (GraphEntity.id location)
          "located_at" 1 [] (Receipt.id receipt)
    | _, _ => relations
    end in
  match payment, merchant with
  | Some payment, Some merchant =>
      append_relation fresh relations (GraphEntity.id merchant) (GraphEntity.id payment)
        "paid_with" 1 [("amount", VFloat (Receipt.total_amount receipt))]
        (Receipt.id receipt)
  | _, _ => relations
  end.

(** ** The graph of a receipt: [build_graph_from_receipt] *)

(** [s.replace(a, b)] for single characters. *)
Definition replace_char (a b : ascii) (s : string) : string :=
  Str.of_chars (map (fun c => if Ascii.eqb c a then b else c) (Str.chars s)).

(** [merchant_name.replace(' ', '_').replace('/', '_').replace('\\', '_')[:20]] *)
Definition merchant_clean (merchant_name : string) : string :=
  Str.slice 0 20
    (replace_char "\"%char "_"%char
       (replace_char "/"%char "_"%char
          (replace_char " "%char "_"%char merchant_name))).

(** [build_graph_from_receipt]; [graph_id] is the identifier drawn for the
    graph, [fresh] gives those of the relations, and [date_str] is the
    reading [receipt.date.strftime('%Y-%m-%d')].  [_store_graph] logs and
    returns; the handler of the method logs and raises the exception again. *)
Definition build_graph_from_receipt (env : Env) (graph_id : string) (fresh : nat -> string)
    (date_str : string) (receipt : Receipt.t) : Exc KnowledgeGraph.t :=
  let receipt_id := Receipt.id receipt in
  let graph_name := (date_str ++ "_" ++ merchant_clean (Receipt.merchant_name receipt))%string in
  let graph :=
    KnowledgeGraph.create graph_id graph_name
      (Some ("Knowledge graph for receipt from " ++ Receipt.merchant_name receipt
             ++ " on " ++ date_str)%string)
      [receipt_id] (Some (Receipt.user_id receipt)) in
  let! entities := _extract_entities_from_receipt env receipt in
  let graph := fold_left (fun g e => KnowledgeGraph.add_entity e g) entities graph in
  let relations := _create_relationships fresh entities receipt in
  let graph := fold_left (fun g r => KnowledgeGraph.add_relation r g) relations graph in
  ok graph.

(** ** The analysis of a graph: [analyze_graph] *)

(** [d[k] = v] on a dictionary with string keys: an existing key keeps its
    place, a new one goes to the end. *)
Fixpoint set_key {V} (k : string) (v : V) (d : list (string * V)) : list (string * V) :=
  match d with
  | [] => [(k, v)]
  | (k', v') :: d' => if String.eqb k k' then (k, v) :: d' else (k', v') :: set_key k v d'
  end.

(** [a + b] for a number [a]: an [int] or a [float], by the other operand. *)
Definition py_add (a b : pyval) : Exc pyval :=
  match as_int a, as_int b with
  | Some x, Some y => ok (VInt (x + y))
  | _, _ =>
      match as_number a, as_number b with
      | Some x, Some y => ok (VFloat (x + y))
      | _, _ => raise TypeError
      end
  end.

(** [sum(values)] *)
Definition py_sum (values : list pyval) : Exc pyval :=
  foldM py_add values (VInt 0).

(** The values of [product_counts] and of [merchant_counts]: dictionaries
    with three fixed keys. *)
Module ProductCount.
Record t : Type := Build { name : string; count : Z; total_spent : pyval }.
End ProductCount.

Module MerchantCount.
Record t : Type := Build { name : string; visit_count : Z; total_spent : pyval }.
End MerchantCount.

Module GraphAnalytics.
Record t : Type := Build {
  graph_id : string;
  most_frequent_products : list ProductCount.t;
  most_frequent_merchants : list MerchantCount.t;
  category_distribution : list (string * Z);
  strongest_relations : list pyval;
  relation_type_counts : list (string * Z);
  spending_patterns : pydict;
  purchase_frequency : list (string * Z);
  total_receipts_analyzed : Z
}.
End GraphAnalytics.

(** [sorted(values, key=..., reverse=True)]: descending, and stable, so that
    values of equal key keep their order. *)
Fixpoint insert_desc {A} (key : A -> Z) (x : A) (sorted : list A) : list A :=
  match sorted with
  | [] => [x]
  | y :: sorted' => if key x <=? key y then y :: insert_desc key x sorted' else x :: sorted
  end.

Definition sorted_desc {A} (key : A -> Z) (values : list A) : list A :=
  fold_left (fun sorted x => insert_desc key x sorted) values [].

(** The body of the loop over the products. *)
Definition count_product (product_counts : list (string * ProductCount.t))
    (product : GraphEntity.t) : Exc (list (string * ProductCount.t)) :=
  let name := Str.lower (GraphEntity.name product) in
  let entry :=
    match assoc String.eqb name product_counts with
    | Some entry => entry
    | None => ProductCount.Build (GraphEntity.name product) 0 (VInt 0)
    end in
  let! total_spent :=
    py_add (ProductCount.total_spent entry)
           (Dict.get (GraphEntity.attributes product) "total_price" (VInt 0)) in
  ok (set_key name
        (ProductCount.Build (ProductCount.name entry) (ProductCount.count entry + 1)
                            total_spent)
        product_counts).

(** [[r for r in graph.get_relations_for_entity(entity_id)
      if r.relation_type == relation_type]] *)
Definition relations_of_type (graph : KnowledgeGraph.t) (entity_id relation_type : string)
    : list GraphRelation.t :=
  List.filter (fun r => String.eqb (GraphRelation.relation_type r) relation_type)
              (get_relations_for_entity graph entity_id).

(** The body of the loop over the merchants. *)
Definition count_merchant (graph : KnowledgeGraph.t)
    (merchant_counts : list (string * MerchantCount.t)) (merchant : GraphEntity.t)
    : Exc (list (string * MerchantCount.t)) :=
  let purchase_relations := relations_of_type graph (GraphEntity.id merchant) "purchased_at" in
  let! total_spent :=
    py_sum (map (fun r => Dict.get (GraphRelation.attributes r) "price" (VInt 0))
                purchase_relations) in
  ok (set_key (GraphEntity.name merchant)
        (MerchantCount.Build (GraphEntity.name merchant)
                             (Z.of_nat (length purchase_relations)) total_spent)
        merchant_counts).

(** The body of the loop over the categories. *)
Definition count_category (graph : KnowledgeGraph.t) (category_distribution : list (string * Z))
    (category : GraphEntity.t) : list (string * Z) :=
  let category_relations :=
    relations_of_type graph (GraphEntity.id category) "belongs_to_category" in
  set_key (GraphEntity.name category) (Z.of_nat (length category_relations))
          category_distribution.

(** The body of the loop over the relations. *)
Definition count_relation_type (relation_type_counts : list (string * Z))
    (relation : GraphRelation.t) : list (string * Z) :=
  let rel_type := GraphRelation.relation_type relation in
  set_key rel_type
    (match assoc String.eqb rel_type relation_type_counts with
     | Some n => n
     | None => 0
     end + 1)
    relation_type_counts.

(** The analysis of a loaded graph. *)
Definition analyze (graph_id : string) (graph : KnowledgeGraph.t) : Exc GraphAnalytics.t :=
  let products := get_entities_by_type graph "product" in
  let! product_counts := foldM count_product products [] in
  let most_frequent_products :=
    firstn 10 (sorted_desc ProductCount.count (map snd product_counts)) in
  let merchants := get_entities_by_type graph "merchant" in
  let! merchant_counts := foldM (count_merchant graph) merchants [] in
  let most_frequent_merchants :=
    firstn 10 (sorted_desc MerchantCount.visit_count (map snd merchant_counts)) in
  let categories := get_entities_by_type graph "category" in
  let category_distribution := fold_left (count_category graph) categories [] in
  let relation_type_counts :=
    fold_left count_relation_type (KnowledgeGraph.relations graph) [] in
  ok (GraphAnalytics.Build graph_id most_frequent_products most_frequent_merchants
        category_distribution [] relation_type_counts [] []
        (Z.of_nat (length (KnowledgeGraph.receipt_ids graph)))).

(** [analyze_graph]: a missing document raises [ValueError]; the handler
    logs and raises the exception again. *)
Definition analyze_graph (db : store) (graph_id : string) : Exc GraphAnalytics.t :=
  match assoc String.eqb graph_id db with
  | None => raise ValueError
  | Some graph => analyze graph_id graph
  end.

(** ** Vocabulary of the further statements *)

(** [(relation.source_entity_id, relation.target_entity_id,
    relation.relation_type)] *)
Definition triple_of (r : GraphRelation.t) : relation_key :=
  (GraphRelation.source_entity_id r, GraphRelation.target_entity_id r,
   GraphRelation.relation_type r).

(** The merged entity [e] stands for the source entity [e0]: the same key, a
    confidence at least as high, and every attribute key of [e0]. *)
Definition covers (e e0 : GraphEntity.t) : Prop :=
  key_of e = key_of e0 /\
  (GraphEntity.confidence e0 <= GraphEntity.confidence e)%Q /\
  forall k, Dict.lookup k (GraphEntity.attributes e0) <> None ->
            Dict.lookup k (GraphEntity.attributes e) <> None.

(** The state of the loop over the entities before position [a], against the
    objects [heap0] as they were loaded. *)
Record entities_merged_upto (heap0 : list GraphEntity.t) (a : nat)
    (st : list (entity_key * nat) * list GraphEntity.t) : Prop := MkUpto {
  upto_length : length (snd st) = length heap0;
  upto_nodup : NoDup (map fst (fst st));
  upto_registered :
    Forall (fun kb =>
              (snd kb < a)%nat /\
              exists e0 e,
                heap0 !! snd kb = Some e0 /\ snd st !! snd kb = Some e /\
                key_of e0 = fst kb /\ entity_frame e0 e /\
                forall j ej, (j < snd kb)%nat -> heap0 !! j = Some ej -> key_of ej <> fst kb)
           (fst st);
  upto_covered :
    forall i e0, (i < a)%nat -> heap0 !! i = Some e0 ->
      exists b e, assoc entity_key_eqb (key_of e0) (fst st) = Some b /\
                  snd st !! b = Some e /\ covers e e0;
  upto_untouched : forall j, (a <= j)%nat -> snd st !! j = heap0 !! j
}.

(** The state of the loop over the relations before position [a]: the
    registered triples are distinct, each at a position below [a] whose
    relation has this triple. *)
Definition relations_merged_upto (a : nat)
    (st : list (relation_key * nat) * list GraphRelation.t) : Prop :=
  NoDup (map fst (fst st)) /\
  Forall (fun kb => (snd kb < a)%nat /\
                    exists r, snd st !! snd kb = Some r /\ triple_of r = fst kb)
         (fst st).

Definition weight_capped (r : GraphRelation.t) : Prop := (GraphRelation.weight r <= 1)%Q.

(** An item as the deterministic extractor may return it: a name of 3 to 50
    characters with a letter, a price within [1, 10000] that is not the total
    of the receipt, quantity 1 and a line total equal to the price. *)
Definition extracted_ok (receipt : option Receipt.t) (it : pyval) : Prop :=
  exists item_name price,
    it = extracted_item item_name price /\
    (3 <= Str.len item_name <= 50)%nat /\
    has_alpha item_name = true /\
    price_in_range price = true /\
    is_total receipt price = false.

(** The first loop of the extractor over the lines from index [start] on. *)
Definition scan_from (receipt : option Receipt.t) (start : nat) (lines : list string)
    (st : scan) : scan :=
  fold_left (scan_line receipt) (combine (seq start (length lines)) lines) st.

(** What the first loop collects: items that are in order, names that can be
    items, and prices in range that are not the total. *)
Definition scan_ok (receipt : option Receipt.t) (st : scan) : Prop :=
  Forall (extracted_ok receipt) (items st) /\
  Forall (fun il => (3 <= Str.len (snd il) <= 30)%nat /\ has_alpha (snd il) = true)
         (item_lines st) /\
  Forall (fun pl => price_in_range (snd pl) = true /\ is_total receipt (snd pl) = false)
         (price_lines st).

(** The first loop puts a line into at most one of its three lists, and the
    price lines carry distinct line numbers. *)
Definition scan_counted (bound total : nat) (st : scan) : Prop :=
  (length (items st) + length (item_lines st) + length (price_lines st) <= total)%nat /\
  Forall (fun i => (i < bound)%nat) (map fst (price_lines st)) /\
  NoDup (map fst (price_lines st)).

(** An attempt that raised. *)
Definition failed (generate : nat -> Exc string) (attempt : nat) : Prop :=
  exists e, generate attempt = raise e.

(** The requests up to attempt [k], with the pause after each one but the
    last. *)
Definition schedule (k : nat) : list event :=
  flat_map (fun j => [Generate j; Sleep (2 ^ Z.of_nat j)]) (seq 0 k) ++ [Generate k].

(** The entities that a sequence of operations adds, in order. *)
Definition added_entities (ops : list KnowledgeGraph.op) : list GraphEntity.t :=
  flat_map (fun o => match o with
                     | KnowledgeGraph.AddEntity e => [e]
                     | KnowledgeGraph.AddRelation _ => []
                     end) ops.

Definition added_relations (ops : list KnowledgeGraph.op) : list GraphRelation.t :=
  flat_map (fun o => match o with
                     | KnowledgeGraph.AddEntity _ => []
                     | KnowledgeGraph.AddRelation r => [r]
                     end) ops.

(** What a relation of [_create_relationships] is: one of five kinds, from
    an entity of the list to an entity of the list, with the receipt's id. *)
Definition relation_kind (s t : GraphEntity.t) (r : GraphRelation.t) : Prop :=
  (GraphRelation.relation_type r = "purchased_at" /\
   GraphEntity.type s = "product" /\ GraphEntity.type t = "merchant" /\
   GraphRelation.weight r = 1%Q) \/
  (GraphRelation.relation_type r = "belongs_to_category" /\
   GraphEntity.type s = "product" /\ GraphEntity.type t = "category" /\
   GraphEntity.name t = category_or_other s /\
   GraphRelation.weight r = GraphEntity.confidence s) \/
  (GraphRelation.relation_type r = "manufactured_by" /\
   GraphEntity.type s = "product" /\ GraphEntity.type t = "brand" /\
   brand_of s t = true /\
   GraphRelation.weight r = (9 # 10)%Q) \/
  (GraphRelation.relation_type r = "located_at" /\
   GraphEntity.type s = "merchant" /\ GraphEntity.type t = "location" /\
   GraphRelation.weight r = 1%Q) \/
  (GraphRelation.relation_type r = "paid_with" /\
   GraphEntity.type s = "merchant" /\ GraphEntity.type t = "payment_method" /\
   GraphRelation.weight r = 1%Q).

Definition relation_ok (entities : list GraphEntity.t) (receipt : Receipt.t)
    (r : GraphRelation.t) : Prop :=
  GraphRelation.receipt_id r = Some (Receipt.id receipt) /\
  exists s t,
    In s entities /\ In t entities /\
    GraphRelation.source_entity_id r = GraphEntity.id s /\
    GraphRelation.target_entity_id r = GraphEntity.id t /\
    relation_kind s t r.

(** Some relation of [relations] goes from [s] to [t] with the given type. *)
Definition links (relations : list GraphRelation.t) (s t : GraphEntity.t)
    (relation_type : string) : Prop :=
  exists r,
    In r relations /\
    GraphRelation.source_entity_id r = GraphEntity.id s /\
    GraphRelation.target_entity_id r = GraphEntity.id t /\
    GraphRelation.relation_type r = relation_type.

(** The identifiers of the relations are the ones drawn, in order. *)
Definition ids_in_order (fresh : nat -> string) (relations : list GraphRelation.t) : Prop :=
  map GraphRelation.id relations = map fresh (seq 0 (length relations)).

(** The invariant of the loops of [_create_relationships]. *)
Definition relations_ok (fresh : nat -> string) (entities : list GraphEntity.t)
    (receipt : Receipt.t) (relations : list GraphRelation.t) : Prop :=
  Forall (relation_ok entities receipt) relations /\ ids_in_order fresh relations.

(** How many relations of a list have a given type. *)
Definition occurrences (relation_type : string) (relations : list GraphRelation.t) : nat :=
  length (List.filter (fun r => String.eqb (GraphRelation.relation_type r) relation_type)
                      relations).

Definition sum_counts (d : list (string * Z)) : Z := fold_right Z.add 0 (map snd d).

(** The last entity of a list that has a given name. *)
Definition last_named (n : string) (entities : list GraphEntity.t) : option GraphEntity.t :=
  List.find (fun e => String.eqb (GraphEntity.name e) n) (rev entities).

(** The products of a list whose lowercased name is [n]. *)
Definition same_product (n : string) (products : list GraphEntity.t) : list GraphEntity.t :=
  List.filter (fun p => String.eqb (Str.lower (GraphEntity.name p)) n) products.

(** Descending by a key. *)
Definition desc {A} (key : A -> Z) (x y : A) : Prop := key y <= key x.

(** An entry of [most_frequent_products]: it has the name of the first
    product of its lowercased name, and counts the products of that name. *)
Definition product_entry (products : list GraphEntity.t) (e : ProductCount.t) : Prop :=
  exists p ps,
    same_product (Str.lower (ProductCount.name e)) products = p :: ps /\
    ProductCount.name e = GraphEntity.name p /\
    ProductCount.count e = Z.of_nat (S (length ps)).

(** An entry of [most_frequent_merchants]: it counts the purchases at the
    last merchant entity of its name. *)
Definition merchant_entry (graph : KnowledgeGraph.t) (m : MerchantCount.t) : Prop :=
  exists merchant,
    last_named (MerchantCount.name m) (get_entities_by_type graph "merchant") = Some merchant /\
    MerchantCount.visit_count m =
    Z.of_nat (length (relations_of_type graph (GraphEntity.id merchant) "purchased_at")).

(** A value that [+] accepts next to a number. *)
Definition is_number (v : pyval) : bool :=
  match as_number v with
  | Some _ => true
  | None => false
  end.

(** The amounts that the analysis adds up are numbers. *)
Definition amounts_ok (graph : KnowledgeGraph.t) : Prop :=
  Forall (fun p => is_number (Dict.get (GraphEntity.attributes p) "total_price" (VInt 0)) = true)
         (get_entities_by_type graph "product") /\
  Forall (fun m =>
            Forall (fun r => is_number (Dict.get (GraphRelation.attributes r) "price" (VInt 0))
                             = true)
                   (relations_of_type graph (GraphEntity.id m) "purchased_at"))
         (get_entities_by_type graph "merchant").

(** The invariants of the loops over the products and over the merchants. *)
Definition products_counted (product_counts : list (string * ProductCount.t))
    (seen : list GraphEntity.t) : Prop :=
  NoDup (map fst product_counts) /\
  forall n,
    match assoc String.eqb n product_counts with
    | None => same_product n seen = []
    | Some e =>
        is_number (ProductCount.total_spent e) = true /\
        exists p ps,
          same_product n seen = p :: ps /\
          ProductCount.name e = GraphEntity.name p /\
          ProductCount.count e = Z.of_nat (S (length ps))
    end.

Definition merchants_counted (graph : KnowledgeGraph.t)
    (merchant_counts : list (string * MerchantCount.t)) (seen : list GraphEntity.t) : Prop :=
  NoDup (map fst merchant_counts) /\
  forall n,
    match assoc String.eqb n merchant_counts with
    | None => last_named n seen = None
    | Some m =>
        MerchantCount.name m = n /\
        exists merchant,
          last_named n seen = Some merchant /\
          MerchantCount.visit_count m =
          Z.of_nat (length (relations_of_type graph (GraphEntity.id merchant) "purchased_at"))
    end.

(** The graph built from the receipt of the scenario, stored. *)
Definition built_store : store :=
  match build_graph_from_receipt offline_env "graph-1"
          (fun k => ("rel-" ++ pretty.pretty k)%string) "2025-07-22" scenario_receipt with
  | inr g => [("graph-1", g)]
  | inl _ => []
  end.

(** A rule of the shelf-life table that does not apply to a name. *)
Definition rule_skipped (product_lower : string) (kv : string * Z) : Prop :=
  fst kv = "default" \/ Str.contains (fst kv) product_lower = false.

(** A dictionary among the values. *)
Definition is_dict (v : pyval) : bool :=
  match v with
  | VDict _ => true
  | _ => false
  end.

(** The record that [_parse_classification_response] makes of a
    classification [c] of the response. *)
Definition compat_of (c r : pyval) : Prop :=
  exists d,
    c = VDict d /\
    r = VDict [("category", Dict.get d "category" (VStr "food"));
               ("confidence", Dict.get d "confidence" (VFloat (6 # 10)));
               ("brand", Dict.get d "brand" VNone);
               ("enhanced_data", c)].

(** A world in which the classification request is answered by two
    classifications, the second of them [null]. *)
Definition null_env : Env :=
  MkEnv (fun _ => Some (VDict [("item_classifications",
                                VList [VDict [("category", VStr "dairy")]; VNone])]))
        (fun _ => raise TransportError)
        (fun _ => ok "{}")
        (Date.Build 2025 7 22)
        (fun k => ("uuid-" ++ pretty.pretty k)%string)
        (fun _ => "<repr>")
        strict_str strict_float.

(** An item of the receipt as it is, or a decoded value. *)
Definition is_val (it : item) : Prop :=
  match it with
  | ItemVal _ => True
  | ItemObj _ => False
  end.

(** Both endpoints of a relation are names of entities of a list. *)
Definition endpoints_named (entities : list GraphEntity.t) (r : GraphRelation.t) : bool :=
  existsb (fun e => String.eqb (GraphEntity.name e) (GraphRelation.source_entity_id r)) entities
  && existsb (fun e => String.eqb (GraphEntity.name e) (GraphRelation.target_entity_id r))
             entities.

(** The identifiers of the entities are the ones drawn, in order. *)
Definition entity_ids_in_order (env : Env) (entities : list GraphEntity.t) : Prop :=
  map GraphEntity.id entities = map (uuid4 env) (seq 0 (length entities)).

(** A relation whose endpoints the graph resolves, to entities of the types
    of its kind. *)
Definition resolves (g : KnowledgeGraph.t) (r : GraphRelation.t) : Prop :=
  exists s t,
    get_entity_by_id g (GraphRelation.source_entity_id r) = Some s /\
    get_entity_by_id g (GraphRelation.target_entity_id r) = Some t /\
    relation_kind s t r.

(** A [ReceiptItem] object. *)
Definition is_obj (it : item) : Prop :=
  match it with
  | ItemObj _ => True
  | ItemVal _ => False
  end.

(** An item that the agent made itself: an object of the receipt, or an item
    of the deterministic extractor. *)
Definition plain_item (it : item) : Prop :=
  match it with
  | ItemObj _ => True
  | ItemVal v => exists item_name price, v = extracted_item item_name price
  end.

(** * Properties *)

(** ** Graph counters *)

Lemma create_counters_ok fresh_id name description receipt_ids user_id :
  KnowledgeGraph.counters_ok
    (KnowledgeGraph.create fresh_id name description receipt_ids user_id).
Proof. split; reflexivity. Qed.

Lemma add_entity_entities e g :
  KnowledgeGraph.entities (KnowledgeGraph.add_entity e g) = KnowledgeGraph.entities g ++ [e].
Proof. reflexivity. Qed.

Lemma add_relation_relations r g :
  KnowledgeGraph.relations (KnowledgeGraph.add_relation r g)
  = KnowledgeGraph.relations g ++ [r].
Proof. reflexivity. Qed.

Lemma apply_counters_ok g o :
  KnowledgeGraph.counters_ok g -> KnowledgeGraph.counters_ok (KnowledgeGraph.apply g o).
Proof.
  intros [He Hr]. destruct o as [e | r]; split; cbn; auto.
Qed.

(** C6. Starting from a graph whose counters agree with its lists, as every
    newly created graph does, any sequence of [add_entity] and [add_relation]
    leaves [total_entities] equal to the length of [entities] and
    [total_relations] equal to the length of [relations]. *)
Theorem graph_counters_after_ops (g : KnowledgeGraph.t) (ops : list KnowledgeGraph.op) :
  KnowledgeGraph.counters_ok g ->
  KnowledgeGraph.counters_ok (KnowledgeGraph.run ops g).
Proof.
  revert g. induction ops as [| o ops IH]; intros g Hg.
  - exact Hg.
  - cbn. apply IH. now apply apply_counters_ok.
Qed.

Lemma graph_counters_after_ops_witness :
  KnowledgeGraph.counters_ok
    (KnowledgeGraph.run
       [KnowledgeGraph.AddEntity
          (GraphEntity.Build "e-1" "Big Mart" "merchant" None [] 1);
        KnowledgeGraph.AddRelation
          (GraphRelation.Build "r-1" "e-1" "e-1" "located_at" 1 [] None);
        KnowledgeGraph.AddEntity
          (GraphEntity.Build "e-2" "Milk" "product" (Some "grocery") [] (7 # 10))]
       (KnowledgeGraph.create "g-1" "2025-07-22_Big_Mart" None ["rcp"] (Some "u"))).
Proof.
  apply graph_counters_after_ops. split; reflexivity.
Defined.

(** ** The error monad and the traversals *)

Lemma ebind_ok {A B} (m : Exc A) (f : A -> Exc B) (b : B) :
  ebind m f = ok b -> exists a, m = ok a /\ f a = ok b.
Proof.
  destruct m as [e | a]; cbn; intros H; [discriminate | eauto].
Qed.

Lemma mapM_length {A B} (f : A -> Exc B) (l : list A) (l' : list B) :
  mapM f l = ok l' -> length l' = length l.
Proof.
  revert l'. induction l as [| a l IH]; cbn; intros l' H.
  - inversion H. reflexivity.
  - apply ebind_ok in H as (b & _ & H). apply ebind_ok in H as (bs & Hbs & H).
    inversion H. cbn. f_equal. now apply IH.
Qed.

Lemma mapM_Forall2 {A B} (f : A -> Exc B) (l : list A) (l' : list B) :
  mapM f l = ok l' -> Forall2 (fun a b => f a = ok b) l l'.
Proof.
  revert l'. induction l as [| a l IH]; cbn; intros l' H.
  - inversion H. constructor.
  - apply ebind_ok in H as (b & Hb & H). apply ebind_ok in H as (bs & Hbs & H).
    inversion H. constructor; auto.
Qed.

Lemma mapM_total {A B} (f : A -> Exc B) (l : list A) :
  Forall (fun a => exists b, f a = ok b) l -> exists l', mapM f l = ok l'.
Proof.
  induction 1 as [| a l [b Hb] _ [l' Hl']]; cbn.
  - eauto.
  - rewrite Hb, Hl'. cbn. eauto.
Qed.

(** ** The keyword classifier *)

Lemma first_rule_bound rules s d bound :
  Forall (fun kv => snd kv <= bound) rules -> d <= bound ->
  first_rule rules s d <= bound.
Proof.
  induction 1 as [| [k n] rules Hn _ IH]; cbn; intros Hd; auto.
  destruct (_ && _); auto.
Qed.

Lemma rule_days_bound s : rule_days s <= 730.
Proof.
  unfold rule_days. apply first_rule_bound.
  - repeat constructor; cbn; lia.
  - cbn. lia.
Qed.

Lemma to_days_monotone_bound env n :
  clock_ok env -> n <= 730 -> Date.to_days (today env) + n <= Date.max_days.
Proof. unfold clock_ok. lia. Qed.

Lemma predict_expiry_ok env product_name :
  Date.to_days (today env) + rule_days (Str.lower product_name) <= Date.max_days ->
  _predict_expiry_date env product_name
  = ok (Date.isoformat
          (Date.of_days (Date.to_days (today env) + rule_days (Str.lower product_name)))).
Proof.
  intros H. unfold _predict_expiry_date, Date.add_days.
  destruct (Z.leb_spec (Date.to_days (today env) + rule_days (Str.lower product_name))
                       Date.max_days); [reflexivity | lia].
Qed.

Lemma keyword_category_expiry item_name category is_food has_expiry :
  keyword_category item_name = (category, is_food, has_expiry) ->
  has_expiry = true <-> category = "grocery" \/ category = "pharmacy".
Proof.
  unfold keyword_category.
  repeat match goal with |- context [if ?b then _ else _] => destruct b end;
    intros H; inversion H; subst; split; intros H'; auto;
    try discriminate; destruct H'; discriminate.
Qed.

Lemma fallback_name_price_ok it :
  item_ok it -> exists item_name price, fallback_name_price it = ok (item_name, price).
Proof.
  destruct it as [r | v]; cbn.
  - eauto.
  - destruct v; try contradiction. intros [s Hs]. cbn. rewrite Hs. cbn. eauto.
Qed.

(** What the keyword classifier returns for an item whose name and price it
    could read. *)
Lemma classify_one_eq env it item_name price :
  fallback_name_price it = ok (item_name, price) ->
  classify_one env it =
  let '(category, is_food, has_expiry) := keyword_category item_name in
  let! predicted_expiry :=
    (if has_expiry
     then let! d := _predict_expiry_date env item_name in ok (VStr d)
     else ok VNone) in
  ok (fallback_record category is_food has_expiry predicted_expiry price).
Proof.
  intros H. unfold classify_one. rewrite H. reflexivity.
Qed.

Lemma classify_one_total env it :
  item_ok it -> clock_ok env -> exists c, classify_one env it = ok c.
Proof.
  intros Hit Hclock. destruct (fallback_name_price_ok it Hit) as (nm & price & Hnp).
  rewrite (classify_one_eq _ _ _ _ Hnp).
  destruct (keyword_category nm) as [[category is_food] has_expiry].
  destruct has_expiry; cbn; [| eauto].
  rewrite predict_expiry_ok
    by (apply to_days_monotone_bound; auto using rule_days_bound).
  cbn. eauto.
Qed.

Lemma classify_one_record env it c :
  classify_one env it = ok c ->
  exists category is_food has_expiry predicted_expiry price,
    c = fallback_record category is_food has_expiry predicted_expiry price /\
    (has_expiry = true <-> category = "grocery" \/ category = "pharmacy").
Proof.
  unfold classify_one. intros H.
  apply ebind_ok in H as ([nm price] & _ & H).
  destruct (keyword_category nm) as [[category is_food] has_expiry] eqn:Hk.
  apply ebind_ok in H as (pe & _ & H). inversion H.
  exists category, is_food, has_expiry, pe, price. split; [reflexivity |].
  eapply keyword_category_expiry; eauto.
Qed.

Lemma fallback_record_paths category is_food has_expiry predicted_expiry price :
  let c := fallback_record category is_food has_expiry predicted_expiry price in
  path c ["category"] = Some (VStr category) /\
  path c ["confidence"] = Some (VFloat (7 # 10)) /\
  path c ["enhanced_data"; "expiry_info"; "has_expiry"] = Some (VBool has_expiry) /\
  path c ["enhanced_data"; "expiry_info"; "expiry_date"] = Some predicted_expiry /\
  path c ["enhanced_data"; "expiry_info"; "is_expiring_soon"] = Some (VBool has_expiry).
Proof. repeat split. Qed.

(** C9. The keyword classifier puts the single item named "Whole Milk" in
    category "grocery" with [has_expiry] true and predicts as expiry date the
    date of the clock plus 3 days: "milk" is the first key of the shelf-life
    table that occurs in the name. *)
Theorem whole_milk_fallback (env : Env) :
  Date.to_days (today env) + 3 <= Date.max_days ->
  exists c,
    _create_fallback_classifications env [ItemVal (VDict [("name", VStr "Whole Milk")])]
    = ok [c] /\
    path c ["category"] = Some (VStr "grocery") /\
    path c ["enhanced_data"; "expiry_info"; "has_expiry"] = Some (VBool true) /\
    path c ["enhanced_data"; "expiry_info"; "expiry_date"]
    = Some (VStr (Date.isoformat (Date.of_days (Date.to_days (today env) + 3)))) /\
    first_rule expiry_rules "whole milk" 30 = snd (hd (EmptyString, 0) expiry_rules).
Proof.
  intros Hclock.
  exists (fallback_record "grocery" true true
            (VStr (Date.isoformat (Date.of_days (Date.to_days (today env) + 3))))
            (VFloat 0)).
  split; [| repeat split].
  unfold _create_fallback_classifications. cbn [mapM].
  rewrite (classify_one_eq env _ "whole milk" (VFloat 0)) by reflexivity.
  change (keyword_category "whole milk") with ("grocery", true, true).
  cbv beta iota.
  rewrite predict_expiry_ok.
  - reflexivity.
  - change (rule_days (Str.lower "whole milk")) with 3. exact Hclock.
Qed.

(** The arithmetic of dates agrees with the calendar on every day from
    2020-01-01 to 2040-12-31: the day numbers count the days one by one. *)
Lemma date_arithmetic_is_the_calendar :
  Date.to_days (Date.Build 2020 1 1) = 18262 /\
  Date.to_days (Date.Build 2040 12 31) = 18262 + 7670 /\
  Date.counts_days (Z.to_nat 7671) 18262 = true.
Proof.
  split; [vm_compute; reflexivity |]. split; vm_compute; reflexivity.
Qed.

Example add_days_examples :
  Date.add_days (Date.Build 2024 2 28) 3 = ok (Date.Build 2024 3 2) /\
  Date.add_days (Date.Build 2025 2 27) 3 = ok (Date.Build 2025 3 2) /\
  Date.add_days (Date.Build 2025 12 30) 3 = ok (Date.Build 2026 1 2) /\
  Date.add_days (Date.Build 9999 12 30) 3 = raise OverflowError /\
  Date.isoformat (Date.Build 2025 7 5) = "2025-07-05".
Proof. repeat split. Qed.

Lemma whole_milk_fallback_witness :
  exists c,
    _create_fallback_classifications offline_env
      [ItemVal (VDict [("name", VStr "Whole Milk")])] = ok [c] /\
    path c ["category"] = Some (VStr "grocery") /\
    path c ["enhanced_data"; "expiry_info"; "has_expiry"] = Some (VBool true) /\
    path c ["enhanced_data"; "expiry_info"; "expiry_date"]
    = Some (VStr (Date.isoformat
                    (Date.of_days (Date.to_days (today offline_env) + 3)))) /\
    first_rule expiry_rules "whole milk" 30 = snd (hd (EmptyString, 0) expiry_rules).
Proof.
  apply (whole_milk_fallback offline_env). vm_compute. discriminate.
Defined.

(** On 2025-07-22 the predicted date is 2025-07-25. *)
Example whole_milk_on_a_day :
  option_map (fun c => path c ["enhanced_data"; "expiry_info"; "expiry_date"])
    (match _create_fallback_classifications offline_env
             [ItemVal (VDict [("name", VStr "Whole Milk")])] with
     | inr [c] => Some c
     | _ => None
     end)
  = Some (Some (VStr "2025-07-25")).
Proof. vm_compute. reflexivity. Qed.

(** C10. In every record of the keyword classifier [is_expiring_soon] is the
    value of [has_expiry], which is true exactly for the categories "grocery"
    (the food keywords) and "pharmacy": the flag does not look at the
    predicted date. *)
Theorem expiring_soon_is_has_expiry (env : Env) (items : list item) (cs : list pyval) :
  _create_fallback_classifications env items = ok cs ->
  Forall (fun c =>
            exists b category,
              path c ["enhanced_data"; "expiry_info"; "is_expiring_soon"] = Some (VBool b) /\
              path c ["enhanced_data"; "expiry_info"; "has_expiry"] = Some (VBool b) /\
              path c ["category"] = Some (VStr category) /\
              (b = true <-> category = "grocery" \/ category = "pharmacy")) cs.
Proof.
  intros H. apply mapM_Forall2 in H.
  induction H as [| it c items cs Hc _ IH]; constructor; auto.
  apply classify_one_record in Hc
    as (category & is_food & has_expiry & pe & price & -> & Hiff).
  exists has_expiry, category. repeat split; apply Hiff.
Qed.

(** Rice keeps for 365 days and is flagged all the same; a cable has no
    expiry and is not flagged. *)
Lemma expiring_soon_is_has_expiry_witness :
  Forall (fun c =>
            exists b category,
              path c ["enhanced_data"; "expiry_info"; "is_expiring_soon"] = Some (VBool b) /\
              path c ["enhanced_data"; "expiry_info"; "has_expiry"] = Some (VBool b) /\
              path c ["category"] = Some (VStr category) /\
              (b = true <-> category = "grocery" \/ category = "pharmacy"))
    [fallback_record "grocery" true true (VStr "2026-07-22") (VFloat 120);
     fallback_record "electronics" false false VNone (VFloat 0)].
Proof.
  apply (expiring_soon_is_has_expiry offline_env
           [ItemVal (VDict [("name", VStr "Basmati Rice 1kg"); ("price", VFloat 120)]);
            ItemVal (VDict [("name", VStr "USB Cable")])]).
  vm_compute. reflexivity.
Defined.

(** ** Classification returns one record per item *)

Lemma chars_of_chars l : Str.chars (Str.of_chars l) = l.
Proof. apply list_ascii_of_string_of_list_ascii. Qed.

Lemma len_chars s : Str.len s = length (Str.chars s).
Proof.
  unfold Str.len, Str.chars. induction s as [| c s IH]; cbn; [reflexivity | now f_equal].
Qed.

Lemma py_len_iter v n :
  py_len v = ok n -> exists l, py_iter v = ok l /\ length l = n.
Proof.
  destruct v; cbn; intros H; inversion H; subst; eexists; split; try reflexivity.
  - now rewrite length_map, len_chars.
  - now rewrite length_map.
Qed.





(** The response decodes to an object whose [item_classifications] is the
    list [l]: the result is built, record by record, from [l] cut to the
    expected count, or filled up to it with the padding record. *)
Lemma parse_pads_or_truncates env response expected_count analysis l :
  json_loads env (strip_fences response) = Some (VDict analysis) ->
  Dict.lookup "item_classifications" analysis = Some (VList l) ->
  _parse_classification_response env response expected_count =
  match mapM compat_record
          (firstn expected_count (l ++ repeat padding_record (expected_count - length l)))
  with
  | inr classifications => classifications
  | inl _ => _fallback_classification expected_count
  end.
Proof.
  intros Hloads Hics. unfold _parse_classification_response, loads.
  rewrite Hloads. cbn [ebind py_get ok]. unfold Dict.get. rewrite Hics.
  cbn [ebind py_len ok]. unfold fix_count.
  destruct (Nat.eqb_spec (length l) expected_count) as [<- | Hne]; cbn [ebind py_iter ok].
  - rewrite Nat.sub_diag. cbn [repeat]. rewrite app_nil_r, firstn_all.
    destruct (mapM compat_record l) as [[] |]; reflexivity.
  - destruct (mapM compat_record _) as [[] |]; reflexivity.
Qed.

Lemma create_fallback_total env items :
  Forall item_ok items -> clock_ok env ->
  exists cs, _create_fallback_classifications env items = ok cs /\
             length cs = length items.
Proof.
  intros Hitems Hclock. unfold _create_fallback_classifications.
  destruct (mapM_total (classify_one env) items) as [cs Hcs].
  - eapply Forall_impl; [exact Hitems |]. intros it Hit. now apply classify_one_total.
  - exists cs. split; [exact Hcs | now apply mapM_length in Hcs].
Qed.






(** ** The deterministic item extractor on the scenario *)

(** The line of the total holds a skip word and is dropped before any price
    is read from it, whatever the receipt. *)
Lemma total_line_skipped receipt : classify_line receipt "TOTAL  97.00" = Skipped.
Proof. reflexivity. Qed.

(** C7, as the code has it. On the scenario text with a total of 97.00 the
    deterministic extractor returns exactly the two items MILK 1L at 55.0 and
    BREAD at 42.0, in this order, each with quantity 1 and a total price equal
    to its price; the line of the total is dropped because it holds the skip
    word "total". *)
Theorem fallback_extraction_scenario (receipt : Receipt.t) :
  Receipt.total_amount receipt = 97%Q ->
  _fallback_regex_extraction scenario_text (Some receipt)
  = [VDict [("name", VStr "MILK 1L"); ("price", VFloat 55);
            ("quantity", VInt 1); ("total_price", VFloat 55)];
     VDict [("name", VStr "BREAD"); ("price", VFloat 42);
            ("quantity", VInt 1); ("total_price", VFloat 42)]] /\
  nth 3 (Str.split_lines scenario_text) EmptyString = "TOTAL  97.00" /\
  Str.contains "total" (Str.lower "TOTAL  97.00") = true /\
  (forall hint, classify_line hint "TOTAL  97.00" = Skipped).
Proof.
  intros H. destruct receipt. cbn in H. subst.
  split; [vm_compute; reflexivity | repeat split].
Qed.

Lemma fallback_extraction_scenario_witness :
  _fallback_regex_extraction scenario_text (Some scenario_receipt)
  = [VDict [("name", VStr "MILK 1L"); ("price", VFloat 55);
            ("quantity", VInt 1); ("total_price", VFloat 55)];
     VDict [("name", VStr "BREAD"); ("price", VFloat 42);
            ("quantity", VInt 1); ("total_price", VFloat 42)]] /\
  nth 3 (Str.split_lines scenario_text) EmptyString = "TOTAL  97.00" /\
  Str.contains "total" (Str.lower "TOTAL  97.00") = true /\
  (forall hint, classify_line hint "TOTAL  97.00" = Skipped).
Proof.
  apply (fallback_extraction_scenario scenario_receipt). reflexivity.
Defined.

(** Against C7 as stated: the line of the total is dropped, and the same two
    items are returned, when no total is known at all; the price 97.00 is
    never compared with the total. *)
Lemma total_line_dropped_without_hint :
  _fallback_regex_extraction scenario_text None = scenario_items /\
  classify_line None "TOTAL  97.00" = Skipped /\
  price_only None price_patterns "97.00" = Some 97%Q.
Proof. vm_compute. repeat split. Qed.

(** ** Item extraction when the response does not parse *)

(** C2, as the code has it. When the response to the extraction request is
    received and the decoder rejects its cleaned text, [_extract_items_from_text]
    returns the empty list: the failure goes to the handler of
    [json.JSONDecodeError], which does not call the fallback; nothing is
    raised to the caller. *)
Theorem parse_failure_returns_empty (env : Env) (raw_text : string)
    (receipt : option Receipt.t) (response : string) :
  ask_items env raw_text = ok response ->
  json_loads env (_clean_gemini_response response) = None ->
  _extract_items_from_text env raw_text receipt = ok (VList []).
Proof.
  intros Hask Hloads. unfold _extract_items_from_text, extract_items_body, loads.
  rewrite Hask. cbn [ebind ok]. rewrite Hloads.
  destruct (String.eqb _ _); reflexivity.
Qed.

Lemma parse_failure_returns_empty_witness :
  _extract_items_from_text prose_env scenario_text (Some scenario_receipt) = ok (VList []).
Proof.
  apply (parse_failure_returns_empty prose_env scenario_text (Some scenario_receipt)
           "Sorry, I could not find any items on this receipt."); reflexivity.
Defined.

(** The fallback runs when the call itself fails. *)
Lemma call_failure_runs_fallback env raw_text receipt e :
  ask_items env raw_text = inl e -> e <> JSONDecodeError ->
  _extract_items_from_text env raw_text receipt
  = ok (VList (_fallback_regex_extraction raw_text receipt)).
Proof.
  intros Hask He. unfold _extract_items_from_text, extract_items_body.
  rewrite Hask. cbn. destruct e; congruence.
Qed.

(** When the call itself raises [json.JSONDecodeError], the handler of that
    exception reads the unassigned [response]. *)
Lemma call_decode_error_is_unbound env raw_text receipt :
  ask_items env raw_text = raise JSONDecodeError ->
  _extract_items_from_text env raw_text receipt = raise UnboundLocalError.
Proof.
  intros Hask. unfold _extract_items_from_text, extract_items_body.
  rewrite Hask. reflexivity.
Qed.

(** Against C2 as stated: the service answers in prose, the decoder rejects
    it, and the result is the empty list although the fallback finds two
    items in the text. *)
Lemma parse_failure_skips_fallback :
  ask_items prose_env scenario_text
  = ok "Sorry, I could not find any items on this receipt." /\
  json_loads prose_env
    (_clean_gemini_response "Sorry, I could not find any items on this receipt.") = None /\
  _extract_items_from_text prose_env scenario_text (Some scenario_receipt) = ok (VList []) /\
  _fallback_regex_extraction scenario_text (Some scenario_receipt) = scenario_items /\
  _extract_items_from_text prose_env scenario_text (Some scenario_receipt)
  <> ok (VList (_fallback_regex_extraction scenario_text (Some scenario_receipt))).
Proof.
  repeat split; try (vm_compute; reflexivity). vm_compute. discriminate.
Qed.

(** ** The entities of a receipt and their confidence *)

Ltac bind_inv H x Hx :=
  cbv beta zeta in H; apply ebind_ok in H as (x & Hx & H); cbv beta zeta in H.

(** What one pair of an item and its classification adds: a product entity,
    whose confidence is the validated confidence of the classification, then
    entities of confidence 1.0: a category entity, and with a brand also two
    brand entities, before and after it. *)
Lemma item_entities_shape env entities it c out :
  item_entities env entities (it, c) = ok out ->
  exists product rest confidence_v brand_v,
    out = entities ++ product :: rest /\
    GraphEntity.type product = "product" /\
    py_get c "confidence" (VFloat (8 # 10)) = ok confidence_v /\
    valid_float env confidence_v = ok (GraphEntity.confidence product) /\
    py_get c "brand" VNone = ok brand_v /\
    map GraphEntity.type rest
    = (if truthy brand_v then ["brand"; "category"; "brand"] else ["category"]) /\
    Forall (fun e => GraphEntity.confidence e = 1%Q) rest.
Proof.
  intros H. unfold item_entities in H.
  bind_inv H attributes Hattributes.
  bind_inv H name Hname.
  bind_inv H category_v Hcategory_v.
  bind_inv H category Hcategory.
  bind_inv H confidence_v Hconfidence_v.
  bind_inv H confidence Hconfidence.
  bind_inv H brand_name Hbrand_name.
  bind_inv H entities2 Hentities2.
  bind_inv H category_name_v Hcategory_name_v.
  bind_inv H category_name Hcategory_name.
  bind_inv H brand Hbrand.
  rewrite Hbrand_name in Hbrand. injection Hbrand as <-.
  exists (GraphEntity.Build (uuid4 env (length entities)) name "product" category
            attributes confidence).
  destruct (truthy brand_name) eqn:Htruthy.
  - bind_inv Hentities2 b1 Hb1. injection Hentities2 as <-.
    bind_inv H b2 Hb2. bind_inv H product Hproduct. injection H as <-.
    eexists _, confidence_v, brand_name. rewrite Htruthy.
    split; [rewrite <- !app_assoc; cbn [app]; reflexivity |].
    repeat split; auto; repeat constructor.
  - injection Hentities2 as <-. injection H as <-.
    eexists _, confidence_v, brand_name. rewrite Htruthy.
    split; [rewrite <- !app_assoc; cbn [app]; reflexivity |].
    repeat split; auto; repeat constructor.
Qed.

Lemma foldM_invariant {A B} (f : A -> B -> Exc A) (P : A -> Prop) (Q : B -> Prop)
    (l : list B) (a0 a : A) :
  (forall x b x', P x -> Q b -> f x b = ok x' -> P x') ->
  P a0 -> Forall Q l -> foldM f l a0 = ok a -> P a.
Proof.
  intros Hstep. revert a0. induction l as [| b l IH]; cbn; intros a0 Ha0 Hl H.
  - injection H as <-. exact Ha0.
  - apply ebind_ok in H as (a1 & Ha1 & H).
    apply Forall_cons in Hl as [Hb Hl].
    apply (IH a1); [| exact Hl | exact H].
    eapply Hstep; [exact Ha0 | exact Hb | exact Ha1].
Qed.

Lemma Forall_combine_snd {A B} (Q : B -> Prop) (l : list A) (l' : list B) :
  Forall Q l' -> Forall (fun p => Q (snd p)) (combine l l').
Proof.
  intros H. revert l. induction H as [| b l' Hb _ IH]; intros [| a l]; cbn;
    constructor; auto.
Qed.

Lemma header_entities_plain env receipt :
  Forall (fun e => GraphEntity.type e <> "product" /\ GraphEntity.confidence e = 1%Q)
         (header_entities env receipt).
Proof.
  unfold header_entities.
  destruct (Receipt.merchant_address receipt) as [address |];
    destruct (Receipt.payment_method receipt) as [method |];
    repeat match goal with |- context [if ?b then _ else _] => destruct b end;
    cbn; repeat constructor; cbn; discriminate.
Qed.

(** What [_extract_entities_from_receipt] returns: the header entities alone
    when there is no item, else the header entities extended pair by pair. *)
Lemma extract_entities_inv env receipt ents :
  _extract_entities_from_receipt env receipt = ok ents ->
  exists its,
    items_to_process env receipt = ok its /\
    ((its = [] /\ ents = header_entities env receipt) \/
     (its <> [] /\
      exists cs, _classify_items_with_gemini env its = ok cs /\
                 foldM (item_entities env) (combine its cs) (header_entities env receipt)
                 = ok ents)).
Proof.
  unfold _extract_entities_from_receipt. intros H.
  bind_inv H its Hits. exists its. split; [exact Hits |].
  destruct its as [| it its].
  - injection H as <-. now left.
  - bind_inv H cs Hcs. right. split; [discriminate | eauto].
Qed.

Lemma unit_interval_one : unit_interval 1.
Proof. split; unfold Qle; cbn; lia. Qed.

(** The records of both fallbacks carry a confidence inside [0, 1]. *)
Lemma fallback_confidence env its cs :
  _create_fallback_classifications env its = ok cs \/
  cs = _fallback_classification (length its) ->
  Forall (fun c => exists q, py_get c "confidence" (VFloat (8 # 10)) = ok (VFloat q) /\
                             unit_interval q) cs.
Proof.
  intros [H | ->].
  - apply mapM_Forall2 in H.
    induction H as [| it c its cs Hc _ IH]; constructor; auto.
    apply classify_one_record in Hc as (category & is_food & has_expiry & pe & price & -> & _).
    exists (7 # 10)%Q. split; [reflexivity | split; unfold Qle; cbn; lia].
  - unfold _fallback_classification. apply Forall_map, Forall_forall. intros i _.
    exists (5 # 10)%Q. split; [reflexivity | split; unfold Qle; cbn; lia].
Qed.

(** The two ways into a fallback: the call fails, or the response does not
    decode. *)
Lemma classes_call_failure env its items_data e :
  mapM item_data its = ok items_data -> ask_classes env items_data = inl e ->
  _classify_items_with_gemini env its = _create_fallback_classifications env its.
Proof.
  intros Hd He. unfold _classify_items_with_gemini. rewrite Hd. cbn. now rewrite He.
Qed.

Lemma classes_parse_failure env its items_data response :
  mapM item_data its = ok items_data -> ask_classes env items_data = ok response ->
  json_loads env (strip_fences response) = None ->
  _classify_items_with_gemini env its = ok (_fallback_classification (length its)).
Proof.
  intros Hd Hr Hl. unfold _classify_items_with_gemini. rewrite Hd. cbn. rewrite Hr. cbn.
  unfold _parse_classification_response, loads. now rewrite Hl.
Qed.

Lemma foldM_prefix_from {A B} (f : A -> B -> Exc A) (P : A -> list B -> Prop)
    (l done : list B) (a0 a : A) :
  (forall x seen b x', P x seen -> f x b = ok x' -> P x' (seen ++ [b])) ->
  P a0 done -> foldM f l a0 = ok a -> P a (done ++ l).
Proof.
  intros Hstep. revert done a0. induction l as [| b l IH]; cbn; intros done a0 Ha0 H.
  - injection H as <-. now rewrite app_nil_r.
  - apply ebind_ok in H as (a1 & Ha1 & H).
    replace (done ++ b :: l) with ((done ++ [b]) ++ l) by now rewrite <- app_assoc.
    eapply IH; [| exact H]. eapply Hstep; eauto.
Qed.

Lemma no_product_filter (l : list GraphEntity.t) :
  Forall (fun e => GraphEntity.type e <> "product") l -> List.filter is_product l = [].
Proof.
  induction 1 as [| e l He _ IH]; cbn; [reflexivity |].
  unfold is_product at 1. destruct (String.eqb_spec (GraphEntity.type e) "product");
    [contradiction | exact IH].
Qed.

Lemma rest_has_no_product (rest : list GraphEntity.t) (b : bool) :
  map GraphEntity.type rest = (if b then ["brand"; "category"; "brand"] else ["category"]) ->
  Forall (fun e => GraphEntity.type e <> "product") rest.
Proof.
  intros H. apply Forall_forall. intros e He Hty.
  apply list_elem_of_In, (in_map GraphEntity.type) in He. rewrite H, Hty in He.
  destruct b; cbn in He; intuition discriminate.
Qed.

(** The product entities carry, in order, the validated confidences of the
    classification records. *)
Lemma products_follow_classifications env pairs header ents :
  Forall (fun e => GraphEntity.type e <> "product") header ->
  foldM (item_entities env) pairs header = ok ents ->
  Forall2 (confidence_from env) (map snd pairs) (List.filter is_product ents).
Proof.
  intros Hheader Hfold.
  apply (foldM_prefix_from (item_entities env)
           (fun ents seen => Forall2 (confidence_from env) (map snd seen)
                                     (List.filter is_product ents))
           pairs [] header ents); [| | exact Hfold].
  - intros x seen [it c] x' Hx Hstep.
    apply item_entities_shape in Hstep
      as (product & rest & cv & bv & -> & Hty & Hcv & Hvalid & _ & Hrest & _).
    rewrite map_app, List.filter_app. cbn [map snd List.filter].
    unfold is_product at 2. rewrite Hty. cbn [String.eqb Ascii.eqb Bool.eqb].
    rewrite (no_product_filter rest) by (eapply rest_has_no_product; exact Hrest).
    apply Forall2_app; [exact Hx |]. constructor; [| constructor].
    exists cv. split; assumption.
  - rewrite no_product_filter by exact Hheader. constructor.
Qed.

(** C5, as the code has it. Every entity that is not a product (merchant,
    location, payment method, category, brand) has confidence 1.0; when the
    classification took a fallback path, every entity of the receipt has a
    confidence within [0, 1]; and in general the product entities carry, in
    order, the validated confidences of the classification records, whatever
    these are.  A field validator is assumed to accept a float as it is. *)
Theorem entity_confidence (env : Env) (receipt : Receipt.t) (ents : list GraphEntity.t) :
  validators_ok env ->
  _extract_entities_from_receipt env receipt = ok ents ->
  Forall (fun e => GraphEntity.type e <> "product" -> GraphEntity.confidence e = 1%Q) ents /\
  (classified_by_fallback env receipt ->
   Forall (fun e => unit_interval (GraphEntity.confidence e)) ents) /\
  (forall its cs,
      items_to_process env receipt = ok its -> its <> [] ->
      _classify_items_with_gemini env its = ok cs ->
      Forall2 (confidence_from env) (map snd (combine its cs))
              (List.filter is_product ents)).
Proof.
  intros [_ Hfloat] H.
  pose proof (header_entities_plain env receipt) as Hh.
  assert (Hh1 : Forall (fun e => GraphEntity.type e <> "product")
                       (header_entities env receipt))
    by (eapply Forall_impl; [exact Hh |]; now intros e [He _]).
  assert (Hh2 : Forall (fun e => GraphEntity.confidence e = 1%Q)
                       (header_entities env receipt))
    by (eapply Forall_impl; [exact Hh |]; now intros e [_ He]).
  apply extract_entities_inv in H
    as (its & Hits & [[-> ->] | (Hne & cs & Hcs & Hfold)]).
  - split; [| split].
    + eapply Forall_impl; [exact Hh2 |]. auto.
    + intros _. eapply Forall_impl; [exact Hh2 |]. intros e ->. apply unit_interval_one.
    + intros its' cs' Hits'. rewrite Hits in Hits'. injection Hits' as <-. congruence.
  - split; [| split].
    + apply (foldM_invariant (item_entities env)
               (Forall (fun e => GraphEntity.type e <> "product" ->
                                 GraphEntity.confidence e = 1%Q))
               (fun _ => True)
               (combine its cs) (header_entities env receipt) ents);
        [| | | exact Hfold].
      * intros x [it c] x' Hx _ Hstep.
        apply item_entities_shape in Hstep
          as (product & rest & cv & bv & -> & Hty & _ & _ & _ & _ & Hrest).
        apply Forall_app. split; [exact Hx |].
        constructor; [now intros [] |].
        eapply Forall_impl; [exact Hrest |]. auto.
      * eapply Forall_impl; [exact Hh2 |]. auto.
      * apply Forall_forall. auto.
    + intros Hfb.
      assert (Hcs' : Forall (fun c => exists q,
                                py_get c "confidence" (VFloat (8 # 10)) = ok (VFloat q) /\
                                unit_interval q) cs).
      { apply (fallback_confidence env its). destruct (Hfb its Hits) as [Hk | Hk].
        - left. now rewrite <- Hk.
        - right. rewrite Hk in Hcs. now injection Hcs as <-. }
      apply (foldM_invariant (item_entities env)
               (Forall (fun e => unit_interval (GraphEntity.confidence e)))
               (fun p => exists q,
                    py_get (snd p) "confidence" (VFloat (8 # 10)) = ok (VFloat q) /\
                    unit_interval q)
               (combine its cs) (header_entities env receipt) ents);
        [| | exact (Forall_combine_snd _ its cs Hcs') | exact Hfold].
      * intros x [it c] x' Hx (q & Hq & Hunit) Hstep. cbn in Hq.
        apply item_entities_shape in Hstep
          as (product & rest & cv & bv & -> & _ & Hcv & Hvalid & _ & _ & Hrest).
        rewrite Hq in Hcv. injection Hcv as <-.
        unfold valid_float in Hvalid. rewrite Hfloat in Hvalid. injection Hvalid as Hvalid.
        apply Forall_app. split; [exact Hx |].
        constructor; [now rewrite <- Hvalid |].
        eapply Forall_impl; [exact Hrest |]. intros e ->. apply unit_interval_one.
      * eapply Forall_impl; [exact Hh2 |]. intros e ->. apply unit_interval_one.
    + intros its' cs' Hits'. rewrite Hits in Hits'. injection Hits' as <-.
      intros _ Hcs'. rewrite Hcs in Hcs'. injection Hcs' as <-.
      exact (products_follow_classifications env _ _ _ Hh1 Hfold).
Qed.

Lemma offline_validators_ok : validators_ok offline_env.
Proof. split; reflexivity. Qed.

Lemma offline_classified_by_fallback receipt : classified_by_fallback offline_env receipt.
Proof.
  intros its _. left. unfold _classify_items_with_gemini.
  destruct (mapM item_data its); reflexivity.
Qed.

Lemma entity_confidence_witness :
  exists ents,
    _extract_entities_from_receipt offline_env scenario_receipt = ok ents /\
    map (fun e => (GraphEntity.name e, GraphEntity.type e, GraphEntity.confidence e)) ents
    = [("Big Mart", "merchant", 1%Q);
       ("MILK 1L", "product", (7 # 10)%Q); ("grocery", "category", 1%Q);
       ("BREAD", "product", (7 # 10)%Q); ("grocery", "category", 1%Q)] /\
    Forall (fun e => GraphEntity.type e <> "product" -> GraphEntity.confidence e = 1%Q) ents /\
    Forall (fun e => unit_interval (GraphEntity.confidence e)) ents.
Proof.
  destruct (_extract_entities_from_receipt offline_env scenario_receipt)
    as [e | ents] eqn:Hents; [vm_compute in Hents; discriminate |].
  exists ents. split; [reflexivity |]. split.
  - vm_compute in Hents. injection Hents as <-. reflexivity.
  - destruct (entity_confidence offline_env scenario_receipt ents
                offline_validators_ok Hents) as (H1 & H2 & _).
    split; [exact H1 | apply H2, offline_classified_by_fallback].
Defined.

(** Against C5 as stated: the service reports the confidence of the first
    item as the percentage 95, and the product entity built from it has
    confidence 95. *)
Lemma ai_confidence_not_clamped :
  json_loads percent_env (strip_fences percent_reply) = Some percent_analysis /\
  match _extract_entities_from_receipt percent_env scenario_receipt with
  | inr ents =>
      map (fun e => (GraphEntity.name e, GraphEntity.type e, GraphEntity.confidence e)) ents
  | inl _ => []
  end
  = [("Big Mart", "merchant", 1%Q);
     ("MILK 1L", "product", 95%Q); ("Amul", "brand", 1%Q);
     ("dairy", "category", 1%Q); ("Amul", "brand", 1%Q);
     ("BREAD", "product", (6 # 10)%Q); ("food", "category", 1%Q)] /\
  ~ unit_interval 95.
Proof.
  split; [vm_compute; reflexivity |]. split; [vm_compute; reflexivity |].
  intros [_ H]. vm_compute in H. congruence.
Qed.

(** ** One brand entity per item *)

(** C8. Evaluation at a pair whose classification carries the brand "Amul":
    the assembler adds one product entity and one category entity, and two
    brand entities for the item, one before and one after the category
    entity, where the claim has exactly one. *)
Theorem brand_entity_added_twice :
  match item_entities percent_env []
          (ItemVal (extracted_item "MILK 1L" 55), amul_classification) with
  | inr out => map (fun e => (GraphEntity.name e, GraphEntity.type e)) out
  | inl _ => []
  end
  = [("MILK 1L", "product"); ("Amul", "brand"); ("dairy", "category"); ("Amul", "brand")] /\
  _classify_items_with_gemini percent_env [ItemVal (extracted_item "MILK 1L" 55)]
  = ok [amul_classification].
Proof. split; vm_compute; reflexivity. Qed.

(** For every pair: with a brand, two brand entities; without, none. *)
Lemma brand_entities_per_item env entities it c out brand_v :
  item_entities env entities (it, c) = ok out ->
  py_get c "brand" VNone = ok brand_v ->
  exists new,
    out = entities ++ new /\
    map GraphEntity.type new
    = if truthy brand_v
      then ["product"; "brand"; "category"; "brand"]
      else ["product"; "category"].
Proof.
  intros H Hb.
  apply item_entities_shape in H
    as (product & rest & cv & bv & -> & Hty & _ & _ & Hbv & Hrest & _).
  rewrite Hb in Hbv. injection Hbv as <-.
  exists (product :: rest). split; [reflexivity |]. cbn. rewrite Hty, Hrest.
  destruct (truthy brand_v); reflexivity.
Qed.

(** ** Merging: the objects of the loaded graphs *)

Lemma Forall2_insert_same {A} (F : A -> A -> Prop) (l0 l : list A) (b : nat) (x y : A) :
  Forall2 F l0 l -> l !! b = Some x -> (forall z, F z x -> F z y) ->
  Forall2 F l0 (<[b := y]> l).
Proof.
  intros Hl. revert b. induction Hl as [| z x' l0 l Hz Hl IH]; intros [| b] Hb Hxy;
    cbn in *; try discriminate.
  - injection Hb as ->. constructor; auto.
  - constructor; auto.
Qed.

Lemma entity_frame_refl e : entity_frame e e.
Proof. repeat split. Qed.

Lemma relation_frame_refl r : relation_frame r r.
Proof. repeat split. Qed.

Lemma Forall2_refl_frame {A} (F : A -> A -> Prop) (l : list A) :
  (forall x, F x x) -> Forall2 F l l.
Proof. intros H. induction l; constructor; auto. Qed.

Lemma merge_entity_frame heap0 st a :
  Forall2 entity_frame heap0 (snd st) ->
  Forall2 entity_frame heap0 (snd (merge_entity st a)).
Proof.
  destruct st as [entity_map heap]. cbn. intros H.
  destruct (heap !! a) as [entity |]; [| exact H].
  destruct (assoc _ _ _) as [b |]; [| exact H].
  destruct (heap !! b) as [existing |] eqn:Hb; [| exact H]. cbn.
  eapply Forall2_insert_same; [exact H | exact Hb |].
  intros z Hz. exact Hz.
Qed.

Lemma fold_frame {S A} (step : S -> nat -> S) (proj : S -> list A)
    (F : A -> A -> Prop) (heap0 : list A) (positions : list nat) (st : S) :
  (forall st a, Forall2 F heap0 (proj st) -> Forall2 F heap0 (proj (step st a))) ->
  Forall2 F heap0 (proj st) ->
  Forall2 F heap0 (proj (fold_left step positions st)).
Proof.
  intros Hstep. revert st. induction positions as [| a positions IH]; cbn; auto.
Qed.

Lemma merge_entities_frame heap :
  Forall2 entity_frame heap (snd (merge_entities heap)).
Proof.
  unfold merge_entities. apply (fold_frame merge_entity snd).
  - intros st a. apply merge_entity_frame.
  - apply Forall2_refl_frame, entity_frame_refl.
Qed.

Lemma merge_relation_frame merged_entities heap0 st a :
  Forall2 relation_frame heap0 (snd st) ->
  Forall2 relation_frame heap0 (snd (merge_relation merged_entities st a)).
Proof.
  destruct st as [relation_map heap]. cbn. intros H.
  destruct (heap !! a) as [relation |] eqn:Ha; [| exact H].
  destruct (entity_named _ _) as [source_entity |]; [| exact H].
  destruct (entity_named _ _) as [target_entity |]; [| exact H].
  destruct (assoc _ _ _) as [b |].
  - destruct (heap !! b) as [existing |] eqn:Hb; [| exact H]. cbn.
    eapply Forall2_insert_same; [exact H | exact Hb |]. intros z Hz. exact Hz.
  - cbn. eapply Forall2_insert_same; [exact H | exact Ha |]. intros z Hz. exact Hz.
Qed.

Lemma merge_relations_frame merged_entities heap :
  Forall2 relation_frame heap (snd (merge_relations merged_entities heap)).
Proof.
  unfold merge_relations. apply (fold_frame (merge_relation merged_entities) snd).
  - intros st a. apply merge_relation_frame.
  - apply Forall2_refl_frame, relation_frame_refl.
Qed.

Lemma regroup_Forall2 {A} (F : A -> A -> Prop) (groups : list (list A)) (flat : list A) :
  Forall2 F (concat groups) flat ->
  Forall2 (Forall2 F) groups (regroup (map (@length A) groups) flat).
Proof.
  revert flat. induction groups as [| g groups IH]; cbn; intros flat H.
  - constructor.
  - apply Forall2_app_inv_l in H as (k1 & k2 & H1 & H2 & ->).
    pose proof (Forall2_length _ _ _ H1) as Hlen.
    rewrite Hlen, take_app_length, drop_app_length. constructor; auto.
Qed.

Lemma zip3_frame graphs ess rss :
  Forall2 (Forall2 entity_frame) (map KnowledgeGraph.entities graphs) ess ->
  Forall2 (Forall2 relation_frame) (map KnowledgeGraph.relations graphs) rss ->
  Forall2 graph_frame graphs (zip3 graphs ess rss).
Proof.
  revert ess rss. induction graphs as [| g graphs IH]; cbn; intros ess rss He Hr.
  - constructor.
  - inversion He; subst. inversion Hr; subst. cbn.
    constructor; [| now apply IH]. repeat split; assumption.
Qed.

(** The objects that a merge decodes for itself from the documents: it
    keeps every list as long as it was, every graph's own fields, every
    entity's id, name, type and category and every relation's id, type,
    attributes and receipt id, and writes nothing to the stored documents. *)
Lemma merge_frame (db : store) (fresh_id stamp : string) (graph_ids : list string)
    (user_id : string) (res : merge_result) :
  merge_graphs db fresh_id stamp graph_ids user_id = ok res ->
  db_after res = db /\
  Forall2 graph_frame (load_graphs db graph_ids) (sources_after res).
Proof.
  unfold merge_graphs.
  destruct (load_graphs db graph_ids) as [| g0 graphs0] eqn:Hload; [discriminate |].
  set (graphs := g0 :: graphs0).
  pose proof (merge_entities_frame (concat (map KnowledgeGraph.entities graphs))) as He.
  destruct (merge_entities _) as [entity_map eheap].
  match goal with
  | |- context [merge_relations ?es ?rs] =>
      pose proof (merge_relations_frame es rs) as Hr;
      destruct (merge_relations es rs) as [relation_map rheap]
  end.
  intros H. injection H as <-. cbn [db_after sources_after]. split; [reflexivity |].
  apply (zip3_frame graphs
           (regroup (map (fun g => length (KnowledgeGraph.entities g)) graphs) eheap)
           (regroup (map (fun g => length (KnowledgeGraph.relations g)) graphs) rheap)).
  - rewrite <- (map_map KnowledgeGraph.entities (@length _)). now apply regroup_Forall2.
  - rewrite <- (map_map KnowledgeGraph.relations (@length _)). now apply regroup_Forall2.
Qed.

(** ** Merging: the merged graph *)

Lemma entity_key_eqb_eq a b : entity_key_eqb a b = true -> a = b.
Proof.
  destruct a as [a1 a2], b as [b1 b2]. unfold entity_key_eqb. cbn.
  intros H. apply andb_true_iff in H as [H1 H2].
  apply String.eqb_eq in H1, H2. now subst.
Qed.







Lemma deref_length {A} (heap : list A) (refs : list nat) :
  (length (deref heap refs) <= length refs)%nat.
Proof.
  induction refs as [| a refs IH]; cbn; [lia |].
  destruct (heap !! a); cbn; lia.
Qed.


(** The two loops that add the merged objects to the new graph. *)
Lemma add_entities_spec es g :
  let g' := fold_left (fun g e => KnowledgeGraph.add_entity e g) es g in
  KnowledgeGraph.entities g' = KnowledgeGraph.entities g ++ es /\
  KnowledgeGraph.relations g' = KnowledgeGraph.relations g /\
  (KnowledgeGraph.counters_ok g -> KnowledgeGraph.counters_ok g').
Proof.
  revert g. induction es as [| e es IH]; intros g; cbn.
  - rewrite app_nil_r. auto.
  - destruct (IH (KnowledgeGraph.add_entity e g)) as (He & Hr & Hc).
    cbn in He, Hr. rewrite He, Hr, <- app_assoc.
    split; [reflexivity |]. split; [reflexivity |].
    intros Hg. apply Hc. exact (apply_counters_ok g (KnowledgeGraph.AddEntity e) Hg).
Qed.

Lemma add_relations_spec rs g :
  let g' := fold_left (fun g r => KnowledgeGraph.add_relation r g) rs g in
  KnowledgeGraph.entities g' = KnowledgeGraph.entities g /\
  KnowledgeGraph.relations g' = KnowledgeGraph.relations g ++ rs /\
  KnowledgeGraph.total_entities g' = KnowledgeGraph.total_entities g /\
  (KnowledgeGraph.counters_ok g -> KnowledgeGraph.counters_ok g').
Proof.
  revert g. induction rs as [| r rs IH]; intros g; cbn.
  - rewrite app_nil_r. auto.
  - destruct (IH (KnowledgeGraph.add_relation r g)) as (He & Hr & Ht & Hc).
    cbn in He, Hr, Ht. rewrite He, Hr, Ht, <- app_assoc.
    split; [reflexivity |]. split; [reflexivity |]. split; [reflexivity |].
    intros Hg. apply Hc. exact (apply_counters_ok g (KnowledgeGraph.AddRelation r) Hg).
Qed.

(** The two loops of additions leave the head of the graph as it is. *)
Lemma add_entities_head es g :
  let g' := fold_left (fun g e => KnowledgeGraph.add_entity e g) es g in
  KnowledgeGraph.id g' = KnowledgeGraph.id g /\
  KnowledgeGraph.name g' = KnowledgeGraph.name g /\
  KnowledgeGraph.receipt_ids g' = KnowledgeGraph.receipt_ids g /\
  KnowledgeGraph.user_id g' = KnowledgeGraph.user_id g.
Proof.
  revert g. induction es as [| e es IH]; intros g; cbn; [auto |].
  destruct (IH (KnowledgeGraph.add_entity e g)) as (H1 & H2 & H3 & H4). cbn in *. auto.
Qed.

Lemma add_relations_head rs g :
  let g' := fold_left (fun g r => KnowledgeGraph.add_relation r g) rs g in
  KnowledgeGraph.id g' = KnowledgeGraph.id g /\
  KnowledgeGraph.name g' = KnowledgeGraph.name g /\
  KnowledgeGraph.receipt_ids g' = KnowledgeGraph.receipt_ids g /\
  KnowledgeGraph.user_id g' = KnowledgeGraph.user_id g.
Proof.
  revert g. induction rs as [| r rs IH]; intros g; cbn; [auto |].
  destruct (IH (KnowledgeGraph.add_relation r g)) as (H1 & H2 & H3 & H4). cbn in *. auto.
Qed.












(** The endpoints of a relation are entity ids, and the merge looks for an
    entity whose name is the endpoint: of the relations of [graph_a] and
    [graph_c], whose entities have names other than their ids, none is
    carried over. *)
Example merge_drops_relations_with_id_endpoints :
  match merge_graphs sample_store "g-new" "20250725_101500" ["g-a"; "g-c"] "user-1" with
  | inr res =>
      (KnowledgeGraph.total_entities (merged res),
       KnowledgeGraph.total_relations (merged res))
  | inl _ => (0, 0)
  end = (4, 0).
Proof. vm_compute. reflexivity. Qed.

(** C3. A merge never changes its input graphs.  The inputs are the
    identifiers of stored graphs: the merge reads their documents, works on
    objects that it decodes for itself, and returns a new graph under the
    identifier drawn for it; it writes no document.  After a merge every
    stored graph is what it was before, with its entities, their attributes
    and confidences, and with its relations, their endpoints and weights: the
    store is the same, every identifier resolves to the same graph, the
    source graphs load as before, and the same merge run again gives the same
    result. *)
Theorem merge_leaves_inputs_untouched (db : store) (fresh_id stamp : string)
    (graph_ids : list string) (user_id : string) (res : merge_result) :
  merge_graphs db fresh_id stamp graph_ids user_id = ok res ->
  db_after res = db /\
  (forall graph_id,
      assoc String.eqb graph_id (db_after res) = assoc String.eqb graph_id db) /\
  load_graphs (db_after res) graph_ids = load_graphs db graph_ids /\
  KnowledgeGraph.id (merged res) = fresh_id /\
  merge_graphs (db_after res) fresh_id stamp graph_ids user_id = ok res.
Proof.
  intros H.
  assert (Hdb : db_after res = db).
  { unfold merge_graphs in H.
    destruct (load_graphs db graph_ids) as [| g0 graphs0]; [discriminate |].
    destruct (merge_entities _) as [entity_map eheap].
    destruct (merge_relations _ _) as [relation_map rheap].
    injection H as <-. reflexivity. }
  rewrite Hdb. split; [reflexivity |]. split; [reflexivity |]. split; [reflexivity |].
  split; [| exact H].
  unfold merge_graphs in H.
  destruct (load_graphs db graph_ids) as [| g0 graphs0]; [discriminate |].
  destruct (merge_entities _) as [entity_map eheap].
  destruct (merge_relations _ _) as [relation_map rheap] eqn:Hmr.
  injection H as <-. cbn [merged].
  match goal with
  | |- KnowledgeGraph.id (fold_left _ ?rs ?g) = _ =>
      destruct (add_relations_head rs g) as (Hid & _)
  end.
  cbv zeta in Hid. rewrite Hid.
  match goal with
  | |- KnowledgeGraph.id (fold_left _ ?es ?g) = _ =>
      destruct (add_entities_head es g) as (Hid' & _)
  end.
  cbv zeta in Hid'. rewrite Hid'. reflexivity.
Qed.

Lemma merge_leaves_inputs_untouched_witness :
  exists res,
    merge_graphs sample_store "g-new" "20250725_101500" ["g-a"; "g-b"] "user-1" = ok res /\
    db_after res = sample_store /\
    load_graphs (db_after res) ["g-a"; "g-b"] = [graph_a; graph_b] /\
    KnowledgeGraph.id (merged res) = "g-new".
Proof.
  destruct (merge_graphs sample_store "g-new" "20250725_101500" ["g-a"; "g-b"] "user-1")
    as [e | res] eqn:Hres; [vm_compute in Hres; discriminate |].
  exists res. split; [reflexivity |].
  destruct (merge_leaves_inputs_untouched _ _ _ _ _ _ Hres) as (Hdb & _ & Hload & Hid & _).
  split; [exact Hdb |]. split; [rewrite Hload; reflexivity | exact Hid].
Defined.

(** * Further properties *)

(** ** Dictionaries *)

Lemma dict_lookup_set k k' v d :
  Dict.lookup k (Dict.set k' v d) = if String.eqb k k' then Some v else Dict.lookup k d.
Proof.
  induction d as [| [k1 v1] d IH]; cbn.
  - reflexivity.
  - destruct (String.eqb_spec k' k1) as [-> | Hne]; cbn.
    + destruct (String.eqb k k1); reflexivity.
    + rewrite IH. destruct (String.eqb_spec k k1) as [-> | Hne'].
      * destruct (String.eqb_spec k1 k'); [congruence | reflexivity].
      * reflexivity.
Qed.

(** [d.update(other)]: a key of [other] takes its last value there, any other
    key keeps its value in [d]. *)
Lemma dict_lookup_update k d other :
  Dict.lookup k (Dict.update d other) =
  match Dict.lookup k (rev other) with
  | Some v => Some v
  | None => Dict.lookup k d
  end.
Proof.
  unfold Dict.update. revert d. induction other as [| [k1 v1] other IH]; intros d; cbn.
  - reflexivity.
  - rewrite IH. clear IH.
    assert (Happ : forall l, Dict.lookup k (l ++ [(k1, v1)]) =
                             match Dict.lookup k l with
                             | Some v => Some v
                             | None => if String.eqb k k1 then Some v1 else None
                             end).
    { induction l as [| [k2 v2] l IHl]; cbn; [reflexivity |].
      destruct (String.eqb k k2); [reflexivity | exact IHl]. }
    rewrite Happ, dict_lookup_set.
    destruct (Dict.lookup k (rev other)); [reflexivity |].
    destruct (String.eqb k k1); reflexivity.
Qed.

Lemma dict_update_keeps_keys k d other :
  Dict.lookup k d <> None -> Dict.lookup k (Dict.update d other) <> None.
Proof.
  rewrite dict_lookup_update. destruct (Dict.lookup k (rev other)); [discriminate | auto].
Qed.

Lemma dict_lookup_rev_some k d :
  Dict.lookup k d <> None -> Dict.lookup k (rev d) <> None.
Proof.
  induction d as [| [k1 v1] d IH]; cbn; [auto |].
  assert (Happ : forall l, Dict.lookup k (l ++ [(k1, v1)]) =
                           match Dict.lookup k l with
                           | Some v => Some v
                           | None => if String.eqb k k1 then Some v1 else None
                           end).
  { induction l as [| [k2 v2] l IHl]; cbn; [reflexivity |].
    destruct (String.eqb k k2); [reflexivity | exact IHl]. }
  rewrite Happ. destruct (String.eqb k k1).
  - destruct (Dict.lookup k (rev d)); discriminate.
  - intros H. specialize (IH H). destruct (Dict.lookup k (rev d)); [discriminate | auto].
Qed.

Lemma dict_update_adds_keys k d other :
  Dict.lookup k other <> None -> Dict.lookup k (Dict.update d other) <> None.
Proof.
  intros H. apply dict_lookup_rev_some in H. rewrite dict_lookup_update.
  destruct (Dict.lookup k (rev other)); [discriminate | contradiction].
Qed.

(** ** Python's [max] and [min] *)

Lemma py_max_l a b : (a <= py_max a b)%Q.
Proof.
  unfold py_max, Qlt_bool. destruct (Qle_bool b a) eqn:E; cbn.
  - apply Qle_refl.
  - apply Qlt_le_weak, Qnot_le_lt. intros H. apply Qle_bool_iff in H. congruence.
Qed.

Lemma py_max_r a b : (b <= py_max a b)%Q.
Proof.
  unfold py_max, Qlt_bool. destruct (Qle_bool b a) eqn:E; cbn.
  - now apply Qle_bool_iff.
  - apply Qle_refl.
Qed.

Lemma py_min_cap a : (py_min a 1 <= 1)%Q.
Proof.
  unfold py_min, Qlt_bool. destruct (Qle_bool a 1) eqn:E; cbn.
  - now apply Qle_bool_iff.
  - apply Qle_refl.
Qed.

(** ** Merging: what the loop over the entities keeps *)

Lemma entity_key_eqb_refl k : entity_key_eqb k k = true.
Proof. destruct k. unfold entity_key_eqb. cbn. now rewrite !String.eqb_refl. Qed.

Lemma assoc_app {K V} (eqb : K -> K -> bool) k (m : list (K * V)) k' v :
  assoc eqb k (m ++ [(k', v)]) =
  match assoc eqb k m with
  | Some x => Some x
  | None => if eqb k k' then Some v else None
  end.
Proof.
  induction m as [| [k1 v1] m IH]; cbn; [reflexivity |].
  destruct (eqb k k1); [reflexivity | exact IH].
Qed.

Lemma assoc_In {K V} (eqb : K -> K -> bool) k (m : list (K * V)) b :
  assoc eqb k m = Some b -> exists k', In (k', b) m /\ eqb k k' = true.
Proof.
  induction m as [| [k1 v1] m IH]; cbn; [discriminate |].
  destruct (eqb k k1) eqn:E.
  - intros H. injection H as ->. eauto.
  - intros H. destruct (IH H) as (k' & Hin & Hk). eauto.
Qed.

Lemma assoc_None_notin {K V} (eqb : K -> K -> bool) k (m : list (K * V)) :
  (forall x, eqb x x = true) -> assoc eqb k m = None -> ~ In k (map fst m).
Proof.
  intros Hrefl. induction m as [| [k1 v1] m IH]; cbn; [tauto |].
  destruct (eqb k k1) eqn:E; [discriminate |].
  intros H [-> | Hin]; [rewrite Hrefl in E; discriminate | now apply IH].
Qed.

Lemma covers_refl e : covers e e.
Proof. split; [reflexivity | split; [apply Qle_refl | auto]]. Qed.

Lemma frame_key e0 e : entity_frame e0 e -> key_of e = key_of e0.
Proof. intros (_ & Hn & Ht & _). unfold key_of. now rewrite Hn, Ht. Qed.

Lemma absorb_frame e0 existing entity :
  entity_frame e0 existing -> entity_frame e0 (absorb existing entity).
Proof. intros H. exact H. Qed.

Lemma absorb_covers_old existing entity x :
  covers existing x -> covers (absorb existing entity) x.
Proof.
  intros (Hk & Hc & Ha). split; [exact Hk | split].
  - cbn. eapply Qle_trans; [exact Hc | apply py_max_l].
  - intros k Hx. cbn. apply dict_update_keeps_keys. auto.
Qed.

Lemma absorb_covers_new existing entity :
  key_of existing = key_of entity -> covers (absorb existing entity) entity.
Proof.
  intros Hk. split; [exact Hk | split].
  - cbn. apply py_max_r.
  - intros k Hx. cbn. now apply dict_update_adds_keys.
Qed.

Lemma merged_upto_start heap0 : entities_merged_upto heap0 0 ([], heap0).
Proof.
  constructor; cbn; auto.
  - constructor.
  - intros i e0 Hi. lia.
Qed.

Lemma merge_entity_upto heap0 a st :
  (a < length heap0)%nat ->
  entities_merged_upto heap0 a st ->
  entities_merged_upto heap0 (S a) (merge_entity st a).
Proof.
  destruct st as [m heap]. intros Ha [Hlen Hnd Hreg Hcov Hun]. cbn [fst snd] in *.
  destruct (lookup_lt_is_Some_2 heap0 a Ha) as [entity Hentity0].
  assert (Hentity : heap !! a = Some entity) by (rewrite Hun by lia; exact Hentity0).
  unfold merge_entity. rewrite Hentity.
  destruct (assoc entity_key_eqb (key_of entity) m) as [b |] eqn:Hassoc.
  - (* the key is registered at [b]: the object there absorbs the entity *)
    destruct (assoc_In _ _ _ _ Hassoc) as (k' & Hin & Hk').
    apply entity_key_eqb_eq in Hk'. subst k'.
    pose proof (proj1 (Forall_forall _ _) Hreg _ (proj2 (list_elem_of_In _ _) Hin))
      as (Hb & e0b & eb & He0b & Heb & Hkb & Hfb & Hminb).
    cbn [fst snd] in *. rewrite Heb.
    assert (Hblt : (b < length heap)%nat) by (now apply lookup_lt_Some in Heb).
    constructor; cbn [fst snd].
    + now rewrite length_insert.
    + exact Hnd.
    + eapply Forall_impl; [exact Hreg |].
      intros [k c] (Hc & e0c & ec & He0c & Hec & Hkc & Hfc & Hminc). cbn [fst snd] in *.
      split; [lia |]. exists e0c.
      destruct (Nat.eq_dec b c) as [-> | Hne].
      * rewrite Heb in Hec. injection Hec as <-.
        exists (absorb eb entity). rewrite list_lookup_insert_eq by exact Hblt.
        repeat split; try assumption; apply Hfc.
      * exists ec. rewrite list_lookup_insert_ne by exact Hne.
        repeat split; try assumption; apply Hfc.
    + intros i e0 Hi He0.
      destruct (Nat.eq_dec i a) as [-> | Hia].
      * rewrite Hentity0 in He0. injection He0 as <-.
        exists b, (absorb eb entity). rewrite list_lookup_insert_eq by exact Hblt.
        split; [exact Hassoc | split; [reflexivity |]].
        apply absorb_covers_new. now rewrite (frame_key _ _ Hfb).
      * destruct (Hcov i e0 ltac:(lia) He0) as (bi & ei & Hai & Hei & Hci).
        exists bi. destruct (Nat.eq_dec b bi) as [<- | Hne].
        -- rewrite Heb in Hei. injection Hei as <-.
           exists (absorb eb entity). rewrite list_lookup_insert_eq by exact Hblt.
           split; [exact Hai | split; [reflexivity | now apply absorb_covers_old]].
        -- exists ei. rewrite list_lookup_insert_ne by exact Hne. auto.
    + intros j Hj. rewrite list_lookup_insert_ne by lia. apply Hun. lia.
  - (* a new key: the position is registered *)
    pose proof (assoc_None_notin _ _ _ entity_key_eqb_refl Hassoc) as Hfresh.
    constructor; cbn [fst snd].
    + exact Hlen.
    + rewrite map_app. apply NoDup_app. split; [exact Hnd | split].
      * intros k Hk Hk'. apply list_elem_of_In in Hk, Hk'. cbn in Hk'.
        destruct Hk' as [<- | []]. contradiction.
      * cbn. apply NoDup_singleton.
    + apply Forall_app. split.
      * eapply Forall_impl; [exact Hreg |].
        intros [k c] (Hc & Hrest). split; [cbn in *; lia | exact Hrest].
      * constructor; [| constructor]. cbn [fst snd]. split; [lia |].
        exists entity, entity. repeat split; try assumption.
        intros j ej Hj Hej Hkey.
        destruct (Hcov j ej Hj Hej) as (bj & _ & Haj & _).
        rewrite Hkey, Hassoc in Haj. discriminate.
    + intros i e0 Hi He0.
      destruct (Nat.eq_dec i a) as [-> | Hia].
      * rewrite Hentity0 in He0. injection He0 as <-.
        exists a, entity. rewrite assoc_app, Hassoc, entity_key_eqb_refl.
        split; [reflexivity | split; [exact Hentity | apply covers_refl]].
      * destruct (Hcov i e0 ltac:(lia) He0) as (bi & ei & Hai & Hei & Hci).
        exists bi, ei. rewrite assoc_app, Hai. auto.
    + intros j Hj. apply Hun. lia.
Qed.

Lemma merge_entities_upto_from heap0 len start st :
  (start + len <= length heap0)%nat ->
  entities_merged_upto heap0 start st ->
  entities_merged_upto heap0 (start + len) (fold_left merge_entity (seq start len) st).
Proof.
  revert start st. induction len as [| len IH]; intros start st Hlen H; cbn.
  - now rewrite Nat.add_0_r.
  - rewrite <- Nat.add_succ_comm. apply IH; [lia |].
    apply merge_entity_upto; [lia | exact H].
Qed.

Lemma merge_entities_upto heap0 :
  entities_merged_upto heap0 (length heap0) (merge_entities heap0).
Proof.
  unfold merge_entities.
  apply (merge_entities_upto_from heap0 (length heap0) 0); [lia | apply merged_upto_start].
Qed.

(** ** Merging: what the loop over the relations keeps *)

Lemma relation_key_eqb_refl k : relation_key_eqb k k = true.
Proof.
  destruct k as [[k1 k2] k3]. unfold relation_key_eqb. cbn.
  now rewrite !String.eqb_refl.
Qed.

Lemma merge_relation_upto es a st :
  relations_merged_upto a st -> relations_merged_upto (S a) (merge_relation es st a).
Proof.
  destruct st as [m heap]. unfold relations_merged_upto. cbn [fst snd].
  intros [Hnd Hreg].
  assert (Hweak : Forall (fun kb => (snd kb < S a)%nat /\
                            exists r, heap !! snd kb = Some r /\ triple_of r = fst kb) m).
  { eapply Forall_impl; [exact Hreg |]. intros kb [Hlt Hr]. split; [lia | exact Hr]. }
  unfold merge_relation.
  destruct (heap !! a) as [relation |] eqn:Ha; [| now split].
  destruct (entity_named es (GraphRelation.source_entity_id relation))
    as [source_entity |]; [| now split].
  destruct (entity_named es (GraphRelation.target_entity_id relation))
    as [target_entity |]; [| now split].
  destruct (assoc _ _ _) as [b |] eqn:Hassoc.
  - destruct (heap !! b) as [existing |] eqn:Hb; [| now split]. cbn [fst snd].
    split; [exact Hnd |].
    eapply Forall_impl; [exact Hweak |]. intros [k c] [Hlt (r & Hr & Hk)]. cbn in *.
    split; [exact Hlt |].
    destruct (Nat.eq_dec b c) as [-> | Hne].
    + rewrite Hb in Hr. injection Hr as <-. exists (strengthen existing).
      split; [| exact Hk]. apply list_lookup_insert_eq. now apply lookup_lt_Some in Hb.
    + exists r. split; [| exact Hk]. now rewrite list_lookup_insert_ne.
  - pose proof (assoc_None_notin _ _ _ relation_key_eqb_refl Hassoc) as Hfresh.
    cbn [fst snd]. split.
    + rewrite map_app. apply NoDup_app. split; [exact Hnd | split].
      * intros k Hk Hk'. apply list_elem_of_In in Hk, Hk'. cbn in Hk'.
        destruct Hk' as [<- | []]. contradiction.
      * cbn. apply NoDup_singleton.
    + apply Forall_app. split.
      * eapply Forall_impl; [exact Hreg |]. intros [k c] [Hlt (r & Hr & Hk)]. cbn in *.
        split; [lia |]. exists r. split; [| exact Hk].
        rewrite list_lookup_insert_ne by lia. exact Hr.
      * constructor; [| constructor]. cbn. split; [lia |]. eexists. split.
        -- apply list_lookup_insert_eq. now apply lookup_lt_Some in Ha.
        -- reflexivity.
Qed.

Lemma merge_relations_upto_from es len start st :
  relations_merged_upto start st ->
  relations_merged_upto (start + len) (fold_left (merge_relation es) (seq start len) st).
Proof.
  revert start st. induction len as [| len IH]; intros start st H; cbn.
  - now rewrite Nat.add_0_r.
  - rewrite <- Nat.add_succ_comm. apply IH. now apply merge_relation_upto.
Qed.

Lemma merge_relation_capped es st a :
  Forall weight_capped (snd st) -> Forall weight_capped (snd (merge_relation es st a)).
Proof.
  destruct st as [m heap]. cbn [snd]. intros H. unfold merge_relation.
  destruct (heap !! a) as [relation |] eqn:Ha; [| exact H].
  destruct (entity_named _ _) as [source_entity |]; [| exact H].
  destruct (entity_named _ _) as [target_entity |]; [| exact H].
  destruct (assoc _ _ _) as [b |].
  - destruct (heap !! b) as [existing |]; [| exact H]. cbn [snd].
    apply Forall_insert; [exact H |]. unfold weight_capped. cbn. apply py_min_cap.
  - cbn [snd]. apply Forall_insert; [exact H |].
    exact (proj1 (Forall_lookup _ _) H a relation Ha).
Qed.

Lemma merge_relations_capped es heap :
  Forall weight_capped heap -> Forall weight_capped (snd (merge_relations es heap)).
Proof.
  unfold merge_relations. generalize (seq 0 (length heap)).
  intros positions. generalize (@nil (relation_key * nat)). intros m H.
  change heap with (snd (m, heap)) in H. revert H. generalize (m, heap). clear.
  induction positions as [| a positions IH]; intros st H; cbn; [exact H |].
  apply IH. now apply merge_relation_capped.
Qed.

(** ** Merging: the objects behind the positions *)

Lemma deref_In {A} (heap : list A) (refs : list nat) (b : nat) (x : A) :
  In b refs -> heap !! b = Some x -> In x (deref heap refs).
Proof.
  induction refs as [| a refs IH]; cbn; [tauto |].
  intros [-> | Hin] Hx.
  - rewrite Hx. now left.
  - destruct (heap !! a); [right |]; auto.
Qed.

Lemma deref_In_inv {A} (heap : list A) (refs : list nat) (x : A) :
  In x (deref heap refs) -> exists b, In b refs /\ heap !! b = Some x.
Proof.
  induction refs as [| a refs IH]; cbn; [tauto |].
  destruct (heap !! a) as [y |] eqn:Ha.
  - intros [<- | Hin]; [eauto |]. destruct (IH Hin) as (b & Hb & Hx). eauto.
  - intros Hin. destruct (IH Hin) as (b & Hb & Hx). eauto.
Qed.

Lemma deref_subset {A} (Q : A -> Prop) (heap : list A) (refs : list nat) :
  Forall Q heap -> Forall Q (deref heap refs).
Proof.
  intros H. apply Forall_forall. intros x Hx.
  apply list_elem_of_In, deref_In_inv in Hx as (b & _ & Hb).
  exact (proj1 (Forall_lookup _ _) H b x Hb).
Qed.

(** The registered objects, read in order, show the registered keys. *)
Lemma deref_keys {A K} (key : A -> K) (heap : list A) (m : list (K * nat)) :
  Forall (fun kb => exists x, heap !! snd kb = Some x /\ key x = fst kb) m ->
  map key (deref heap (map snd m)) = map fst m.
Proof.
  induction 1 as [| [k b] m (x & Hx & Hk) _ IH]; cbn in *; [reflexivity |].
  rewrite Hx. cbn. now rewrite Hk, IH.
Qed.

(** What a successful merge is made of. *)
Lemma merge_graphs_inv db fresh_id stamp graph_ids user_id res :
  merge_graphs db fresh_id stamp graph_ids user_id = ok res ->
  exists entity_map eheap relation_map rheap,
    load_graphs db graph_ids <> [] /\
    merge_entities (all_entities (load_graphs db graph_ids)) = (entity_map, eheap) /\
    KnowledgeGraph.entities (merged res) = deref eheap (map snd entity_map) /\
    merge_relations (KnowledgeGraph.entities (merged res))
                    (all_relations (load_graphs db graph_ids))
    = (relation_map, rheap) /\
    KnowledgeGraph.relations (merged res) = deref rheap (map snd relation_map) /\
    KnowledgeGraph.counters_ok (merged res) /\
    KnowledgeGraph.receipt_ids (merged res)
    = concat (map KnowledgeGraph.receipt_ids (load_graphs db graph_ids)) /\
    KnowledgeGraph.user_id (merged res) = Some user_id /\
    KnowledgeGraph.id (merged res) = fresh_id.
Proof.
  unfold merge_graphs, all_entities, all_relations.
  destruct (load_graphs db graph_ids) as [| g0 graphs0] eqn:Hload; [discriminate |].
  set (graphs := g0 :: graphs0) in *.
  destruct (merge_entities (concat (map KnowledgeGraph.entities graphs)))
    as [entity_map eheap] eqn:Hme.
  set (g1 := KnowledgeGraph.Build _ _ _ [] [] _ _ 0 0).
  assert (Hg1 : KnowledgeGraph.counters_ok g1) by (split; reflexivity).
  destruct (add_entities_spec (deref eheap (map snd entity_map)) g1) as (He2 & Hr2 & Hc2).
  set (g2 := fold_left _ _ g1) in *. cbn [KnowledgeGraph.entities g1 app] in He2.
  cbn [KnowledgeGraph.relations g1] in Hr2. specialize (Hc2 Hg1).
  destruct (merge_relations (KnowledgeGraph.entities g2)
                            (concat (map KnowledgeGraph.relations graphs)))
    as [relation_map rheap] eqn:Hmr.
  destruct (add_relations_spec (deref rheap (map snd relation_map)) g2)
    as (He3 & Hr3 & Ht3 & Hc3).
  set (g3 := fold_left _ _ g2) in *. specialize (Hc3 Hc2).
  rewrite Hr2 in Hr3. cbn [app] in Hr3.
  intros H. injection H as <-. cbn [merged].
  exists entity_map, eheap, relation_map, rheap.
  rewrite He3, Hr3.
  split; [discriminate |]. split; [reflexivity |]. split; [exact He2 |].
  split; [exact Hmr |]. split; [reflexivity |]. split; [exact Hc3 |].
  split; [| split].
  - clear. subst g3 g2.
    generalize (deref rheap (map snd relation_map)). generalize (deref eheap (map snd entity_map)).
    assert (Hrel : forall rs g, KnowledgeGraph.receipt_ids
                     (fold_left (fun g r => KnowledgeGraph.add_relation r g) rs g)
                   = KnowledgeGraph.receipt_ids g)
      by (induction rs as [| r rs IH]; intros g; cbn; [reflexivity | now rewrite IH]).
    assert (Hent : forall es g, KnowledgeGraph.receipt_ids
                     (fold_left (fun g e => KnowledgeGraph.add_entity e g) es g)
                   = KnowledgeGraph.receipt_ids g)
      by (induction es as [| e es IH]; intros g; cbn; [reflexivity | now rewrite IH]).
    intros es rs. now rewrite Hrel, Hent.
  - clear. subst g3 g2.
    generalize (deref rheap (map snd relation_map)). generalize (deref eheap (map snd entity_map)).
    assert (Hrel : forall rs g, KnowledgeGraph.user_id
                     (fold_left (fun g r => KnowledgeGraph.add_relation r g) rs g)
                   = KnowledgeGraph.user_id g)
      by (induction rs as [| r rs IH]; intros g; cbn; [reflexivity | now rewrite IH]).
    assert (Hent : forall es g, KnowledgeGraph.user_id
                     (fold_left (fun g e => KnowledgeGraph.add_entity e g) es g)
                   = KnowledgeGraph.user_id g)
      by (induction es as [| e es IH]; intros g; cbn; [reflexivity | now rewrite IH]).
    intros es rs. now rewrite Hrel, Hent.
  - clear. subst g3 g2.
    generalize (deref rheap (map snd relation_map)). generalize (deref eheap (map snd entity_map)).
    assert (Hrel : forall rs g, KnowledgeGraph.id
                     (fold_left (fun g r => KnowledgeGraph.add_relation r g) rs g)
                   = KnowledgeGraph.id g)
      by (induction rs as [| r rs IH]; intros g; cbn; [reflexivity | now rewrite IH]).
    assert (Hent : forall es g, KnowledgeGraph.id
                     (fold_left (fun g e => KnowledgeGraph.add_entity e g) es g)
                   = KnowledgeGraph.id g)
      by (induction es as [| e es IH]; intros g; cbn; [reflexivity | now rewrite IH]).
    intros es rs. now rewrite Hrel, Hent.
Qed.

Lemma find_first {A} (p : A -> bool) (l : list A) (b : nat) (x : A) :
  l !! b = Some x -> p x = true ->
  (forall j y, (j < b)%nat -> l !! j = Some y -> p y = false) ->
  find p l = Some x.
Proof.
  revert b. induction l as [| y l IH]; intros [| b] Hb Hx Hmin; cbn in *; try discriminate.
  - injection Hb as ->. now rewrite Hx.
  - rewrite (Hmin 0%nat y) by (cbn; auto; lia).
    apply (IH b Hb Hx). intros j z Hj Hz. apply (Hmin (S j) z); [lia | exact Hz].
Qed.

Lemma load_graphs_nil db graph_ids :
  load_graphs db graph_ids = [] <->
  Forall (fun graph_id => assoc String.eqb graph_id db = None) graph_ids.
Proof.
  unfold load_graphs. induction graph_ids as [| gid graph_ids IH]; cbn.
  - split; [constructor | reflexivity].
  - destruct (assoc String.eqb gid db) as [g |] eqn:Hg; cbn.
    + split; [discriminate |]. intros H. inversion H; subst. congruence.
    + rewrite IH. split; [now constructor | intros H; now inversion H].
Qed.

Lemma load_graphs_cons db graph_ids :
  load_graphs db graph_ids <> [] <->
  Exists (fun graph_id => assoc String.eqb graph_id db <> None) graph_ids.
Proof.
  unfold load_graphs. induction graph_ids as [| gid graph_ids IH]; cbn.
  - split; [congruence | intros H; inversion H].
  - destruct (assoc String.eqb gid db) as [g |] eqn:Hg; cbn.
    + split; [| discriminate]. intros _. left. rewrite Hg. discriminate.
    + rewrite IH. split; [now right |].
      intros H. inversion H; subst; [congruence | assumption].
Qed.

(** X1. A merge raises [ValueError] exactly when none of the requested ids
    names a stored graph; as soon as one does, it returns a graph, the ids
    that name nothing being passed over. *)
Theorem merge_fails_exactly_without_graphs (db : store) (fresh_id stamp : string)
    (graph_ids : list string) (user_id : string) :
  (merge_graphs db fresh_id stamp graph_ids user_id = raise ValueError <->
   Forall (fun graph_id => assoc String.eqb graph_id db = None) graph_ids) /\
  ((exists res, merge_graphs db fresh_id stamp graph_ids user_id = ok res) <->
   Exists (fun graph_id => assoc String.eqb graph_id db <> None) graph_ids).
Proof.
  rewrite <- load_graphs_nil, <- load_graphs_cons. unfold merge_graphs.
  destruct (load_graphs db graph_ids) as [| g0 graphs0].
  - split; [tauto |]. split; [intros [res H]; discriminate | congruence].
  - destruct (merge_entities _) as [entity_map eheap].
    destruct (merge_relations _ _) as [relation_map rheap].
    split; [split; discriminate |]. split; [discriminate | eauto].
Qed.

Lemma merge_entities_map_length positions st :
  (length (fst (fold_left merge_entity positions st))
   <= length (fst st) + length positions)%nat.
Proof.
  revert st. induction positions as [| a positions IH]; intros st; cbn; [lia |].
  specialize (IH (merge_entity st a)).
  assert (Hstep : (length (fst (merge_entity st a)) <= S (length (fst st)))%nat).
  { destruct st as [m heap]. cbn.
    destruct (heap !! a) as [entity |]; cbn; [| lia].
    destruct (assoc _ _ _) as [b |].
    - destruct (heap !! b); cbn; lia.
    - cbn. rewrite length_app. cbn. lia. }
  lia.
Qed.

(** X2. The graph that a merge returns is deduplicated and consistent: its
    entities have pairwise distinct keys (lowercased name, type), its
    relations pairwise distinct triples (source id, target id, type), its
    counters are the lengths of its lists, it has no more entities than the
    sources together, and its receipt ids are those of the sources, in the
    order requested. *)
Theorem merged_graph_deduplicated (db : store) (fresh_id stamp : string)
    (graph_ids : list string) (user_id : string) (res : merge_result) :
  merge_graphs db fresh_id stamp graph_ids user_id = ok res ->
  NoDup (map key_of (KnowledgeGraph.entities (merged res))) /\
  NoDup (map triple_of (KnowledgeGraph.relations (merged res))) /\
  KnowledgeGraph.counters_ok (merged res) /\
  (length (KnowledgeGraph.entities (merged res))
   <= length (all_entities (load_graphs db graph_ids)))%nat /\
  KnowledgeGraph.receipt_ids (merged res)
  = concat (map KnowledgeGraph.receipt_ids (load_graphs db graph_ids)) /\
  KnowledgeGraph.user_id (merged res) = Some user_id.
Proof.
  intros H.
  apply merge_graphs_inv in H
    as (m & eheap & rm & rheap & _ & Hme & He & Hmr & Hr & Hc & Hrc & Hu & _).
  pose proof (merge_entities_upto (all_entities (load_graphs db graph_ids))) as Hup.
  rewrite Hme in Hup. destruct Hup as [Hlen Hnd Hreg _ _]. cbn [fst snd] in *.
  pose proof (merge_relations_upto_from (KnowledgeGraph.entities (merged res))
                (length (all_relations (load_graphs db graph_ids))) 0 ([], all_relations (load_graphs db graph_ids)))
    as Hrup.
  fold (merge_relations (KnowledgeGraph.entities (merged res))
                        (all_relations (load_graphs db graph_ids))) in Hrup.
  rewrite Hmr in Hrup. destruct Hrup as [Hrnd Hrreg]; [split; constructor |].
  cbn [fst snd] in *.
  split; [| split; [| split; [exact Hc | split; [| split; [exact Hrc | exact Hu]]]]].
  - rewrite He, (deref_keys key_of eheap m); [exact Hnd |].
    eapply Forall_impl; [exact Hreg |].
    intros [k b] (_ & e0 & e & _ & He' & Hk & Hf & _). cbn in *.
    exists e. split; [exact He' |]. now rewrite (frame_key _ _ Hf).
  - rewrite Hr, (deref_keys triple_of rheap rm); [exact Hrnd |].
    eapply Forall_impl; [exact Hrreg |]. intros [k b] (_ & r & Hr' & Hk). eauto.
  - rewrite He. pose proof (deref_length eheap (map snd m)) as Hd.
    rewrite length_map in Hd.
    pose proof (merge_entities_map_length
                  (seq 0 (length (all_entities (load_graphs db graph_ids))))
                  ([], all_entities (load_graphs db graph_ids))) as Hm.
    fold (merge_entities (all_entities (load_graphs db graph_ids))) in Hm.
    rewrite Hme, length_seq in Hm. cbn in Hm. lia.
Qed.

Lemma merged_graph_deduplicated_witness :
  exists res,
    merge_graphs sample_store "g-new" "20250725_101500" ["g-a"; "g-b"; "g-e"] "user-1"
    = ok res /\
    NoDup (map key_of (KnowledgeGraph.entities (merged res))) /\
    NoDup (map triple_of (KnowledgeGraph.relations (merged res))) /\
    KnowledgeGraph.counters_ok (merged res) /\
    (length (KnowledgeGraph.entities (merged res))
     <= length (all_entities (load_graphs sample_store ["g-a"; "g-b"; "g-e"])))%nat /\
    KnowledgeGraph.receipt_ids (merged res)
    = concat (map KnowledgeGraph.receipt_ids
                  (load_graphs sample_store ["g-a"; "g-b"; "g-e"])) /\
    KnowledgeGraph.user_id (merged res) = Some "user-1".
Proof.
  destruct (merge_graphs sample_store "g-new" "20250725_101500" ["g-a"; "g-b"; "g-e"]
                         "user-1") as [e | res] eqn:Hres; [vm_compute in Hres; discriminate |].
  exists res. split; [reflexivity |]. exact (merged_graph_deduplicated _ _ _ _ _ _ Hres).
Defined.

(** X3. No source entity is lost in a merge, and the first one decides the
    identity: every entity of a loaded graph is covered by an entity of the
    merged graph, of the same key, with a confidence at least as high and
    with every attribute key of the source; and every merged entity has the
    id, name, type and category of the first loaded entity of its key. *)
Theorem merged_entities_cover_sources (db : store) (fresh_id stamp : string)
    (graph_ids : list string) (user_id : string) (res : merge_result) :
  merge_graphs db fresh_id stamp graph_ids user_id = ok res ->
  (forall e0, In e0 (all_entities (load_graphs db graph_ids)) ->
     exists e, In e (KnowledgeGraph.entities (merged res)) /\ covers e e0) /\
  (forall e, In e (KnowledgeGraph.entities (merged res)) ->
     exists e0,
       find (fun x => entity_key_eqb (key_of x) (key_of e))
            (all_entities (load_graphs db graph_ids)) = Some e0 /\
       entity_frame e0 e).
Proof.
  intros H.
  apply merge_graphs_inv in H as (m & eheap & rm & rheap & _ & Hme & He & _).
  pose proof (merge_entities_upto (all_entities (load_graphs db graph_ids))) as Hup.
  rewrite Hme in Hup. destruct Hup as [Hlen Hnd Hreg Hcov _]. cbn [fst snd] in *.
  rewrite He. split.
  - intros e0 Hin. apply list_elem_of_In, list_elem_of_lookup in Hin as [i Hi].
    destruct (Hcov i e0 ltac:(now apply lookup_lt_Some in Hi) Hi) as (b & e & Hb & Heb & Hc).
    exists e. split; [| exact Hc].
    apply (deref_In eheap (map snd m) b e); [| exact Heb].
    destruct (assoc_In _ _ _ _ Hb) as (k' & Hk' & _).
    apply in_map_iff. exists (k', b). auto.
  - intros e Hin. apply deref_In_inv in Hin as (b & Hb & Heb).
    apply in_map_iff in Hb as ([k b'] & Hbb & Hkb). cbn in Hbb. subst b'.
    pose proof (proj1 (Forall_forall _ _) Hreg _ (proj2 (list_elem_of_In _ _) Hkb))
      as (_ & e0 & e' & He0 & He' & Hk & Hf & Hmin).
    cbn [fst snd] in *. rewrite Heb in He'. injection He' as <-.
    exists e0. split; [| exact Hf].
    apply (find_first _ _ b); [exact He0 | |].
    + rewrite (frame_key _ _ Hf). apply entity_key_eqb_refl.
    + intros j ej Hj Hej. rewrite (frame_key _ _ Hf), Hk.
      destruct (entity_key_eqb (key_of ej) k) eqn:E; [| reflexivity].
      apply entity_key_eqb_eq in E. exfalso. exact (Hmin j ej Hj Hej E).
Qed.

Lemma merged_entities_cover_sources_witness :
  exists res,
    merge_graphs sample_store "g-new" "20250725_101500" ["g-a"; "g-b"] "user-1" = ok res /\
    (forall e0, In e0 (all_entities (load_graphs sample_store ["g-a"; "g-b"])) ->
       exists e, In e (KnowledgeGraph.entities (merged res)) /\ covers e e0) /\
    (forall e, In e (KnowledgeGraph.entities (merged res)) ->
       exists e0,
         find (fun x => entity_key_eqb (key_of x) (key_of e))
              (all_entities (load_graphs sample_store ["g-a"; "g-b"])) = Some e0 /\
         entity_frame e0 e).
Proof.
  destruct (merge_graphs sample_store "g-new" "20250725_101500" ["g-a"; "g-b"] "user-1")
    as [e | res] eqn:Hres; [vm_compute in Hres; discriminate |].
  exists res. split; [reflexivity |]. exact (merged_entities_cover_sources _ _ _ _ _ _ Hres).
Defined.

(** X4. The cap on weights: when every relation of the loaded graphs has a
    weight of at most 1.0, so has every relation of the merged graph, however
    often a relation was strengthened by 0.1. *)
Theorem merged_weights_capped (db : store) (fresh_id stamp : string)
    (graph_ids : list string) (user_id : string) (res : merge_result) :
  merge_graphs db fresh_id stamp graph_ids user_id = ok res ->
  Forall weight_capped (all_relations (load_graphs db graph_ids)) ->
  Forall weight_capped (KnowledgeGraph.relations (merged res)).
Proof.
  intros H Hcap.
  apply merge_graphs_inv in H as (m & eheap & rm & rheap & _ & _ & _ & Hmr & Hr & _).
  rewrite Hr. apply deref_subset.
  pose proof (merge_relations_capped (KnowledgeGraph.entities (merged res)) _ Hcap) as Hc.
  now rewrite Hmr in Hc.
Qed.

Lemma merged_weights_capped_witness :
  exists res,
    merge_graphs sample_store "g-new" "20250725_101500" ["g-d"] "user-1" = ok res /\
    map GraphRelation.weight (KnowledgeGraph.relations (merged res)) = [1%Q] /\
    Forall weight_capped (KnowledgeGraph.relations (merged res)).
Proof.
  destruct (merge_graphs sample_store "g-new" "20250725_101500" ["g-d"] "user-1")
    as [e | res] eqn:Hres; [vm_compute in Hres; discriminate |].
  exists res. split; [reflexivity |]. split.
  - vm_compute in Hres. injection Hres as <-. reflexivity.
  - apply (merged_weights_capped _ _ _ _ _ _ Hres).
    vm_compute. repeat constructor; discriminate.
Defined.

(** ** The deterministic item extractor: what it returns *)

Lemma same_line_item_ok receipt patterns line item_name price :
  same_line_item receipt patterns line = Some (item_name, price) ->
  (3 <= Str.len item_name <= 50)%nat /\ has_alpha item_name = true /\
  price_in_range price = true /\ is_total receipt price = false.
Proof.
  induction patterns as [| pattern patterns IH]; cbn [same_line_item]; [discriminate |].
  destruct (Re.match_ true pattern line) as [[| g1 [| g2 [| g3 gs]]] |]; auto.
  cbv zeta.
  destruct (_ && _) eqn:E; [| exact IH].
  intros H. injection H as <- <-.
  apply andb_true_iff in E as [E Ht]. apply andb_true_iff in E as [E Hp].
  apply andb_true_iff in E as [E Ha]. apply andb_true_iff in E as [Hlo Hhi].
  apply Nat.leb_le in Hlo, Hhi. apply negb_true_iff in Ht. auto.
Qed.

Lemma price_only_ok receipt patterns line price :
  price_only receipt patterns line = Some price ->
  price_in_range price = true /\ is_total receipt price = false.
Proof.
  induction patterns as [| pattern patterns IH]; cbn [price_only]; [discriminate |].
  destruct (Re.match_ true pattern line) as [[| g1 [| g2 gs]] |]; auto.
  cbv zeta.
  destruct (_ && _) eqn:E; [| exact IH].
  intros H. injection H as <-.
  apply andb_true_iff in E as [Ht Hp]. apply negb_true_iff in Ht. auto.
Qed.

Lemma item_candidate_ok line :
  item_candidate line = true -> (3 <= Str.len line <= 30)%nat /\ has_alpha line = true.
Proof.
  unfold item_candidate. intros H. apply existsb_exists in H as (pattern & _ & H).
  destruct (Re.match_ false pattern line); [| discriminate].
  apply andb_true_iff in H as [H Ha]. apply andb_true_iff in H as [Hlo Hhi].
  apply Nat.leb_le in Hlo, Hhi. auto.
Qed.

Lemma scan_line_ok receipt st il :
  scan_ok receipt st -> scan_ok receipt (scan_line receipt st il).
Proof.
  destruct il as [i raw]. intros (Hi & Hn & Hp). unfold scan_line.
  destruct (classify_line receipt raw) as [| item_name price | price | line] eqn:Hc.
  - now repeat split.
  - split; [| now split]. cbn. apply Forall_app. split; [exact Hi |].
    constructor; [| constructor]. exists item_name, price. split; [reflexivity |].
    unfold classify_line in Hc.
    repeat match type of Hc with (if ?b then _ else _) = _ => destruct b; try discriminate end.
    destruct (same_line_item _ _ _) as [[n p] |] eqn:Hs.
    + injection Hc as <- <-. eapply same_line_item_ok; eauto.
    + destruct (price_only _ _ _); [discriminate |].
      destruct (item_candidate _); discriminate.
  - split; [exact Hi | split; [exact Hn |]]. cbn. apply Forall_app. split; [exact Hp |].
    constructor; [| constructor]. cbn.
    unfold classify_line in Hc.
    repeat match type of Hc with (if ?b then _ else _) = _ => destruct b; try discriminate end.
    destruct (same_line_item _ _ _) as [[n p] |]; [discriminate |].
    destruct (price_only _ _ _) as [p |] eqn:Hpo.
    + injection Hc as <-. eapply price_only_ok; eauto.
    + destruct (item_candidate _); discriminate.
  - split; [exact Hi | split; [| exact Hp]]. cbn. apply Forall_app. split; [exact Hn |].
    constructor; [| constructor]. cbn.
    unfold classify_line in Hc.
    repeat match type of Hc with (if ?b then _ else _) = _ => destruct b; try discriminate end.
    destruct (same_line_item _ _ _) as [[n p] |]; [discriminate |].
    destruct (price_only _ _ _) as [p |]; [discriminate |].
    destruct (item_candidate _) eqn:Hcand; [| discriminate].
    injection Hc as <-. now apply item_candidate_ok.
Qed.

Lemma scan_fold_ok receipt ils st :
  scan_ok receipt st -> scan_ok receipt (fold_left (scan_line receipt) ils st).
Proof.
  revert st. induction ils as [| il ils IH]; intros st H; cbn; [exact H |].
  apply IH. now apply scan_line_ok.
Qed.

(** The inner loop of the pairing returns a price line that is not used. *)
Lemma closest_price_from (used_prices : list nat) (item_idx : nat)
    (price_lines : list (nat * Q)) (best0 : option (nat * nat * Q)) d idx price :
  fold_left
    (fun (best : option (nat * nat * Q)) (pl : nat * Q) =>
       let '(price_idx, price) := pl in
       if existsb (Nat.eqb price_idx) used_prices then best
       else
         match best with
         | None => Some (distance item_idx price_idx, price_idx, price)
         | Some (best_distance, _, _) =>
             if (distance item_idx price_idx <? best_distance)%nat
             then Some (distance item_idx price_idx, price_idx, price)
             else best
         end)
    price_lines best0 = Some (d, idx, price) ->
  best0 = Some (d, idx, price) \/
  (In (idx, price) price_lines /\ ~ In idx used_prices).
Proof.
  revert best0. induction price_lines as [| [pi pp] pls IH]; intros best0; cbn [fold_left].
  - auto.
  - intros H. apply IH in H as [H | [Hin Hnot]]; [| right; split; [right |]; assumption].
    destruct (existsb (Nat.eqb pi) used_prices) eqn:Hused; [left; exact H |].
    assert (Hfresh : ~ In pi used_prices).
    { intros Hin. assert (existsb (Nat.eqb pi) used_prices = true); [| congruence].
      apply existsb_exists. exists pi. split; [exact Hin | apply Nat.eqb_refl]. }
    destruct best0 as [[[bd bi] bp] |].
    + destruct (_ <? _)%nat; [| left; exact H].
      injection H as <- <- <-. right. split; [left; reflexivity | exact Hfresh].
    + injection H as <- <- <-. right. split; [left; reflexivity | exact Hfresh].
Qed.

Lemma closest_price_ok used_prices item_idx price_lines d idx price :
  closest_price used_prices item_idx price_lines = Some (d, idx, price) ->
  In (idx, price) price_lines /\ ~ In idx used_prices.
Proof.
  unfold closest_price. intros H.
  apply closest_price_from in H as [H | H]; [discriminate | exact H].
Qed.

Lemma pair_item_ok receipt price_lines st il :
  Forall (fun pl => price_in_range (snd pl) = true /\ is_total receipt (snd pl) = false)
         price_lines ->
  (3 <= Str.len (snd il) <= 30)%nat /\ has_alpha (snd il) = true ->
  Forall (extracted_ok receipt) (snd st) ->
  Forall (extracted_ok receipt) (snd (pair_item price_lines st il)).
Proof.
  destruct st as [used items0], il as [item_idx item_name]. cbn [snd]. intros Hp [Hlen Ha] Hi.
  unfold pair_item.
  destruct (closest_price used item_idx price_lines) as [[[d idx] price] |] eqn:Hc;
    [| exact Hi].
  cbn [snd]. apply Forall_app. split; [exact Hi |]. constructor; [| constructor].
  apply closest_price_ok in Hc as [Hin _].
  pose proof (proj1 (Forall_forall _ _) Hp _ (proj2 (list_elem_of_In _ _) Hin)) as [Hr Ht].
  exists item_name, price. repeat split; auto; lia.
Qed.

(** What the two loops of the extractor return. *)
Lemma fallback_items_ok (raw_text : string) (receipt : option Receipt.t) :
  Forall (extracted_ok receipt) (_fallback_regex_extraction raw_text receipt).
Proof.
  unfold _fallback_regex_extraction.
  set (st := fold_left (scan_line receipt) (enumerate (Str.split_lines raw_text))
                       (MkScan [] [] [])).
  assert (Hst : scan_ok receipt st).
  { apply scan_fold_ok. repeat split; constructor. }
  destruct Hst as (Hi & Hn & Hp).
  assert (Hgen : forall ils st0,
             Forall (fun il => (3 <= Str.len (snd il) <= 30)%nat /\ has_alpha (snd il) = true)
                    ils ->
             Forall (extracted_ok receipt) (snd st0) ->
             Forall (extracted_ok receipt)
                    (snd (fold_left (pair_item (price_lines st)) ils st0))).
  { induction ils as [| il ils IH]; intros st0 Hils H0; cbn; [exact H0 |].
    apply Forall_cons in Hils as [Hil Hils].
    apply IH; [exact Hils |]. now apply (pair_item_ok receipt). }
  apply Hgen; assumption.
Qed.

(** X5. Every item that the deterministic extractor returns has a name of 3
    to 50 characters holding a letter, a price within [1, 10000] that is not
    within 0.01 of the receipt's total, the quantity 1 and a line total equal
    to its price, whatever the text. *)
Theorem fallback_items_are_in_order (raw_text : string) (receipt : option Receipt.t) :
  Forall (extracted_ok receipt) (_fallback_regex_extraction raw_text receipt).
Proof. apply fallback_items_ok. Qed.

(** ** The deterministic item extractor: how many items it returns *)

Lemma scan_line_counted receipt bound total st raw :
  scan_counted bound total st ->
  scan_counted (S bound) (S total) (scan_line receipt st (bound, raw)).
Proof.
  intros (Hc & Hb & Hn). unfold scan_line.
  assert (Hb' : Forall (fun i => (i < S bound)%nat) (map fst (price_lines st))).
  { eapply Forall_impl; [exact Hb |]. intros i Hi. cbv beta in Hi. lia. }
  destruct (classify_line receipt raw); unfold scan_counted; cbn [items item_lines price_lines].
  - repeat split; [lia | exact Hb' | exact Hn].
  - rewrite length_app. cbn. repeat split; [lia | exact Hb' | exact Hn].
  - rewrite length_app, map_app. cbn. repeat split; [lia | |].
    + apply Forall_app. split; [exact Hb' |]. constructor; [lia | constructor].
    + apply NoDup_app. split; [exact Hn |]. split; [| apply NoDup_singleton].
      intros i Hi Hi'. apply list_elem_of_singleton in Hi'. subst i.
      pose proof (proj1 (Forall_forall _ _) Hb _ Hi) as Hlt. cbv beta in Hlt. lia.
  - rewrite length_app. cbn. repeat split; [lia | exact Hb' | exact Hn].
Qed.

Lemma scan_from_counted receipt lines start total st :
  scan_counted start total st ->
  scan_counted (start + length lines) (total + length lines) (scan_from receipt start lines st).
Proof.
  unfold scan_from. revert start total st.
  induction lines as [| raw lines IH]; intros start total st H; cbn [length seq combine fold_left].
  - now rewrite !Nat.add_0_r.
  - replace (start + S (length lines))%nat with (S start + length lines)%nat by lia.
    replace (total + S (length lines))%nat with (S total + length lines)%nat by lia.
    apply IH. now apply scan_line_counted.
Qed.

Lemma closest_price_none_from (used_prices : list nat) (item_idx : nat)
    (price_lines : list (nat * Q)) (best0 : option (nat * nat * Q)) :
  fold_left
    (fun (best : option (nat * nat * Q)) (pl : nat * Q) =>
       let '(price_idx, price) := pl in
       if existsb (Nat.eqb price_idx) used_prices then best
       else
         match best with
         | None => Some (distance item_idx price_idx, price_idx, price)
         | Some (best_distance, _, _) =>
             if (distance item_idx price_idx <? best_distance)%nat
             then Some (distance item_idx price_idx, price_idx, price)
             else best
         end)
    price_lines best0 = None <->
  best0 = None /\ List.incl (map fst price_lines) used_prices.
Proof.
  revert best0. induction price_lines as [| [pi pp] pls IH]; intros best0; cbn [fold_left map fst].
  - split; [intros ->; split; [reflexivity | intros i []] | intros [-> _]; reflexivity].
  - rewrite IH. destruct (existsb (Nat.eqb pi) used_prices) eqn:Hused.
    + apply existsb_exists in Hused as (j & Hj & Heq). apply Nat.eqb_eq in Heq. subst j.
      split; intros [H0 Hincl]; (split; [exact H0 |]).
      * intros i [<- | Hi]; [exact Hj | now apply Hincl].
      * intros i Hi. apply Hincl. now right.
    + split.
      * intros [H0 _]. destruct best0 as [[[bd bi] bp] |]; [| discriminate].
        destruct (_ <? _)%nat; discriminate.
      * intros [_ Hincl]. exfalso.
        assert (existsb (Nat.eqb pi) used_prices = true); [| congruence].
        apply existsb_exists. exists pi. split; [apply Hincl; now left | apply Nat.eqb_refl].
Qed.

Lemma closest_price_none used_prices item_idx price_lines :
  closest_price used_prices item_idx price_lines = None <->
  List.incl (map fst price_lines) used_prices.
Proof.
  unfold closest_price. rewrite closest_price_none_from. split; [now intros [_ H] | now split].
Qed.

Lemma nodup_incl_le (l : list nat) (pls : list (nat * Q)) :
  NoDup l -> List.incl l (map fst pls) -> (length l <= length pls)%nat.
Proof.
  intros Hn Hi. rewrite <- (List.length_map fst pls).
  apply List.NoDup_incl_length; [now apply NoDup_ListNoDup | exact Hi].
Qed.

(** The pairing loop uses each price line at most once, and leaves an item
    line without a price only when no price line is left. *)
Lemma pairing_count (price_lines : list (nat * Q)) ils used items0 :
  NoDup (map fst price_lines) ->
  NoDup used -> List.incl used (map fst price_lines) ->
  length (snd (fold_left (pair_item price_lines) ils (used, items0))) =
  (length items0 + (Nat.min (length used + length ils) (length price_lines) - length used))%nat.
Proof.
  intros Hnd. revert used items0.
  induction ils as [| [item_idx item_name] ils IH]; intros used items0 Hu Hincl.
  - cbn [fold_left snd length].
    pose proof (nodup_incl_le used price_lines Hu Hincl). lia.
  - cbn [fold_left length]. unfold pair_item at 2.
    pose proof (nodup_incl_le used price_lines Hu Hincl) as Hle.
    destruct (closest_price used item_idx price_lines) as [[[d idx] price] |] eqn:Hc.
    + apply closest_price_ok in Hc as [Hin Hfresh].
      assert (Hincl' : List.incl (idx :: used) (map fst price_lines)).
      { intros i [<- | Hi]; [| now apply Hincl].
        change idx with (fst (idx, price)). now apply in_map. }
      assert (Hu' : NoDup (idx :: used)).
      { constructor; [| exact Hu]. intros Hi. now apply list_elem_of_In in Hi. }
      pose proof (nodup_incl_le _ price_lines Hu' Hincl') as Hlt.
      rewrite IH by assumption.
      rewrite length_app. cbn [length] in *. lia.
    + apply closest_price_none in Hc.
      assert (length price_lines <= length used)%nat.
      { rewrite <- (List.length_map fst price_lines).
        apply List.NoDup_incl_length; [now apply NoDup_ListNoDup | exact Hc]. }
      rewrite IH by assumption. lia.
Qed.

(** X6. The deterministic extractor returns one item for every line that
    holds a name and a price, and pairs the lines that hold only a name with
    the lines that hold only a price one to one, each price line at most once:
    the number of items is the number of same-line items plus the smaller of
    the two other counts.  No line counts twice, so there are never more
    items than lines. *)
Theorem fallback_item_count (raw_text : string) (receipt : option Receipt.t) :
  let lines := Str.split_lines raw_text in
  let st := scan_from receipt 0 lines (MkScan [] [] []) in
  length (_fallback_regex_extraction raw_text receipt) =
    (length (items st) + Nat.min (length (item_lines st)) (length (price_lines st)))%nat /\
  (length (items st) + length (item_lines st) + length (price_lines st)
     <= length lines)%nat /\
  (length (_fallback_regex_extraction raw_text receipt) <= length lines)%nat.
Proof.
  intros lines st.
  assert (Hst : scan_counted (0 + length lines) (0 + length lines) st).
  { apply scan_from_counted. repeat split; cbn; [lia | constructor | constructor]. }
  destruct Hst as (Hc & _ & Hnd). cbn [Nat.add] in Hc.
  assert (Hlen : length (_fallback_regex_extraction raw_text receipt) =
                 (length (items st) +
                  Nat.min (length (item_lines st)) (length (price_lines st)))%nat).
  { unfold _fallback_regex_extraction. fold lines.
    change (fold_left (scan_line receipt) (enumerate lines) (MkScan [] [] [])) with st.
    rewrite pairing_count; [cbn [length]; lia | exact Hnd | constructor | intros i []]. }
  split; [exact Hlen |]. split; [exact Hc | lia].
Qed.

(** ** The call of the service and its retries *)

(** X7. [_call_gemini] makes at most three requests and returns the text of
    the first one that succeeds; it pauses 1 second after a first failure and
    2 seconds after a second one, and raises the exception of the third
    request without a pause.  It never falls through to return [None]. *)
Theorem call_gemini_retries (generate : nat -> Exc string) :
  exists k,
    (k < 3)%nat /\
    fst (_call_gemini generate) = schedule k /\
    (forall j, (j < k)%nat -> failed generate j) /\
    match generate k with
    | inr text => snd (_call_gemini generate) = ok (Some text)
    | inl e => k = 2%nat /\ snd (_call_gemini generate) = raise e
    end.
Proof.
  unfold _call_gemini, schedule, failed. cbn [seq call_attempts].
  destruct (generate 0%nat) as [e0 | t0] eqn:H0.
  - destruct (generate 1%nat) as [e1 | t1] eqn:H1.
    + destruct (generate 2%nat) as [e2 | t2] eqn:H2.
      * exists 2%nat. rewrite H2. cbn. repeat split; try lia.
        intros j Hj. destruct j as [| [| j]]; [eauto | eauto | lia].
      * exists 2%nat. rewrite H2. cbn. repeat split; try lia.
        intros j Hj. destruct j as [| [| j]]; [eauto | eauto | lia].
    + exists 1%nat. rewrite H1. cbn. repeat split; try lia.
      intros j Hj. destruct j as [| j]; [eauto | lia].
  - exists 0%nat. rewrite H0. cbn. repeat split; try lia.
Qed.

(** ** Queries on a graph *)

Lemma run_entities ops g :
  KnowledgeGraph.entities (KnowledgeGraph.run ops g) =
  KnowledgeGraph.entities g ++ added_entities ops.
Proof.
  unfold KnowledgeGraph.run. revert g.
  induction ops as [| o ops IH]; intros g; cbn [fold_left added_entities flat_map].
  - now rewrite app_nil_r.
  - rewrite IH. destruct o; cbn; [now rewrite <- app_assoc | reflexivity].
Qed.

Lemma run_relations ops g :
  KnowledgeGraph.relations (KnowledgeGraph.run ops g) =
  KnowledgeGraph.relations g ++ added_relations ops.
Proof.
  unfold KnowledgeGraph.run. revert g.
  induction ops as [| o ops IH]; intros g; cbn [fold_left added_relations flat_map].
  - now rewrite app_nil_r.
  - rewrite IH. destruct o; cbn; [reflexivity | now rewrite <- app_assoc].
Qed.

Lemma find_app {A} (f : A -> bool) (l l' : list A) :
  List.find f (l ++ l') =
  match List.find f l with
  | Some x => Some x
  | None => List.find f l'
  end.
Proof.
  induction l as [| a l IH]; cbn; [reflexivity |]. destruct (f a); [reflexivity | exact IH].
Qed.

(** X8. The queries of a graph after any sequence of [add_entity] and
    [add_relation] calls: a lookup by id returns the first entity with that
    id, so that an entity already in the graph shadows every later one of
    the same id; it returns an entity of the graph with the id asked for, and
    nothing only when no entity has the id.  The entities of a type, and the
    relations that touch an entity, are those of the graph before, followed
    by the added ones, in the order of the calls. *)
Theorem queries_after_ops (g : KnowledgeGraph.t) (ops : list KnowledgeGraph.op)
    (entity_id entity_type : string) :
  let g' := KnowledgeGraph.run ops g in
  get_entity_by_id g' entity_id =
    match get_entity_by_id g entity_id with
    | Some e => Some e
    | None => List.find (fun e => String.eqb (GraphEntity.id e) entity_id) (added_entities ops)
    end /\
  (forall e, get_entity_by_id g' entity_id = Some e ->
             In e (KnowledgeGraph.entities g') /\ GraphEntity.id e = entity_id) /\
  (get_entity_by_id g' entity_id = None <->
   Forall (fun e => GraphEntity.id e <> entity_id) (KnowledgeGraph.entities g')) /\
  get_entities_by_type g' entity_type =
    get_entities_by_type g entity_type ++
    List.filter (fun e => String.eqb (GraphEntity.type e) entity_type) (added_entities ops) /\
  get_relations_for_entity g' entity_id =
    get_relations_for_entity g entity_id ++
    List.filter (fun r => String.eqb (GraphRelation.source_entity_id r) entity_id
                          || String.eqb (GraphRelation.target_entity_id r) entity_id)
                (added_relations ops).
Proof.
  intros g'. unfold get_entity_by_id, get_entities_by_type, get_relations_for_entity.
  unfold g'. rewrite run_entities, run_relations.
  split; [apply find_app |]. split; [| split; [| split]].
  - intros e He. apply List.find_some in He as [Hin Heq].
    apply String.eqb_eq in Heq. auto.
  - split.
    + intros Hnone. apply Forall_forall. intros e He Heq.
      apply list_elem_of_In in He.
      pose proof (List.find_none _ _ Hnone e He) as Hf. cbv beta in Hf.
      apply String.eqb_neq in Hf. contradiction.
    + intros Hall. destruct (List.find _ _) as [e |] eqn:Hf; [| reflexivity].
      apply List.find_some in Hf as [Hin Heq]. apply String.eqb_eq in Heq.
      apply list_elem_of_In in Hin.
      pose proof (proj1 (Forall_forall _ _) Hall e Hin) as Hne. contradiction.
  - apply List.filter_app.
  - apply List.filter_app.
Qed.

(** ** The relations of a receipt *)

Lemma of_type_In t entities e :
  In e (of_type t entities) -> In e entities /\ GraphEntity.type e = t.
Proof.
  unfold of_type. intros H. apply List.filter_In in H as [Hin Heq].
  apply String.eqb_eq in Heq. auto.
Qed.

Lemma first_of_type_In t entities e :
  first_of_type t entities = Some e -> In e entities /\ GraphEntity.type e = t.
Proof.
  unfold first_of_type. intros H. apply List.find_some in H as [Hin Heq].
  apply String.eqb_eq in Heq. auto.
Qed.

(** A loop that maps a property of the list so far to the next list keeps
    it, over elements that qualify. *)
Lemma fold_left_inv {A B} (f : A -> B -> A) (Q : B -> Prop) (I : A -> Prop) l a :
  (forall a b, Q b -> I a -> I (f a b)) ->
  Forall Q l -> I a -> I (fold_left f l a).
Proof.
  intros Hstep. revert a. induction l as [| b l IH]; intros a Hl Ha; cbn; [exact Ha |].
  apply Forall_cons in Hl as [Hb Hl]. apply IH; [exact Hl |]. now apply Hstep.
Qed.

Lemma append_relation_ok fresh entities receipt relations s t relation_type weight attributes :
  relations_ok fresh entities receipt relations ->
  In s entities -> In t entities ->
  relation_kind s t
    (GraphRelation.Build (fresh (length relations)) (GraphEntity.id s) (GraphEntity.id t)
       relation_type weight attributes (Some (Receipt.id receipt))) ->
  relations_ok fresh entities receipt
    (append_relation fresh relations (GraphEntity.id s) (GraphEntity.id t) relation_type
       weight attributes (Receipt.id receipt)).
Proof.
  intros [Hall Hids] Hs Ht Hkind. unfold append_relation. split.
  - apply Forall_app. split; [exact Hall |]. constructor; [| constructor].
    split; [reflexivity |]. exists s, t. auto.
  - unfold ids_in_order in *. rewrite List.map_app, length_app. cbn [length map].
    rewrite Nat.add_1_r, seq_S, List.map_app, Hids. reflexivity.
Qed.

Lemma purchased_at_ok fresh entities receipt merchant relations product :
  In merchant entities -> GraphEntity.type merchant = "merchant" ->
  In product entities /\ GraphEntity.type product = "product" ->
  relations_ok fresh entities receipt relations ->
  relations_ok fresh entities receipt (purchased_at fresh receipt merchant relations product).
Proof.
  intros Hm Htm [Hp Htp] Hok. unfold purchased_at.
  apply append_relation_ok; auto. left. cbn. auto.
Qed.

Lemma belongs_to_category_ok fresh entities receipt relations product :
  In product entities /\ GraphEntity.type product = "product" ->
  relations_ok fresh entities receipt relations ->
  relations_ok fresh entities receipt
    (belongs_to_category fresh receipt (of_type "category" entities) relations product).
Proof.
  intros [Hp Htp] Hok. unfold belongs_to_category.
  destruct (List.find _ _) as [category |] eqn:Hf; [| exact Hok].
  apply List.find_some in Hf as [Hin Heq]. apply String.eqb_eq in Heq.
  apply of_type_In in Hin as [Hin Htc].
  apply append_relation_ok; auto. right. left. cbn. auto.
Qed.

Lemma manufactured_by_ok fresh entities receipt relations product :
  In product entities /\ GraphEntity.type product = "product" ->
  relations_ok fresh entities receipt relations ->
  relations_ok fresh entities receipt
    (manufactured_by fresh receipt (of_type "brand" entities) relations product).
Proof.
  intros [Hp Htp] Hok. unfold manufactured_by.
  destruct (List.find _ _) as [brand |] eqn:Hf; [| exact Hok].
  apply List.find_some in Hf as [Hin Hb].
  apply of_type_In in Hin as [Hin Htb].
  apply append_relation_ok; auto. right. right. left. cbn. auto.
Qed.

Lemma products_qualify entities :
  Forall (fun p => In p entities /\ GraphEntity.type p = "product") (of_type "product" entities).
Proof.
  apply Forall_forall. intros p Hp. apply list_elem_of_In in Hp. now apply of_type_In.
Qed.

(** Each loop appends at most one relation for a product. *)
Lemma fold_left_grows {B} (f : list GraphRelation.t -> B -> list GraphRelation.t) l relations :
  (forall rs b, exists extra, f rs b = rs ++ extra /\ (length extra <= 1)%nat) ->
  exists extra,
    fold_left f l relations = relations ++ extra /\ (length extra <= length l)%nat.
Proof.
  intros Hstep. revert relations.
  induction l as [| b l IH]; intros relations; cbn [fold_left length].
  - exists []. now rewrite app_nil_r.
  - destruct (Hstep relations b) as (extra1 & -> & Hlen1).
    destruct (IH (relations ++ extra1)) as (extra & -> & Hlen).
    exists (extra1 ++ extra). rewrite <- app_assoc, length_app. split; [reflexivity | lia].
Qed.

Lemma append_relation_grows fresh relations s t ty w attrs rid :
  exists extra,
    append_relation fresh relations s t ty w attrs rid = relations ++ extra /\
    (length extra <= 1)%nat.
Proof. unfold append_relation. eexists. split; [reflexivity | cbn; lia]. Qed.

Lemma keeps_relations relations :
  exists extra : list GraphRelation.t,
    relations = relations ++ extra /\ (length extra <= 1)%nat.
Proof. exists []. rewrite app_nil_r. cbn. split; [reflexivity | lia]. Qed.

Lemma purchased_at_grows fresh receipt merchant relations product :
  exists extra,
    purchased_at fresh receipt merchant relations product = relations ++ extra /\
    (length extra <= 1)%nat.
Proof. apply append_relation_grows. Qed.

Lemma belongs_to_category_grows fresh receipt categories relations product :
  exists extra,
    belongs_to_category fresh receipt categories relations product = relations ++ extra /\
    (length extra <= 1)%nat.
Proof.
  unfold belongs_to_category.
  destruct (List.find _ _); [apply append_relation_grows | apply keeps_relations].
Qed.

Lemma manufactured_by_grows fresh receipt brands relations product :
  exists extra,
    manufactured_by fresh receipt brands relations product = relations ++ extra /\
    (length extra <= 1)%nat.
Proof.
  unfold manufactured_by.
  destruct (List.find _ _); [apply append_relation_grows | apply keeps_relations].
Qed.

(** The first loop links every product to the merchant. *)
Lemma purchased_at_links fresh receipt merchant products relations product :
  In product products ->
  links (fold_left (purchased_at fresh receipt merchant) products relations)
        product merchant "purchased_at".
Proof.
  revert relations. induction products as [| p products IH]; intros relations Hin; [destruct Hin |].
  cbn [fold_left]. destruct Hin as [-> | Hin]; [| now apply IH].
  destruct (fold_left_grows (purchased_at fresh receipt merchant) products
              (purchased_at fresh receipt merchant relations product)
              (purchased_at_grows fresh receipt merchant)) as (extra & -> & _).
  unfold purchased_at at 1, append_relation.
  eexists. split; [apply in_or_app; left; apply in_or_app; right; left; reflexivity |].
  cbn. auto.
Qed.

Lemma links_app relations extra s t ty :
  links relations s t ty -> links (relations ++ extra) s t ty.
Proof.
  intros (r & Hin & H). exists r. split; [apply in_or_app; now left | exact H].
Qed.

Lemma relation_ok_endpoints entities receipt r :
  relation_ok entities receipt r -> endpoints_in entities r.
Proof.
  intros (_ & s & t & Hs & Ht & Hsrc & Htgt & _). unfold endpoints_in.
  rewrite Hsrc, Htgt. split; now apply in_map.
Qed.

(** The second loop links a product to the first category entity of its
    category's name. *)
Lemma belongs_to_category_links fresh receipt categories products relations product category :
  In product products ->
  List.find (fun c => String.eqb (GraphEntity.name c) (category_or_other product)) categories
    = Some category ->
  links (fold_left (belongs_to_category fresh receipt categories) products relations)
        product category "belongs_to_category".
Proof.
  intros Hin Hfind. revert relations Hin.
  induction products as [| p products IH]; intros relations Hin; [destruct Hin |].
  cbn [fold_left]. destruct Hin as [-> | Hin]; [| now apply IH].
  destruct (fold_left_grows (belongs_to_category fresh receipt categories) products
              (belongs_to_category fresh receipt categories relations product)
              (belongs_to_category_grows fresh receipt categories)) as (extra & -> & _).
  unfold belongs_to_category at 1. rewrite Hfind. unfold append_relation.
  eexists. split; [apply in_or_app; left; apply in_or_app; right; left; reflexivity |].
  cbn. auto.
Qed.

(** What [_create_relationships] returns, loop by loop. *)
Lemma create_relationships_spec (fresh : nat -> string) (entities : list GraphEntity.t)
    (receipt : Receipt.t) :
  let relations := _create_relationships fresh entities receipt in
  Forall (relation_ok entities receipt) relations /\
  ids_in_order fresh relations /\
  (forall merchant product,
      first_of_type "merchant" entities = Some merchant ->
      In product entities -> GraphEntity.type product = "product" ->
      links relations product merchant "purchased_at") /\
  (forall product category,
      In product entities -> GraphEntity.type product = "product" ->
      List.find (fun c => String.eqb (GraphEntity.name c) (category_or_other product))
                (of_type "category" entities) = Some category ->
      links relations product category "belongs_to_category") /\
  (length relations <= 3 * length (of_type "product" entities) + 2)%nat.
Proof.
  intros relations. unfold _create_relationships in relations.
  set (products := of_type "product" entities) in *.
  set (categories := of_type "category" entities) in *.
  set (brands := of_type "brand" entities) in *.
  set (rs1 := match first_of_type "merchant" entities with
              | Some merchant => fold_left (purchased_at fresh receipt merchant) products []
              | None => []
              end) in *.
  set (rs2 := fold_left (belongs_to_category fresh receipt categories) products rs1) in *.
  set (rs3 := fold_left (manufactured_by fresh receipt brands) products rs2) in *.
  set (rs4 := match first_of_type "merchant" entities, first_of_type "location" entities with
              | Some merchant, Some location =>
                  append_relation fresh rs3 (GraphEntity.id merchant) (GraphEntity.id location)
                    "located_at" 1 [] (Receipt.id receipt)
              | _, _ => rs3
              end) in *.
  assert (Hq := products_qualify entities). fold products in Hq.
  (* the invariant *)
  assert (H1 : relations_ok fresh entities receipt rs1).
  { unfold rs1. destruct (first_of_type "merchant" entities) as [m |] eqn:Hm.
    - apply first_of_type_In in Hm as [Hm Htm].
      apply (fold_left_inv _ _ (relations_ok fresh entities receipt) _ _
               (fun a b Hb Ha => purchased_at_ok fresh entities receipt m a b Hm Htm Hb Ha) Hq).
      split; [constructor | reflexivity].
    - split; [constructor | reflexivity]. }
  assert (H2 : relations_ok fresh entities receipt rs2).
  { apply (fold_left_inv _ _ (relations_ok fresh entities receipt) _ _
             (fun a b Hb Ha => belongs_to_category_ok fresh entities receipt a b Hb Ha) Hq H1). }
  assert (H3 : relations_ok fresh entities receipt rs3).
  { apply (fold_left_inv _ _ (relations_ok fresh entities receipt) _ _
             (fun a b Hb Ha => manufactured_by_ok fresh entities receipt a b Hb Ha) Hq H2). }
  assert (H4 : relations_ok fresh entities receipt rs4).
  { unfold rs4. destruct (first_of_type "merchant" entities) as [m |] eqn:Hm; [| exact H3].
    destruct (first_of_type "location" entities) as [l |] eqn:Hl; [| exact H3].
    apply first_of_type_In in Hm as [Hm Htm]. apply first_of_type_In in Hl as [Hl Htl].
    apply append_relation_ok; auto. do 3 right. left. cbn. auto. }
  assert (H5 : relations_ok fresh entities receipt relations).
  { unfold relations.
    destruct (first_of_type "payment_method" entities) as [p |] eqn:Hp; [| exact H4].
    destruct (first_of_type "merchant" entities) as [m |] eqn:Hm; [| exact H4].
    apply first_of_type_In in Hm as [Hm Htm]. apply first_of_type_In in Hp as [Hp Htp].
    apply append_relation_ok; auto. do 4 right. cbn. auto. }
  (* the lists grow *)
  assert (G1 : (length rs1 <= length products)%nat).
  { unfold rs1. destruct (first_of_type "merchant" entities) as [m |]; [| cbn; lia].
    destruct (fold_left_grows (purchased_at fresh receipt m) products []
                (purchased_at_grows fresh receipt m)) as (extra & -> & Hlen).
    exact Hlen. }
  destruct (fold_left_grows (belongs_to_category fresh receipt categories) products rs1
              (belongs_to_category_grows fresh receipt categories)) as (e2 & G2 & L2).
  fold rs2 in G2.
  destruct (fold_left_grows (manufactured_by fresh receipt brands) products rs2
              (manufactured_by_grows fresh receipt brands)) as (e3 & G3 & L3).
  fold rs3 in G3.
  assert (G4 : exists e4, rs4 = rs3 ++ e4 /\ (length e4 <= 1)%nat).
  { unfold rs4. destruct (first_of_type "merchant" entities) as [m |];
      [| apply keeps_relations].
    destruct (first_of_type "location" entities) as [l |];
      [apply append_relation_grows | apply keeps_relations]. }
  destruct G4 as (e4 & G4 & L4).
  assert (G5 : exists e5, relations = rs4 ++ e5 /\ (length e5 <= 1)%nat).
  { unfold relations. destruct (first_of_type "payment_method" entities) as [p |];
      [| apply keeps_relations].
    destruct (first_of_type "merchant" entities) as [m |];
      [apply append_relation_grows | apply keeps_relations]. }
  destruct G5 as (e5 & G5 & L5).
  destruct H5 as [Hall Hids].
  split; [exact Hall |]. split; [exact Hids |]. split; [| split].
  - intros merchant product Hm Hin Hty.
    rewrite G5, G4, G3, G2. do 4 apply links_app.
    unfold rs1. rewrite Hm. apply purchased_at_links.
    unfold products, of_type. apply List.filter_In. split; [exact Hin |].
    now apply String.eqb_eq.
  - intros product category Hin Hty Hfind.
    rewrite G5, G4, G3. do 3 apply links_app.
    unfold rs2. apply belongs_to_category_links; [| exact Hfind].
    unfold products, of_type. apply List.filter_In. split; [exact Hin |].
    now apply String.eqb_eq.
  - rewrite G5, G4, G3, G2, !length_app. lia.
Qed.

(** X9. The relations that [_create_relationships] returns for any list of
    entities: each one goes from a product or the merchant of the list to an
    entity of the list, is of one of the five kinds with the types of its
    endpoints and the weight of its kind, and carries the receipt's id; their
    identifiers are the ones drawn, in order.  When the list has a merchant,
    every product of the list is linked to the first merchant by a
    [purchased_at] relation; a product is linked to the first category entity
    that has the name of its category, or the name other when it has none.
    There are at most three relations for each product, and two more. *)
Theorem create_relationships_ok (fresh : nat -> string) (entities : list GraphEntity.t)
    (receipt : Receipt.t) :
  let relations := _create_relationships fresh entities receipt in
  Forall (relation_ok entities receipt) relations /\
  Forall (endpoints_in entities) relations /\
  ids_in_order fresh relations /\
  (forall merchant product,
      first_of_type "merchant" entities = Some merchant ->
      In product entities -> GraphEntity.type product = "product" ->
      links relations product merchant "purchased_at") /\
  (forall product category,
      In product entities -> GraphEntity.type product = "product" ->
      List.find (fun c => String.eqb (GraphEntity.name c) (category_or_other product))
                (of_type "category" entities) = Some category ->
      links relations product category "belongs_to_category") /\
  (length relations <= 3 * length (of_type "product" entities) + 2)%nat.
Proof.
  intros relations.
  destruct (create_relationships_spec fresh entities receipt) as (Hall & Hids & Hm & Hc & Hlen).
  fold relations in Hall, Hids, Hm, Hc, Hlen.
  split; [exact Hall |]. split; [| auto].
  eapply Forall_impl; [exact Hall |]. intros r Hr.
  exact (relation_ok_endpoints entities receipt r Hr).
Qed.

(** ** The graph of a receipt *)

Lemma valid_opt_str_some env v s :
  valid_opt_str env v = ok (Some s) -> valid_str env v = ok s.
Proof.
  unfold valid_opt_str.
  destruct v; try discriminate;
    (destruct (valid_str env _) as [e | s'] eqn:Hv; cbn; [discriminate |];
     intros H; injection H as <-; reflexivity).
Qed.

(** What one pair of an item and its classification adds: a product entity
    and, behind it, entities that are no products, among them a category
    entity that has the name of the product's category. *)
Lemma item_entities_category env entities it c out :
  item_entities env entities (it, c) = ok out ->
  exists product rest,
    out = entities ++ product :: rest /\
    GraphEntity.type product = "product" /\
    Forall (fun e => GraphEntity.type e <> "product") rest /\
    forall s, GraphEntity.category product = Some s ->
              exists category,
                In category rest /\ GraphEntity.type category = "category" /\
                GraphEntity.name category = s.
Proof.
  intros H. unfold item_entities in H.
  bind_inv H attributes Hattributes.
  bind_inv H name Hname.
  bind_inv H category_v Hcategory_v.
  bind_inv H category Hcategory.
  bind_inv H confidence_v Hconfidence_v.
  bind_inv H confidence Hconfidence.
  bind_inv H brand_name Hbrand_name.
  bind_inv H entities2 Hentities2.
  bind_inv H category_name_v Hcategory_name_v.
  bind_inv H category_name Hcategory_name.
  bind_inv H brand Hbrand.
  rewrite Hcategory_v in Hcategory_name_v. injection Hcategory_name_v as <-.
  assert (Hcat : forall s, category = Some s -> category_name = s).
  { intros s ->. apply valid_opt_str_some in Hcategory.
    rewrite Hcategory in Hcategory_name. now injection Hcategory_name as <-. }
  exists (GraphEntity.Build (uuid4 env (length entities)) name "product" category
            attributes confidence).
  destruct (truthy brand_name) eqn:Htruthy.
  - bind_inv Hentities2 b1 Hb1. injection Hentities2 as <-.
    rewrite Hbrand_name in Hbrand. injection Hbrand as <-. rewrite Htruthy in H.
    bind_inv H b2 Hb2. bind_inv H product Hproduct. injection H as <-.
    eexists. split; [rewrite <- !app_assoc; cbn [app]; reflexivity |].
    split; [reflexivity |]. split; [repeat constructor; cbn; discriminate |].
    intros s Hs. cbn in Hs. apply Hcat in Hs. subst s.
    eexists. split; [right; left; reflexivity |]. split; reflexivity.
  - injection Hentities2 as <-.
    rewrite Hbrand_name in Hbrand. injection Hbrand as <-. rewrite Htruthy in H.
    injection H as <-.
    eexists. split; [rewrite <- !app_assoc; cbn [app]; reflexivity |].
    split; [reflexivity |]. split; [repeat constructor; cbn; discriminate |].
    intros s Hs. cbn in Hs. apply Hcat in Hs. subst s.
    eexists. split; [left; reflexivity |]. split; reflexivity.
Qed.

(** The loop over the pairs extends the list, and every product that it adds
    comes with a category entity of the name of its category. *)
Lemma assembled_products env pairs ents0 ents :
  foldM (item_entities env) pairs ents0 = ok ents ->
  exists rest,
    ents = ents0 ++ rest /\
    forall product,
      In product rest -> GraphEntity.type product = "product" ->
      forall s, GraphEntity.category product = Some s ->
                exists category,
                  In category rest /\ GraphEntity.type category = "category" /\
                  GraphEntity.name category = s.
Proof.
  revert ents0. induction pairs as [| [it c] pairs IH]; intros ents0 H; cbn in H.
  - injection H as <-. exists []. rewrite app_nil_r. split; [reflexivity | intros p []].
  - apply ebind_ok in H as (ents1 & H1 & H).
    apply item_entities_category in H1 as (product & rest1 & -> & Hty & Hrest1 & Hcat).
    apply IH in H as (rest & -> & Hrest).
    exists ((product :: rest1) ++ rest). split; [now rewrite <- app_assoc |].
    intros p Hp Hpty s Hs. apply in_app_or in Hp as [[<- | Hp] | Hp].
    + destruct (Hcat s Hs) as (cat & Hin & Htc & Hn).
      exists cat. split; [apply in_or_app; left; now right | auto].
    + exfalso. apply list_elem_of_In in Hp.
      exact (proj1 (Forall_forall _ _) Hrest1 p Hp Hpty).
    + destruct (Hrest p Hp Hpty s Hs) as (cat & Hin & Htc & Hn).
      exists cat. split; [apply in_or_app; now right | auto].
Qed.

Lemma header_entities_head env receipt :
  exists merchant rest,
    header_entities env receipt = merchant :: rest /\
    GraphEntity.type merchant = "merchant" /\
    GraphEntity.name merchant = Receipt.merchant_name receipt.
Proof.
  unfold header_entities.
  destruct (Receipt.merchant_address receipt) as [address |];
    destruct (Receipt.payment_method receipt) as [method |];
    repeat match goal with |- context [if ?b then _ else _] => destruct b end;
    cbn; eexists _, _; split; reflexivity || (split; reflexivity).
Qed.

Lemma replace_char_chars a b s :
  Str.chars (replace_char a b s) = map (fun c => if Ascii.eqb c a then b else c) (Str.chars s).
Proof. unfold replace_char. apply chars_of_chars. Qed.

(** The part of a graph's name that comes from the merchant: at most 20
    characters, none of them a blank, a slash or a backslash. *)
Lemma merchant_clean_ok merchant_name :
  (Str.len (merchant_clean merchant_name) <= 20)%nat /\
  Forall (fun c => c <> " "%char /\ c <> "/"%char /\ c <> "\"%char)
         (Str.chars (merchant_clean merchant_name)).
Proof.
  unfold merchant_clean, Str.slice. rewrite len_chars, chars_of_chars. cbn [Nat.sub skipn].
  split; [rewrite length_firstn; lia |].
  rewrite !replace_char_chars.
  apply Forall_forall. intros c Hc. apply list_elem_of_In in Hc.
  assert (Hc' : In c (map (fun c => if Ascii.eqb c "\"%char then "_"%char else c)
                        (map (fun c => if Ascii.eqb c "/"%char then "_"%char else c)
                           (map (fun c => if Ascii.eqb c " "%char then "_"%char else c)
                              (Str.chars merchant_name))))).
  { rewrite <- (firstn_skipn 20 (map _ _)). apply in_or_app. now left. }
  clear Hc. rewrite !List.map_map in Hc'. apply in_map_iff in Hc' as (c0 & <- & _).
  destruct (Ascii.eqb_spec c0 " "%char) as [-> | H1]; [cbn; repeat split; discriminate |].
  destruct (Ascii.eqb_spec c0 "/"%char) as [-> | H2]; [cbn; repeat split; discriminate |].
  destruct (Ascii.eqb_spec c0 "\"%char) as [-> | H3]; [cbn; repeat split; discriminate |].
  auto.
Qed.

(** X10. The graph that [build_graph_from_receipt] returns is well formed:
    it carries the identifier drawn for it, a name made of the date and of at
    most 20 characters of the merchant's name without blank, slash and
    backslash, the receipt's id and the user's; its counters agree with its
    lists; its entities are those of [_extract_entities_from_receipt], the
    merchant first; every relation links two entities of the graph; every
    product is linked to the merchant, and every product with a category is
    linked to a category entity of that name. *)
Theorem built_graph_well_formed (env : Env) (graph_id : string) (fresh : nat -> string)
    (date_str : string) (receipt : Receipt.t) (g : KnowledgeGraph.t) :
  build_graph_from_receipt env graph_id fresh date_str receipt = ok g ->
  KnowledgeGraph.id g = graph_id /\
  (KnowledgeGraph.name g
   = date_str ++ "_" ++ merchant_clean (Receipt.merchant_name receipt))%string /\
  (Str.len (merchant_clean (Receipt.merchant_name receipt)) <= 20)%nat /\
  Forall (fun c => c <> " "%char /\ c <> "/"%char /\ c <> "\"%char)
         (Str.chars (merchant_clean (Receipt.merchant_name receipt))) /\
  KnowledgeGraph.receipt_ids g = [Receipt.id receipt] /\
  KnowledgeGraph.user_id g = Some (Receipt.user_id receipt) /\
  KnowledgeGraph.counters_ok g /\
  _extract_entities_from_receipt env receipt = ok (KnowledgeGraph.entities g) /\
  Forall (endpoints_in (KnowledgeGraph.entities g)) (KnowledgeGraph.relations g) /\
  exists merchant,
    head (KnowledgeGraph.entities g) = Some merchant /\
    GraphEntity.type merchant = "merchant" /\
    GraphEntity.name merchant = Receipt.merchant_name receipt /\
    forall product,
      In product (KnowledgeGraph.entities g) -> GraphEntity.type product = "product" ->
      links (KnowledgeGraph.relations g) product merchant "purchased_at" /\
      forall s,
        GraphEntity.category product = Some s -> s <> EmptyString ->
        exists category,
          In category (KnowledgeGraph.entities g) /\
          GraphEntity.type category = "category" /\
          GraphEntity.name category = s /\
          links (KnowledgeGraph.relations g) product category "belongs_to_category".
Proof.
  intros H. unfold build_graph_from_receipt in H.
  bind_inv H entities Hentities. injection H as <-.
  set (g0 := KnowledgeGraph.create _ _ _ _ _).
  set (g1 := fold_left (fun g e => KnowledgeGraph.add_entity e g) entities g0).
  set (relations := _create_relationships fresh entities receipt).
  destruct (add_entities_spec entities g0) as (He1 & Hr1 & Hc1).
  destruct (add_entities_head entities g0) as (Hi1 & Hn1 & Hrc1 & Hu1).
  fold g1 in He1, Hr1, Hc1, Hi1, Hn1, Hrc1, Hu1.
  destruct (add_relations_spec relations g1) as (He2 & Hr2 & _ & Hc2).
  destruct (add_relations_head relations g1) as (Hi2 & Hn2 & Hrc2 & Hu2).
  cbv zeta in He2, Hr2, Hc2, Hi2, Hn2, Hrc2, Hu2.
  rewrite Hi2, Hn2, Hrc2, Hu2, He2, Hr2, Hi1, Hn1, Hrc1, Hu1, He1, Hr1.
  cbn [g0 KnowledgeGraph.create KnowledgeGraph.id KnowledgeGraph.name
       KnowledgeGraph.receipt_ids KnowledgeGraph.user_id KnowledgeGraph.entities
       KnowledgeGraph.relations app].
  destruct (merchant_clean_ok (Receipt.merchant_name receipt)) as [Hlen Hchars].
  destruct (create_relationships_spec fresh entities receipt) as (Hall & _ & Hm & Hcl & _).
  fold relations in Hall, Hm, Hcl.
  split; [reflexivity |]. split; [reflexivity |]. split; [exact Hlen |].
  split; [exact Hchars |]. split; [reflexivity |]. split; [reflexivity |].
  split; [apply Hc2, Hc1; split; reflexivity |].
  split; [exact Hentities |].
  split.
  { eapply Forall_impl; [exact Hall |]. intros r Hr.
    exact (relation_ok_endpoints entities receipt r Hr). }
  (* the shape of the entities *)
  destruct (header_entities_head env receipt) as (merchant & hrest & Hhead & Hmty & Hmname).
  assert (Hshape : exists rest,
             entities = header_entities env receipt ++ rest /\
             forall product,
               In product rest -> GraphEntity.type product = "product" ->
               forall s, GraphEntity.category product = Some s ->
                         exists category,
                           In category rest /\ GraphEntity.type category = "category" /\
                           GraphEntity.name category = s).
  { apply extract_entities_inv in Hentities as (its & _ & [[_ ->] | (_ & cs & _ & Hfold)]).
    - exists []. rewrite app_nil_r. split; [reflexivity | intros p []].
    - now apply assembled_products in Hfold. }
  destruct Hshape as (rest & Hents & Hprod).
  exists merchant. split; [rewrite Hents, Hhead; reflexivity |].
  split; [exact Hmty |]. split; [exact Hmname |].
  intros product Hin Hty.
  assert (Hfirst : first_of_type "merchant" entities = Some merchant).
  { rewrite Hents, Hhead. unfold first_of_type. cbn [app List.find]. now rewrite Hmty. }
  split; [now apply Hm |].
  intros s Hs Hne.
  assert (Hin' : In product rest).
  { rewrite Hents in Hin. apply in_app_or in Hin as [Hin | Hin]; [| exact Hin].
    exfalso. apply list_elem_of_In in Hin.
    exact (proj1 (proj1 (Forall_forall _ _) (header_entities_plain env receipt) product Hin)
                 Hty). }
  destruct (Hprod product Hin' Hty s Hs) as (cat & Hcin & Hcty & Hcname).
  assert (Hco : category_or_other product = s).
  { unfold category_or_other. rewrite Hs. cbn.
    destruct (String.eqb_spec s EmptyString); [contradiction | reflexivity]. }
  destruct (List.find (fun c => String.eqb (GraphEntity.name c) (category_or_other product))
                      (of_type "category" entities)) as [cat' |] eqn:Hfind.
  - pose proof (Hcl product cat' Hin Hty Hfind) as Hlink.
    apply List.find_some in Hfind as [Hin2 Heq]. apply String.eqb_eq in Heq.
    apply of_type_In in Hin2 as [Hin2 Hty2].
    exists cat'. rewrite <- Hco. auto.
  - exfalso.
    assert (Hcat_in : In cat (of_type "category" entities)).
    { unfold of_type. apply List.filter_In. split.
      - rewrite Hents. apply in_or_app. now right.
      - now apply String.eqb_eq. }
    pose proof (List.find_none _ _ Hfind cat Hcat_in) as Hf. cbv beta in Hf.
    rewrite Hco, Hcname, String.eqb_refl in Hf. discriminate.
Qed.

Lemma built_graph_well_formed_witness :
  exists g,
    build_graph_from_receipt offline_env "graph-1"
      (fun k => ("rel-" ++ pretty.pretty k)%string) "2025-07-22" scenario_receipt = ok g /\
    KnowledgeGraph.name g = "2025-07-22_Big_Mart" /\
    KnowledgeGraph.counters_ok g /\
    length (KnowledgeGraph.entities g) = 5%nat /\
    length (KnowledgeGraph.relations g) = 4%nat /\
    Forall (endpoints_in (KnowledgeGraph.entities g)) (KnowledgeGraph.relations g).
Proof.
  destruct (build_graph_from_receipt offline_env "graph-1"
              (fun k => ("rel-" ++ pretty.pretty k)%string) "2025-07-22" scenario_receipt)
    as [e | g] eqn:Hg; [vm_compute in Hg; discriminate |].
  exists g. split; [reflexivity |].
  destruct (built_graph_well_formed _ _ _ _ _ _ Hg) as (_ & _ & _ & _ & _ & _ & Hc & _ & He & _).
  vm_compute in Hg. injection Hg as <-.
  split; [reflexivity |]. split; [exact Hc |]. split; [reflexivity |].
  split; [reflexivity | exact He].
Defined.

(** ** Dictionaries with string keys *)

Lemma assoc_set_key_eq {V} k (v : V) d : assoc String.eqb k (set_key k v d) = Some v.
Proof.
  induction d as [| [k' v'] d IH]; cbn.
  - now rewrite String.eqb_refl.
  - destruct (String.eqb k k') eqn:E; cbn; [now rewrite String.eqb_refl | now rewrite E].
Qed.

Lemma assoc_set_key_neq {V} k k' (v : V) d :
  k' <> k -> assoc String.eqb k' (set_key k v d) = assoc String.eqb k' d.
Proof.
  intros Hne. induction d as [| [k1 v1] d IH]; cbn.
  - destruct (String.eqb_spec k' k); [contradiction | reflexivity].
  - destruct (String.eqb_spec k k1) as [-> | Hk]; cbn.
    + destruct (String.eqb_spec k' k1); [contradiction | reflexivity].
    + destruct (String.eqb k' k1); [reflexivity | exact IH].
Qed.

Lemma set_key_keys {V} k (v : V) d :
  map fst (set_key k v d) =
  match assoc String.eqb k d with
  | Some _ => map fst d
  | None => map fst d ++ [k]
  end.
Proof.
  induction d as [| [k1 v1] d IH]; cbn; [reflexivity |].
  destruct (String.eqb_spec k k1) as [-> | Hk]; cbn; [reflexivity |].
  rewrite IH. destruct (assoc String.eqb k d); reflexivity.
Qed.

Lemma set_key_nodup {V} k (v : V) d :
  NoDup (map fst d) -> NoDup (map fst (set_key k v d)).
Proof.
  intros Hd. rewrite set_key_keys. destruct (assoc String.eqb k d) eqn:Ha; [exact Hd |].
  apply NoDup_app. split; [exact Hd |]. split; [| apply NoDup_singleton].
  intros x Hx Hx'. apply list_elem_of_singleton in Hx'. subst x.
  apply list_elem_of_In in Hx.
  exact (assoc_None_notin String.eqb k d String.eqb_refl Ha Hx).
Qed.

Lemma sum_set_key k v d :
  sum_counts (set_key k v d) =
  sum_counts d - match assoc String.eqb k d with Some n => n | None => 0 end + v.
Proof.
  unfold sum_counts. induction d as [| [k1 v1] d IH]; cbn; [lia |].
  destruct (String.eqb k k1); cbn; [lia |]. rewrite IH. lia.
Qed.

(** A loop of assignments [d[key(a)] = val(a)]: the last element with a key
    decides its value. *)
Lemma fold_set_key_last {A V} (key : A -> string) (val : A -> V) (l : list A) d0 n :
  assoc String.eqb n (fold_left (fun d a => set_key (key a) (val a) d) l d0) =
  match List.find (fun a => String.eqb (key a) n) (rev l) with
  | Some a => Some (val a)
  | None => assoc String.eqb n d0
  end.
Proof.
  revert d0. induction l as [| a l IH]; intros d0; cbn [fold_left rev List.find];
    [reflexivity |].
  rewrite IH, find_app. destruct (List.find _ (rev l)); [reflexivity |].
  cbn [List.find]. destruct (String.eqb_spec (key a) n) as [<- | Hne].
  - apply assoc_set_key_eq.
  - apply assoc_set_key_neq. congruence.
Qed.

Lemma fold_set_key_nodup {A V} (key : A -> string) (val : A -> V) (l : list A) d0 :
  NoDup (map fst d0) ->
  NoDup (map fst (fold_left (fun d a => set_key (key a) (val a) d) l d0)).
Proof.
  revert d0. induction l as [| a l IH]; intros d0 H; cbn [fold_left]; [exact H |].
  apply IH. now apply set_key_nodup.
Qed.

(** ** The analysis of a graph *)

Lemma analyze_inv graph_id graph a :
  analyze graph_id graph = ok a ->
  exists product_counts merchant_counts,
    foldM count_product (get_entities_by_type graph "product") [] = ok product_counts /\
    foldM (count_merchant graph) (get_entities_by_type graph "merchant") []
      = ok merchant_counts /\
    a = GraphAnalytics.Build graph_id
          (firstn 10 (sorted_desc ProductCount.count (map snd product_counts)))
          (firstn 10 (sorted_desc MerchantCount.visit_count (map snd merchant_counts)))
          (fold_left (count_category graph) (get_entities_by_type graph "category") [])
          []
          (fold_left count_relation_type (KnowledgeGraph.relations graph) [])
          [] []
          (Z.of_nat (length (KnowledgeGraph.receipt_ids graph))).
Proof.
  unfold analyze. intros H.
  bind_inv H product_counts Hp. bind_inv H merchant_counts Hm. injection H as <-.
  eauto.
Qed.

Lemma analyze_graph_inv db graph_id a :
  analyze_graph db graph_id = ok a ->
  exists graph, assoc String.eqb graph_id db = Some graph /\ analyze graph_id graph = ok a.
Proof.
  unfold analyze_graph. destruct (assoc String.eqb graph_id db) as [graph |];
    [eauto | discriminate].
Qed.

Lemma occurrences_snoc t rs r :
  occurrences t (rs ++ [r]) =
  (occurrences t rs + if String.eqb (GraphRelation.relation_type r) t then 1 else 0)%nat.
Proof.
  unfold occurrences. rewrite List.filter_app, length_app. cbn.
  destruct (String.eqb _ t); reflexivity.
Qed.

(** The loop over the relations counts each type. *)
Lemma count_relation_types_spec rs :
  let d := fold_left count_relation_type rs [] in
  NoDup (map fst d) /\
  (forall t, assoc String.eqb t d =
             if (occurrences t rs =? 0)%nat then None else Some (Z.of_nat (occurrences t rs))) /\
  sum_counts d = Z.of_nat (length rs).
Proof.
  induction rs as [| r rs IH] using rev_ind; cbn zeta.
  - cbn. split; [constructor |]. split; reflexivity.
  - rewrite fold_left_app. cbn [fold_left]. cbv zeta in IH.
    set (d := fold_left count_relation_type rs []) in *.
    destruct IH as (Hnd & Hassoc & Hsum). unfold count_relation_type.
    split; [now apply set_key_nodup |]. split.
    + intros t. rewrite occurrences_snoc.
      destruct (String.eqb_spec (GraphRelation.relation_type r) t) as [<- | Hne].
      * rewrite assoc_set_key_eq, Hassoc.
        replace (occurrences (GraphRelation.relation_type r) rs + 1 =? 0)%nat with false
          by (symmetry; apply Nat.eqb_neq; lia).
        destruct (Nat.eqb_spec (occurrences (GraphRelation.relation_type r) rs) 0) as [-> | _];
          f_equal; lia.
      * rewrite assoc_set_key_neq by congruence. rewrite Nat.add_0_r. apply Hassoc.
    + rewrite sum_set_key, Hsum, length_app. cbn [length].
      destruct (assoc String.eqb (GraphRelation.relation_type r) d); lia.
Qed.

(** X11. In the analysis of a stored graph, [relation_type_counts] has one
    entry for every relation type that occurs in the graph, in the order of
    first occurrence, with the number of relations of that type: the counts
    add up to the number of relations, and a type that does not occur has no
    entry.  [total_receipts_analyzed] is the number of receipt ids of the
    graph, and the identifier of the analysis is the one asked for. *)
Theorem relation_type_counts_ok (db : store) (graph_id : string) (a : GraphAnalytics.t) :
  analyze_graph db graph_id = ok a ->
  exists graph,
    assoc String.eqb graph_id db = Some graph /\
    NoDup (map fst (GraphAnalytics.relation_type_counts a)) /\
    (forall t,
        assoc String.eqb t (GraphAnalytics.relation_type_counts a) =
        if (occurrences t (KnowledgeGraph.relations graph) =? 0)%nat then None
        else Some (Z.of_nat (occurrences t (KnowledgeGraph.relations graph)))) /\
    sum_counts (GraphAnalytics.relation_type_counts a)
      = Z.of_nat (length (KnowledgeGraph.relations graph)) /\
    GraphAnalytics.total_receipts_analyzed a
      = Z.of_nat (length (KnowledgeGraph.receipt_ids graph)) /\
    GraphAnalytics.graph_id a = graph_id.
Proof.
  intros H. apply analyze_graph_inv in H as (graph & Hdb & H).
  apply analyze_inv in H as (pcs & mcs & _ & _ & ->).
  exists graph. split; [exact Hdb |]. cbn.
  destruct (count_relation_types_spec (KnowledgeGraph.relations graph)) as (H1 & H2 & H3).
  auto.
Qed.

(** X12. In the analysis of a stored graph, [category_distribution] has one
    entry for every name of a category entity, and the value is the number of
    [belongs_to_category] relations that touch the last category entity of
    that name: an earlier category entity of the same name is overwritten,
    with the relations counted for it. *)
Theorem category_distribution_ok (db : store) (graph_id : string) (a : GraphAnalytics.t) :
  analyze_graph db graph_id = ok a ->
  exists graph,
    assoc String.eqb graph_id db = Some graph /\
    NoDup (map fst (GraphAnalytics.category_distribution a)) /\
    forall n,
      assoc String.eqb n (GraphAnalytics.category_distribution a) =
      match last_named n (get_entities_by_type graph "category") with
      | Some category =>
          Some (Z.of_nat (length (relations_of_type graph (GraphEntity.id category)
                                                    "belongs_to_category")))
      | None => None
      end.
Proof.
  intros H. apply analyze_graph_inv in H as (graph & Hdb & H).
  apply analyze_inv in H as (pcs & mcs & _ & _ & ->).
  exists graph. split; [exact Hdb |]. cbn [GraphAnalytics.category_distribution].
  split.
  - apply (fold_set_key_nodup GraphEntity.name
             (fun c => Z.of_nat (length (relations_of_type graph (GraphEntity.id c)
                                                           "belongs_to_category")))).
    constructor.
  - intros n. unfold last_named.
    exact (fold_set_key_last GraphEntity.name
             (fun c => Z.of_nat (length (relations_of_type graph (GraphEntity.id c)
                                                           "belongs_to_category")))
             (get_entities_by_type graph "category") [] n).
Qed.

Lemma relation_type_counts_ok_witness :
  exists a,
    analyze_graph built_store "graph-1" = ok a /\
    GraphAnalytics.relation_type_counts a
    = [("purchased_at", 2); ("belongs_to_category", 2)] /\
    sum_counts (GraphAnalytics.relation_type_counts a) = 4.
Proof.
  destruct (analyze_graph built_store "graph-1") as [e | a] eqn:Ha;
    [vm_compute in Ha; discriminate |].
  exists a. split; [reflexivity |].
  destruct (relation_type_counts_ok _ _ _ Ha) as (graph & Hdb & _ & _ & Hsum & _).
  vm_compute in Hdb. injection Hdb as <-.
  split; [| exact Hsum].
  vm_compute in Ha. injection Ha as <-. reflexivity.
Defined.

Lemma category_distribution_ok_witness :
  exists a,
    analyze_graph built_store "graph-1" = ok a /\
    GraphAnalytics.category_distribution a = [("grocery", 0)] /\
    NoDup (map fst (GraphAnalytics.category_distribution a)).
Proof.
  destruct (analyze_graph built_store "graph-1") as [e | a] eqn:Ha;
    [vm_compute in Ha; discriminate |].
  exists a. split; [reflexivity |].
  destruct (category_distribution_ok _ _ _ Ha) as (graph & _ & Hnd & _).
  split; [| exact Hnd].
  vm_compute in Ha. injection Ha as <-. reflexivity.
Defined.

(** ** Sorting, descending and stable *)

Lemma insert_desc_Forall {A} (key : A -> Z) (P : A -> Prop) x l :
  P x -> Forall P l -> Forall P (insert_desc key x l).
Proof.
  intros Hx Hl. induction Hl as [| y l Hy Hl IH]; cbn; [repeat constructor; exact Hx |].
  destruct (key x <=? key y); repeat constructor; auto.
Qed.

Lemma insert_desc_sorted {A} (key : A -> Z) x l :
  StronglySorted (desc key) l -> StronglySorted (desc key) (insert_desc key x l).
Proof.
  induction 1 as [| y l Hs IH Hy]; cbn; [repeat constructor |].
  destruct (Z.leb_spec (key x) (key y)) as [Hle | Hlt].
  - constructor; [exact IH |]. apply insert_desc_Forall; [exact Hle | exact Hy].
  - constructor; [now constructor |]. constructor; [unfold desc; lia |].
    eapply Forall_impl; [exact Hy |]. unfold desc. intros z Hz. lia.
Qed.

Lemma insert_desc_In {A} (key : A -> Z) x l z :
  In z (insert_desc key x l) <-> z = x \/ In z l.
Proof.
  induction l as [| y l IH]; cbn; [intuition congruence |].
  destruct (key x <=? key y); cbn; [rewrite IH |]; intuition congruence.
Qed.

Lemma insert_desc_length {A} (key : A -> Z) x l :
  length (insert_desc key x l) = S (length l).
Proof.
  induction l as [| y l IH]; cbn; [reflexivity |].
  destruct (key x <=? key y); cbn; [now rewrite IH | reflexivity].
Qed.

Lemma insert_desc_nodup {A B} (key : A -> Z) (f : A -> B) x l :
  ~ In (f x) (map f l) -> List.NoDup (map f l) -> List.NoDup (map f (insert_desc key x l)).
Proof.
  induction l as [| y l IH]; cbn; intros Hx Hl; [constructor; [tauto | constructor] |].
  inversion Hl as [| ? ? Hy Hl']; subst.
  destruct (key x <=? key y); cbn.
  - constructor.
    + rewrite in_map_iff. intros (z & Hz & Hin). apply insert_desc_In in Hin as [-> | Hin].
      * apply Hx. now left.
      * apply Hy. rewrite <- Hz. now apply in_map.
    + apply IH; [tauto | exact Hl'].
  - constructor; [exact Hx | exact Hl].
Qed.

Lemma sorted_desc_from {A} (key : A -> Z) values acc :
  StronglySorted (desc key) acc ->
  let sorted := fold_left (fun sorted x => insert_desc key x sorted) values acc in
  StronglySorted (desc key) sorted /\
  (forall z, In z sorted <-> In z acc \/ In z values) /\
  length sorted = (length acc + length values)%nat.
Proof.
  revert acc. induction values as [| x values IH]; intros acc Hacc; cbn.
  - split; [exact Hacc |]. split; [tauto | lia].
  - destruct (IH (insert_desc key x acc) (insert_desc_sorted key x acc Hacc))
      as (Hs & Hin & Hlen).
    split; [exact Hs |]. split.
    + intros z. rewrite Hin, insert_desc_In. intuition congruence.
    + rewrite Hlen, insert_desc_length. lia.
Qed.

Lemma sorted_desc_nodup {A B} (key : A -> Z) (f : A -> B) values acc :
  List.NoDup (map f (acc ++ values)) ->
  List.NoDup (map f (fold_left (fun sorted x => insert_desc key x sorted) values acc)).
Proof.
  revert acc. induction values as [| x values IH]; intros acc H; cbn.
  - now rewrite app_nil_r in H.
  - apply IH. rewrite List.map_app in *. 
    apply List.NoDup_remove in H as [H Hx]. cbn [map] in *.
    assert (Hparts : List.NoDup (map f acc) /\ List.NoDup (map f values) /\
                     forall b, In b (map f acc) -> ~ In b (map f values)).
    { clear Hx. induction (map f acc) as [| b bs IHb]; cbn in *.
      - split; [constructor | split; [exact H | tauto]].
      - inversion H as [| ? ? Hb Hbs]; subst. destruct (IHb Hbs) as (H1 & H2 & H3).
        split; [constructor; [| exact H1] |].
        + intros Hin. apply Hb. apply in_or_app. now left.
        + split; [exact H2 |]. intros b' [<- | Hb'] Hv.
          * apply Hb. apply in_or_app. now right.
          * exact (H3 b' Hb' Hv). }
    destruct Hparts as (Ha & Hv & Hdisj).
    assert (Hnew : List.NoDup (map f (insert_desc key x acc))).
    { apply insert_desc_nodup; [| exact Ha]. intros Hin. apply Hx.
      apply in_or_app. now left. }
    clear IH H. 
    assert (Hdisj' : forall b, In b (map f (insert_desc key x acc)) -> ~ In b (map f values)).
    { intros b Hb Hbv. apply in_map_iff in Hb as (z & <- & Hz).
      apply insert_desc_In in Hz as [-> | Hz].
      - apply Hx. apply in_or_app. now right.
      - exact (Hdisj (f z) (in_map f _ _ Hz) Hbv). }
    revert Hnew Hdisj'. generalize (map f (insert_desc key x acc)).
    intros l Hl Hd. induction Hl as [| b l Hb Hl IHl]; cbn; [exact Hv |].
    constructor.
    + intros Hin. apply in_app_or in Hin as [Hin | Hin]; [contradiction |].
      exact (Hd b (or_introl eq_refl) Hin).
    + apply IHl. intros b' Hb'. apply Hd. now right.
Qed.

(** The first [n] of a sorted list: sorted, and no worse than the rest. *)
Lemma sorted_take {A} (R : A -> A -> Prop) l n :
  StronglySorted R l ->
  StronglySorted R (firstn n l) /\
  forall x y, In x (firstn n l) -> In y (skipn n l) -> R x y.
Proof.
  intros Hs. revert n. induction Hs as [| a l Hs IH Ha]; intros [| n]; cbn;
    try (split; [constructor | tauto]).
  destruct (IH n) as (Hs' & Hcut). split.
  - constructor; [exact Hs' |].
    apply Forall_forall. intros z Hz. apply list_elem_of_In in Hz.
    assert (Hz' : In z l) by (rewrite <- (firstn_skipn n l); apply in_or_app; now left).
    apply list_elem_of_In in Hz'. exact (proj1 (Forall_forall _ _) Ha z Hz').
  - intros x y [<- | Hx] Hy; [| now apply Hcut].
    assert (Hy' : In y l) by (rewrite <- (firstn_skipn n l); apply in_or_app; now right).
    apply list_elem_of_In in Hy'. exact (proj1 (Forall_forall _ _) Ha y Hy').
Qed.

Lemma nodup_take {B} (l : list B) n : List.NoDup l -> List.NoDup (firstn n l).
Proof.
  intros H. revert n. induction H as [| b l Hb Hl IH]; intros [| n]; cbn; try constructor.
  - intros Hin. apply Hb. rewrite <- (firstn_skipn n l). apply in_or_app. now left.
  - apply IH.
Qed.

(** What the ten first of a sorted list of values are. *)
Lemma top_ten {A B} (key : A -> Z) (f : A -> B) (values : list A) :
  List.NoDup (map f values) ->
  let top := firstn 10 (sorted_desc key values) in
  (length top <= 10)%nat /\
  StronglySorted (desc key) top /\
  List.NoDup (map f top) /\
  (forall z, In z top -> In z values) /\
  (forall z, In z values ->
             In z top \/ (length top = 10%nat /\ Forall (fun x => key z <= key x) top)).
Proof.
  intros Hnd top. unfold sorted_desc in top.
  destruct (sorted_desc_from key values [] (SSorted_nil _)) as (Hs & Hin & Hlen).
  cbv zeta in Hs, Hin, Hlen.
  set (sorted := fold_left (fun sorted x => insert_desc key x sorted) values []) in *.
  destruct (sorted_take (desc key) sorted 10 Hs) as (Hs' & Hcut).
  split; [unfold top; rewrite length_firstn; lia |].
  split; [exact Hs' |]. split; [| split].
  - unfold top. rewrite <- firstn_map. apply nodup_take.
    apply (sorted_desc_nodup key f values []). exact Hnd.
  - intros z Hz.
    assert (Hz' : In z sorted)
      by (rewrite <- (firstn_skipn 10 sorted); apply in_or_app; now left).
    apply (proj1 (Hin z)) in Hz'. destruct Hz' as [[] | Hz']. exact Hz'.
  - intros z Hz. assert (Hz' : In z sorted) by (apply (proj2 (Hin z)); now right).
    rewrite <- (firstn_skipn 10 sorted) in Hz'. apply in_app_or in Hz' as [Hz' | Hz'];
      [now left | right].
    split.
    + unfold top. rewrite length_firstn.
      assert (Hrest : (length (skipn 10 sorted) <> 0)%nat)
        by (destruct (skipn 10 sorted); [destruct Hz' | discriminate]).
      rewrite length_skipn in Hrest. lia.
    + apply Forall_forall. intros x Hx. apply list_elem_of_In in Hx.
      exact (Hcut x z Hx Hz').
Qed.

(** ** The analysis: the most frequent products and merchants *)

Lemma py_add_inv a b c : py_add a b = ok c -> is_number b = true /\ is_number c = true.
Proof.
  unfold py_add, is_number, as_number.
  destruct a, b; cbn; intros H; try discriminate; injection H as <-; split; reflexivity.
Qed.

Lemma py_add_ok a b :
  is_number a = true -> is_number b = true ->
  exists c, py_add a b = ok c /\ is_number c = true.
Proof.
  unfold py_add, is_number, as_number.
  destruct a, b; cbn; intros Ha Hb; try discriminate; eexists; split; reflexivity.
Qed.

Lemma py_add_fail a b : is_number b = false -> py_add a b = raise TypeError.
Proof.
  unfold py_add, is_number, as_number.
  destruct a, b; cbn; intros Hb; try discriminate; reflexivity.
Qed.

Lemma assoc_of_In {V} k (v : V) d :
  NoDup (map fst d) -> In (k, v) d -> assoc String.eqb k d = Some v.
Proof.
  induction d as [| [k1 v1] d IH]; cbn; intros Hnd Hin; [destruct Hin |].
  apply NoDup_cons in Hnd as [Hk1 Hnd].
  destruct Hin as [Heq | Hin].
  - injection Heq as -> ->. now rewrite String.eqb_refl.
  - destruct (String.eqb_spec k k1) as [-> | Hne]; [| now apply IH].
    exfalso. apply Hk1. apply list_elem_of_In. change k1 with (fst (k1, v)).
    now apply in_map.
Qed.

Lemma same_product_snoc n seen p :
  same_product n (seen ++ [p]) =
  same_product n seen ++ (if String.eqb (Str.lower (GraphEntity.name p)) n then [p] else []).
Proof. unfold same_product. rewrite List.filter_app. reflexivity. Qed.

Lemma same_product_key n products p ps :
  same_product n products = p :: ps -> Str.lower (GraphEntity.name p) = n.
Proof.
  intros H. assert (Hin : In p (same_product n products)) by (rewrite H; now left).
  unfold same_product in Hin. apply List.filter_In in Hin as [_ Heq].
  now apply String.eqb_eq.
Qed.

(** One turn of the loop over the products. *)
Lemma count_product_step product_counts seen product product_counts' :
  products_counted product_counts seen ->
  count_product product_counts product = ok product_counts' ->
  products_counted product_counts' (seen ++ [product]).
Proof.
  intros [Hnd Hassoc] H. unfold count_product in H.
  bind_inv H spent Htotal. injection H as <-.
  apply py_add_inv in Htotal as [_ Htotal].
  split; [now apply set_key_nodup |].
  intros n. rewrite same_product_snoc.
  destruct (String.eqb_spec (Str.lower (GraphEntity.name product)) n) as [<- | Hne].
  - rewrite assoc_set_key_eq. split; [exact Htotal |]. cbn.
    specialize (Hassoc (Str.lower (GraphEntity.name product))).
    destruct (assoc String.eqb (Str.lower (GraphEntity.name product)) product_counts)
      as [e |].
    + destruct Hassoc as (_ & p & ps & -> & Hname & Hcount).
      exists p, (ps ++ [product]). split; [reflexivity |]. split; [exact Hname |].
      rewrite Hcount, length_app. cbn [length]. lia.
    + rewrite Hassoc. exists product, []. cbn. auto.
  - rewrite assoc_set_key_neq by congruence. rewrite app_nil_r. apply Hassoc.
Qed.

Lemma products_counted_nil : products_counted [] [].
Proof. split; [constructor | intros n; reflexivity]. Qed.

Lemma count_products_spec products product_counts :
  foldM count_product products [] = ok product_counts ->
  products_counted product_counts products.
Proof.
  intros H.
  exact (foldM_prefix_from count_product products_counted products [] [] product_counts
           (fun x seen b x' => count_product_step x seen b x') products_counted_nil H).
Qed.

(** The entries of the table of products. *)
Lemma products_counted_entries product_counts products :
  products_counted product_counts products ->
  Forall (product_entry products) (map snd product_counts) /\
  map (fun e => Str.lower (ProductCount.name e)) (map snd product_counts)
  = map fst product_counts.
Proof.
  intros [Hnd Hassoc].
  assert (Hentry : forall k e, In (k, e) product_counts ->
                               product_entry products e /\
                               Str.lower (ProductCount.name e) = k).
  { intros k e Hin. pose proof (assoc_of_In k e product_counts Hnd Hin) as Ha.
    specialize (Hassoc k). rewrite Ha in Hassoc.
    destruct Hassoc as (_ & p & ps & Hsame & Hname & Hcount).
    pose proof (same_product_key _ _ _ _ Hsame) as Hkey.
    assert (Hk : Str.lower (ProductCount.name e) = k) by now rewrite Hname.
    split; [| exact Hk]. exists p, ps. rewrite Hk. auto. }
  split.
  - apply Forall_forall. intros e He. apply list_elem_of_In, in_map_iff in He.
    destruct He as ([k e'] & <- & Hin). exact (proj1 (Hentry k e' Hin)).
  - rewrite List.map_map. apply map_ext_in. intros [k e] Hin. exact (proj2 (Hentry k e Hin)).
Qed.

(** X13. In the analysis of a stored graph, [most_frequent_products] holds
    at most ten entries, in descending order of their counts, no two for the
    same lowercased name; an entry has the name of the first product entity
    of its lowercased name and counts the product entities of that name; and
    a product entity without an entry is outnumbered by ten entries that
    count at least as many. *)
Theorem most_frequent_products_ok (db : store) (graph_id : string) (a : GraphAnalytics.t) :
  analyze_graph db graph_id = ok a ->
  exists graph,
    assoc String.eqb graph_id db = Some graph /\
    let products := get_entities_by_type graph "product" in
    let top := GraphAnalytics.most_frequent_products a in
    (length top <= 10)%nat /\
    StronglySorted (desc ProductCount.count) top /\
    List.NoDup (map (fun e => Str.lower (ProductCount.name e)) top) /\
    Forall (product_entry products) top /\
    forall p,
      In p products ->
      (exists e, In e top /\
                 Str.lower (ProductCount.name e) = Str.lower (GraphEntity.name p)) \/
      (length top = 10%nat /\
       Forall (fun e =>
                 Z.of_nat (length (same_product (Str.lower (GraphEntity.name p)) products))
                 <= ProductCount.count e) top).
Proof.
  intros H. apply analyze_graph_inv in H as (graph & Hdb & H).
  apply analyze_inv in H as (pcs & mcs & Hp & _ & ->).
  exists graph. split; [exact Hdb |].
  intros products top. unfold top. clear top.
  cbn [GraphAnalytics.most_frequent_products]. set (top := firstn 10 _).
  apply count_products_spec in Hp. fold products in Hp.
  destruct (products_counted_entries pcs products Hp) as [Hentries Hkeys].
  assert (Hnd : List.NoDup (map (fun e => Str.lower (ProductCount.name e)) (map snd pcs))).
  { rewrite Hkeys. apply NoDup_ListNoDup. exact (proj1 Hp). }
  destruct (top_ten ProductCount.count (fun e => Str.lower (ProductCount.name e))
              (map snd pcs) Hnd) as (Hlen & Hsorted & Hnd' & Hsub & Htop).
  fold top in Hlen, Hsorted, Hnd', Hsub, Htop.
  split; [exact Hlen |]. split; [exact Hsorted |]. split; [exact Hnd' |]. split.
  - apply Forall_forall. intros e He. apply list_elem_of_In in He.
    apply Hsub in He. apply list_elem_of_In in He.
    exact (proj1 (Forall_forall _ _) Hentries e He).
  - intros p Hin.
    destruct Hp as [Hpnd Hassoc]. specialize (Hassoc (Str.lower (GraphEntity.name p))).
    destruct (assoc String.eqb (Str.lower (GraphEntity.name p)) pcs) as [e |] eqn:Ha.
    + destruct Hassoc as (_ & q & qs & Hsame & Hname & Hcount).
      apply assoc_In in Ha as (k' & Hin' & _).
      assert (He : In e (map snd pcs)) by (change e with (snd (k', e)); now apply in_map).
      destruct (Htop e He) as [Het | [Hten Hall]].
      * left. exists e. split; [exact Het |].
        rewrite Hname. exact (same_product_key _ _ _ _ Hsame).
      * right. split; [exact Hten |]. rewrite Hsame. cbn [length]. rewrite <- Hcount.
        exact Hall.
    + exfalso.
      assert (Hp' : In p (same_product (Str.lower (GraphEntity.name p)) products)).
      { unfold same_product. apply List.filter_In. split; [exact Hin |].
        apply String.eqb_refl. }
      rewrite Hassoc in Hp'. destruct Hp'.
Qed.

Lemma most_frequent_products_ok_witness :
  exists a,
    analyze_graph built_store "graph-1" = ok a /\
    map (fun e => (ProductCount.name e, ProductCount.count e))
        (GraphAnalytics.most_frequent_products a)
    = [("MILK 1L", 1); ("BREAD", 1)] /\
    StronglySorted (desc ProductCount.count) (GraphAnalytics.most_frequent_products a).
Proof.
  destruct (analyze_graph built_store "graph-1") as [e | a] eqn:Ha;
    [vm_compute in Ha; discriminate |].
  exists a. split; [reflexivity |].
  destruct (most_frequent_products_ok _ _ _ Ha) as (graph & _ & _ & Hsorted & _).
  split; [| exact Hsorted].
  vm_compute in Ha. injection Ha as <-. reflexivity.
Defined.

Lemma last_named_snoc n seen e :
  last_named n (seen ++ [e]) =
  if String.eqb (GraphEntity.name e) n then Some e else last_named n seen.
Proof. unfold last_named. rewrite rev_app_distr. reflexivity. Qed.

(** One turn of the loop over the merchants. *)
Lemma count_merchant_step graph merchant_counts seen merchant merchant_counts' :
  merchants_counted graph merchant_counts seen ->
  count_merchant graph merchant_counts merchant = ok merchant_counts' ->
  merchants_counted graph merchant_counts' (seen ++ [merchant]).
Proof.
  intros [Hnd Hassoc] H. unfold count_merchant in H.
  bind_inv H spent Htotal. injection H as <-.
  split; [now apply set_key_nodup |].
  intros n. rewrite last_named_snoc.
  destruct (String.eqb_spec (GraphEntity.name merchant) n) as [<- | Hne].
  - rewrite assoc_set_key_eq. split; [reflexivity |]. exists merchant. auto.
  - rewrite assoc_set_key_neq by congruence. apply Hassoc.
Qed.

Lemma count_merchants_spec graph merchants merchant_counts :
  foldM (count_merchant graph) merchants [] = ok merchant_counts ->
  merchants_counted graph merchant_counts merchants.
Proof.
  intros H.
  apply (foldM_prefix_from (count_merchant graph) (merchants_counted graph) merchants []
           [] merchant_counts); [| | exact H].
  - intros x seen b x'. apply count_merchant_step.
  - split; [constructor | intros n; reflexivity].
Qed.

(** X14. In the analysis of a stored graph, [most_frequent_merchants] holds
    at most ten entries, in descending order of their visit counts, no two of
    the same name; the visit count of an entry is the number of
    [purchased_at] relations that touch the last merchant entity of its
    name, so that an earlier merchant entity of the same name is not
    counted. *)
Theorem most_frequent_merchants_ok (db : store) (graph_id : string) (a : GraphAnalytics.t) :
  analyze_graph db graph_id = ok a ->
  exists graph,
    assoc String.eqb graph_id db = Some graph /\
    let top := GraphAnalytics.most_frequent_merchants a in
    (length top <= 10)%nat /\
    StronglySorted (desc MerchantCount.visit_count) top /\
    List.NoDup (map MerchantCount.name top) /\
    Forall (merchant_entry graph) top.
Proof.
  intros H. apply analyze_graph_inv in H as (graph & Hdb & H).
  apply analyze_inv in H as (pcs & mcs & _ & Hm & ->).
  exists graph. split; [exact Hdb |].
  intros top. unfold top. clear top.
  cbn [GraphAnalytics.most_frequent_merchants]. set (top := firstn 10 _).
  apply count_merchants_spec in Hm. destruct Hm as [Hnd Hassoc].
  assert (Hentry : forall k m, In (k, m) mcs ->
                               merchant_entry graph m /\ MerchantCount.name m = k).
  { intros k m Hin. pose proof (assoc_of_In k m mcs Hnd Hin) as Ha.
    specialize (Hassoc k). rewrite Ha in Hassoc.
    destruct Hassoc as (Hname & merchant & Hlast & Hvisits).
    split; [| exact Hname]. exists merchant. rewrite Hname. auto. }
  assert (Hnames : List.NoDup (map MerchantCount.name (map snd mcs))).
  { replace (map MerchantCount.name (map snd mcs)) with (map fst mcs).
    - now apply NoDup_ListNoDup.
    - rewrite List.map_map. apply map_ext_in. intros [k m] Hin.
      symmetry. exact (proj2 (Hentry k m Hin)). }
  destruct (top_ten MerchantCount.visit_count MerchantCount.name (map snd mcs) Hnames)
    as (Hlen & Hsorted & Hnd' & Hsub & _).
  fold top in Hlen, Hsorted, Hnd', Hsub.
  split; [exact Hlen |]. split; [exact Hsorted |]. split; [exact Hnd' |].
  apply Forall_forall. intros m Hm. apply list_elem_of_In in Hm.
  apply Hsub, in_map_iff in Hm. destruct Hm as ([k m'] & <- & Hin).
  exact (proj1 (Hentry k m' Hin)).
Qed.

Lemma most_frequent_merchants_ok_witness :
  exists a,
    analyze_graph built_store "graph-1" = ok a /\
    map (fun m => (MerchantCount.name m, MerchantCount.visit_count m))
        (GraphAnalytics.most_frequent_merchants a)
    = [("Big Mart", 2)] /\
    Forall (merchant_entry
              (match assoc String.eqb "graph-1" built_store with
               | Some g => g
               | None => KnowledgeGraph.create "none" "none" None [] None
               end))
           (GraphAnalytics.most_frequent_merchants a).
Proof.
  destruct (analyze_graph built_store "graph-1") as [e | a] eqn:Ha;
    [vm_compute in Ha; discriminate |].
  exists a. split; [reflexivity |].
  destruct (most_frequent_merchants_ok _ _ _ Ha) as (graph & Hdb & _ & _ & _ & Hentries).
  rewrite Hdb. split; [| exact Hentries].
  vm_compute in Ha. injection Ha as <-. reflexivity.
Defined.

(** ** The analysis: when it fails *)

Lemma py_sum_from values a :
  is_number a = true ->
  (Forall (fun v => is_number v = true) values ->
   exists c, foldM py_add values a = ok c /\ is_number c = true) /\
  (~ Forall (fun v => is_number v = true) values ->
   foldM py_add values a = raise TypeError).
Proof.
  revert a. induction values as [| v values IH]; intros a Ha; cbn [foldM].
  - split; [eauto | intros H; exfalso; apply H; constructor].
  - destruct (is_number v) eqn:Hv.
    + destruct (py_add_ok a v Ha Hv) as (c & -> & Hc). cbn [ebind].
      destruct (IH c Hc) as [IH1 IH2]. split.
      * intros H. apply Forall_cons in H as [_ H]. now apply IH1.
      * intros H. apply IH2. intros Hall. apply H. now constructor.
    + rewrite (py_add_fail a v Hv). split; [| reflexivity].
      intros H. apply Forall_cons in H as [H _]. congruence.
Qed.

(** The loop over the products stops with [TypeError] at the first total
    price that is not a number, and ends otherwise. *)
Lemma count_products_total products product_counts seen :
  products_counted product_counts seen ->
  (Forall (fun p => is_number (Dict.get (GraphEntity.attributes p) "total_price" (VInt 0))
                    = true) products ->
   exists product_counts', foldM count_product products product_counts = ok product_counts') /\
  (~ Forall (fun p => is_number (Dict.get (GraphEntity.attributes p) "total_price" (VInt 0))
                      = true) products ->
   foldM count_product products product_counts = raise TypeError).
Proof.
  revert product_counts seen.
  induction products as [| p products IH]; intros pcs seen Hinv; cbn [foldM].
  - split; [eauto | intros H; exfalso; apply H; constructor].
  - assert (Hentry : is_number
                       (ProductCount.total_spent
                          match assoc String.eqb (Str.lower (GraphEntity.name p)) pcs with
                          | Some entry => entry
                          | None => ProductCount.Build (GraphEntity.name p) 0 (VInt 0)
                          end) = true).
    { pose proof (proj2 Hinv (Str.lower (GraphEntity.name p))) as Ha.
      destruct (assoc String.eqb (Str.lower (GraphEntity.name p)) pcs);
        [exact (proj1 Ha) | reflexivity]. }
    destruct (is_number (Dict.get (GraphEntity.attributes p) "total_price" (VInt 0))) eqn:Hv.
    + destruct (count_product pcs p) as [e | pcs'] eqn:Hstep.
      * exfalso. unfold count_product in Hstep.
        destruct (py_add_ok _ _ Hentry Hv) as (c & Hc & _).
        rewrite Hc in Hstep. discriminate.
      * cbn [ebind].
        destruct (IH pcs' (seen ++ [p]) (count_product_step _ _ _ _ Hinv Hstep)) as [IH1 IH2].
        split.
        -- intros H. apply Forall_cons in H as [_ H]. now apply IH1.
        -- intros H. apply IH2. intros Hall. apply H. now constructor.
    + unfold count_product. rewrite (py_add_fail _ _ Hv). split; [| reflexivity].
      intros H. apply Forall_cons in H as [H _]. congruence.
Qed.

Lemma numbers_dec {A} (f : A -> pyval) (l : list A) :
  Forall (fun x => is_number (f x) = true) l \/ ~ Forall (fun x => is_number (f x) = true) l.
Proof.
  destruct (List.Forall_dec (fun x => is_number (f x) = true)
              (fun x => bool_dec (is_number (f x)) true) l); auto.
Qed.

Lemma priced_dec graph (merchants : list GraphEntity.t) :
  let priced m :=
    Forall (fun r => is_number (Dict.get (GraphRelation.attributes r) "price" (VInt 0)) = true)
           (relations_of_type graph (GraphEntity.id m) "purchased_at") in
  Forall priced merchants \/ ~ Forall priced merchants.
Proof.
  intros priced. induction merchants as [| m merchants IH]; [left; constructor |].
  destruct (numbers_dec (fun r => Dict.get (GraphRelation.attributes r) "price" (VInt 0))
              (relations_of_type graph (GraphEntity.id m) "purchased_at")) as [Hm | Hm].
  - destruct IH as [IH | IH]; [left; now constructor |].
    right. intros H. apply Forall_cons in H as [_ H]. contradiction.
  - right. intros H. apply Forall_cons in H as [H _]. contradiction.
Qed.

Lemma count_merchants_total graph merchants merchant_counts :
  let priced m :=
    Forall (fun r => is_number (Dict.get (GraphRelation.attributes r) "price" (VInt 0)) = true)
           (relations_of_type graph (GraphEntity.id m) "purchased_at") in
  (Forall priced merchants ->
   exists merchant_counts',
     foldM (count_merchant graph) merchants merchant_counts = ok merchant_counts') /\
  (~ Forall priced merchants ->
   foldM (count_merchant graph) merchants merchant_counts = raise TypeError).
Proof.
  intros priced. revert merchant_counts.
  induction merchants as [| m merchants IH]; intros mcs; cbn [foldM].
  - split; [eauto | intros H; exfalso; apply H; constructor].
  - unfold count_merchant at 1 3. unfold py_sum.
    destruct (py_sum_from
                (map (fun r => Dict.get (GraphRelation.attributes r) "price" (VInt 0))
                     (relations_of_type graph (GraphEntity.id m) "purchased_at"))
                (VInt 0) eq_refl) as [Hok Hfail].
    rewrite Forall_map in Hok, Hfail.
    assert (Hdec : priced m \/ ~ priced m).
    { exact (numbers_dec
               (fun r => Dict.get (GraphRelation.attributes r) "price" (VInt 0))
               (relations_of_type graph (GraphEntity.id m) "purchased_at")). }
    destruct Hdec as [Hm | Hm].
    + destruct (Hok Hm) as (c & -> & _). cbn [ebind].
      destruct (IH (set_key (GraphEntity.name m)
                      (MerchantCount.Build (GraphEntity.name m)
                         (Z.of_nat (length (relations_of_type graph (GraphEntity.id m)
                                                              "purchased_at"))) c) mcs))
        as [IH1 IH2].
      split.
      * intros H. apply Forall_cons in H as [_ H]. now apply IH1.
      * intros H. apply IH2. intros Hall. apply H. now constructor.
    + rewrite (Hfail Hm). split; [| reflexivity].
      intros H. apply Forall_cons in H as [H _]. contradiction.
Qed.

(** X15. When the analysis fails.  [analyze_graph] raises [ValueError]
    exactly when no graph is stored under the identifier.  For a stored
    graph it returns an analysis exactly when the [total_price] attribute of
    every product entity, and the [price] attribute of every [purchased_at]
    relation that touches a merchant entity, is a number or absent; otherwise
    it raises [TypeError]. *)
Theorem analysis_fails_exactly (db : store) (graph_id : string) :
  (analyze_graph db graph_id = raise ValueError <-> assoc String.eqb graph_id db = None) /\
  forall graph,
    assoc String.eqb graph_id db = Some graph ->
    ((exists a, analyze_graph db graph_id = ok a) <-> amounts_ok graph) /\
    (~ amounts_ok graph -> analyze_graph db graph_id = raise TypeError).
Proof.
  assert (Hstored : forall graph,
             assoc String.eqb graph_id db = Some graph ->
             (amounts_ok graph -> exists a, analyze_graph db graph_id = ok a) /\
             (~ amounts_ok graph -> analyze_graph db graph_id = raise TypeError)).
  { intros graph Hdb. unfold analyze_graph. rewrite Hdb. unfold analyze, amounts_ok.
    destruct (count_products_total (get_entities_by_type graph "product") [] []
                products_counted_nil) as [Hp1 Hp2].
    destruct (count_merchants_total graph (get_entities_by_type graph "merchant") [])
      as [Hm1 Hm2].
    cbv zeta in Hm1, Hm2.
    split.
    - intros [Hp Hm]. destruct (Hp1 Hp) as (pcs & ->). cbn [ebind].
      destruct (Hm1 Hm) as (mcs & ->). cbn [ebind]. eauto.
    - intros Hnot.
      destruct (numbers_dec
                  (fun p => Dict.get (GraphEntity.attributes p) "total_price" (VInt 0))
                  (get_entities_by_type graph "product")) as [Hp | Hp].
      + destruct (Hp1 Hp) as (pcs & ->). cbn [ebind].
        rewrite Hm2; [reflexivity |]. intros Hm. apply Hnot. now split.
      + now rewrite (Hp2 Hp). }
  split.
  - split.
    + intros H. destruct (assoc String.eqb graph_id db) as [graph |] eqn:Hdb; [| reflexivity].
      exfalso. destruct (Hstored graph eq_refl) as [H1 H2].
      destruct (numbers_dec
                  (fun p => Dict.get (GraphEntity.attributes p) "total_price" (VInt 0))
                  (get_entities_by_type graph "product")) as [Hp | Hp].
      * destruct (priced_dec graph (get_entities_by_type graph "merchant")) as [Hm | Hm].
        -- destruct (H1 (conj Hp Hm)) as (a & Ha). rewrite Ha in H. discriminate.
        -- rewrite H2 in H; [discriminate |]. intros [_ Hm']. contradiction.
      * rewrite H2 in H; [discriminate |]. intros [Hp' _]. contradiction.
    + intros Hdb. unfold analyze_graph. now rewrite Hdb.
  - intros graph Hdb. destruct (Hstored graph Hdb) as [H1 H2].
    split; [| exact H2]. split; [| exact H1].
    intros (a & Ha).
    destruct (numbers_dec
                  (fun p => Dict.get (GraphEntity.attributes p) "total_price" (VInt 0))
                  (get_entities_by_type graph "product")) as [Hp | Hp].
    + destruct (priced_dec graph (get_entities_by_type graph "merchant")) as [Hm | Hm].
      * now split.
      * rewrite H2 in Ha; [discriminate |]. intros [_ Hm']. contradiction.
    + rewrite H2 in Ha; [discriminate |]. intros [Hp' _]. contradiction.
Qed.

(** ** The keyword classifier: the order of its tests *)

Lemma is_prefix_app p q l : Str.is_prefix (p ++ q) l = true -> Str.is_prefix p l = true.
Proof.
  revert l. induction p as [| a p IH]; intros l; cbn; [reflexivity |].
  destruct l as [| b l]; [discriminate |].
  intros H. apply andb_true_iff in H as [Hab H]. rewrite Hab. cbn. now apply IH.
Qed.

(** A text that holds a word holds every prefix of the word. *)
Lemma contains_chars_prefix p q l :
  Str.contains_chars (p ++ q) l = true -> Str.contains_chars p l = true.
Proof.
  induction l as [| b l IH]; cbn.
  - rewrite !orb_false_r. apply is_prefix_app.
  - intros H. apply orb_true_iff in H as [H | H]; apply orb_true_iff.
    + left. now apply is_prefix_app in H.
    + right. now apply IH.
Qed.

Lemma any_keyword_in_intro keywords keyword item_name :
  In keyword keywords -> Str.contains keyword item_name = true ->
  any_keyword_in keywords item_name = true.
Proof.
  intros Hin Hc. unfold any_keyword_in. apply existsb_exists. eauto.
Qed.

(** X16. In the keyword classifier the pharmacy keywords [tablet] and
    [capsule] never decide: a name that holds [tablet] is classified by an
    earlier test, as grocery or as electronics, and a name that holds
    [capsule] holds the clothing keyword [cap], and is classified as grocery,
    electronics or clothing.  Such an item is never in category pharmacy,
    and has an expiry date only as a grocery. *)
Theorem shadowed_pharmacy_keywords (env : Env) (it : item) (item_name : string)
    (price record : pyval) :
  fallback_name_price it = ok (item_name, price) ->
  classify_one env it = ok record ->
  Str.contains "tablet" item_name = true \/ Str.contains "capsule" item_name = true ->
  exists category,
    path record ["category"] = Some (VStr category) /\
    category <> "pharmacy" /\
    (Str.contains "tablet" item_name = true ->
     category = "grocery" \/ category = "electronics") /\
    (category = "grocery" \/ category = "electronics" \/ category = "clothing") /\
    path record ["enhanced_data"; "expiry_info"; "has_expiry"]
    = Some (VBool (String.eqb category "grocery")).
Proof.
  intros Hnp Hc Hname. rewrite (classify_one_eq _ _ _ _ Hnp) in Hc.
  assert (Hearlier : any_keyword_in electronics_keywords item_name = true \/
                     any_keyword_in clothing_keywords item_name = true).
  { destruct Hname as [Ht | Hcap].
    - left. apply (any_keyword_in_intro _ "tablet"); [cbn; tauto | exact Ht].
    - right. apply (any_keyword_in_intro _ "cap"); [cbn; tauto |].
      exact (contains_chars_prefix (Str.chars "cap") (Str.chars "sule") _ Hcap). }
  assert (Htablet : Str.contains "tablet" item_name = true ->
                    any_keyword_in electronics_keywords item_name = true).
  { intros Ht. apply (any_keyword_in_intro _ "tablet"); [cbn; tauto | exact Ht]. }
  unfold keyword_category in Hc.
  destruct (any_keyword_in food_keywords item_name).
  - apply ebind_ok in Hc as (pe & _ & Hc). injection Hc as <-.
    exists "grocery". repeat split; auto; discriminate.
  - destruct (any_keyword_in electronics_keywords item_name).
    + cbn in Hc. injection Hc as <-.
      exists "electronics". repeat split; auto; discriminate.
    + destruct (any_keyword_in clothing_keywords item_name).
      * cbn in Hc. injection Hc as <-.
        exists "clothing". split; [reflexivity |]. split; [discriminate |].
        split; [intros Ht; apply Htablet in Ht; discriminate |]. split; [auto | reflexivity].
      * destruct Hearlier; discriminate.
Qed.

Lemma shadowed_pharmacy_keywords_witness :
  exists record,
    classify_one offline_env (ItemVal (VDict [("name", VStr "Paracetamol Tablet")]))
    = ok record /\
    path record ["category"] = Some (VStr "electronics") /\
    path record ["enhanced_data"; "warranty_info"; "warranty_period"] = Some (VStr "1 year") /\
    path record ["enhanced_data"; "expiry_info"; "expiry_date"] = Some VNone.
Proof.
  destruct (classify_one offline_env (ItemVal (VDict [("name", VStr "Paracetamol Tablet")])))
    as [e | record] eqn:Hc; [vm_compute in Hc; discriminate |].
  exists record. split; [reflexivity |].
  destruct (shadowed_pharmacy_keywords offline_env
              (ItemVal (VDict [("name", VStr "Paracetamol Tablet")]))
              "paracetamol tablet" (VFloat 0) record
              eq_refl Hc (or_introl eq_refl)) as (category & Hcat & Hne & _).
  vm_compute in Hc. injection Hc as <-. repeat split.
Defined.

(** ** The predicted expiry date *)

(** The loop over the table stops at the first rule that applies. *)
Lemma first_rule_spec rules product_lower expiry_days :
  (exists pre k post,
      rules = pre ++ (k, first_rule rules product_lower expiry_days) :: post /\
      k <> "default" /\ Str.contains k product_lower = true /\
      Forall (rule_skipped product_lower) pre) \/
  (first_rule rules product_lower expiry_days = expiry_days /\
   Forall (rule_skipped product_lower) rules).
Proof.
  induction rules as [| [k d] rules IH]; cbn [first_rule].
  - right. split; [reflexivity | constructor].
  - destruct (String.eqb_spec k "default") as [-> | Hk]; cbn [negb andb].
    + destruct IH as [(pre & k' & post & Hrules & Hk' & Hc & Hpre) | [Heq Hall]].
      * left. exists (("default", d) :: pre), k', post.
        split; [cbn; now rewrite <- Hrules |]. split; [exact Hk' |]. split; [exact Hc |].
        constructor; [left; reflexivity | exact Hpre].
      * right. split; [exact Heq |]. constructor; [left; reflexivity | exact Hall].
    + destruct (Str.contains k product_lower) eqn:Hc.
      * left. exists [], k, rules. repeat split; auto.
      * destruct IH as [(pre & k' & post & Hrules & Hk' & Hc' & Hpre) | [Heq Hall]].
        -- left. exists ((k, d) :: pre), k', post.
           split; [cbn; now rewrite <- Hrules |]. split; [exact Hk' |]. split; [exact Hc' |].
           constructor; [right; exact Hc | exact Hpre].
        -- right. split; [exact Heq |]. constructor; [right; exact Hc | exact Hall].
Qed.

Lemma first_rule_lower rules s d bound :
  Forall (fun kv => bound <= snd kv) rules -> bound <= d ->
  bound <= first_rule rules s d.
Proof.
  induction 1 as [| [k n] rules Hn _ IH]; cbn; intros Hd; auto.
  destruct (_ && _); auto.
Qed.

(** X17. The predicted expiry date, for any product name and any clock
    whose date is at least 730 days before the last date: the date of the
    clock plus the days of the first rule of the shelf-life table, in the
    order in which the table is written, whose key occurs in the lowercased
    name, and plus 30 days when no key occurs; the key [default] is never
    looked for in a name.  The date is between 1 and 730 days ahead, and the
    method does not raise. *)
Theorem predicted_expiry_is_first_rule (env : Env) (product_name : string) :
  clock_ok env ->
  exists d,
    1 <= d <= 730 /\
    _predict_expiry_date env product_name
    = ok (Date.isoformat (Date.of_days (Date.to_days (today env) + d))) /\
    ((exists pre k post,
         expiry_rules = pre ++ (k, d) :: post /\
         k <> "default" /\ Str.contains k (Str.lower product_name) = true /\
         Forall (rule_skipped (Str.lower product_name)) pre) \/
     (d = 30 /\ Forall (rule_skipped (Str.lower product_name)) expiry_rules)).
Proof.
  intros Hclock. exists (rule_days (Str.lower product_name)).
  pose proof (rule_days_bound (Str.lower product_name)) as Hhi.
  split; [split; [| exact Hhi] |]. 
  - unfold rule_days. apply first_rule_lower; [repeat constructor; cbn; lia | cbn; lia].
  - split.
    + apply predict_expiry_ok. now apply to_days_monotone_bound.
    + unfold rule_days. cbn [List.find expiry_rules String.eqb Ascii.eqb Bool.eqb fst snd].
      exact (first_rule_spec expiry_rules (Str.lower product_name) 30).
Qed.

Lemma predicted_expiry_is_first_rule_witness :
  exists d,
    1 <= d <= 730 /\
    _predict_expiry_date offline_env "Rice Cream"
    = ok (Date.isoformat (Date.of_days (Date.to_days (today offline_env) + d))) /\
    _predict_expiry_date offline_env "Rice Cream" = ok "2025-07-26" /\
    _predict_expiry_date offline_env "Default" = ok "2025-08-21".
Proof.
  destruct (predicted_expiry_is_first_rule offline_env "Rice Cream")
    as (d & Hd & H & _); [vm_compute; discriminate |].
  exists d. split; [exact Hd |]. split; [exact H |]. split; reflexivity.
Defined.

(** ** The cleaning of a response *)

Lemma find_char_Some c l i : Str.find_char c l = Some i -> l !! i = Some c.
Proof.
  revert i. induction l as [| a l IH]; intros i; cbn; [discriminate |].
  destruct (Ascii.eqb_spec a c) as [-> | Hne].
  - intros H. injection H as <-. reflexivity.
  - destruct (Str.find_char c l) as [j |]; cbn; [| discriminate].
    intros H. injection H as <-. cbn. now apply IH.
Qed.

Lemma find_char_None c l : Str.find_char c l = None -> ~ In c l.
Proof.
  induction l as [| a l IH]; cbn; [tauto |].
  destruct (Ascii.eqb_spec a c) as [-> | Hne]; [discriminate |].
  destruct (Str.find_char c l); cbn; [discriminate |]. intros _ [H | H]; [contradiction |].
  now apply IH.
Qed.

Lemma rfind_char_Some c l j : Str.rfind_char c l = Some j -> l !! j = Some c.
Proof.
  revert j. induction l as [| a l IH]; intros j; cbn; [discriminate |].
  destruct (Str.rfind_char c l) as [i |].
  - intros H. injection H as <-. cbn. now apply IH.
  - destruct (Ascii.eqb_spec a c) as [-> | Hne]; [| discriminate].
    intros H. injection H as <-. reflexivity.
Qed.

Lemma rfind_char_None c l : Str.rfind_char c l = None -> ~ In c l.
Proof.
  induction l as [| a l IH]; cbn; [tauto |].
  destruct (Str.rfind_char c l); [discriminate |].
  destruct (Ascii.eqb_spec a c) as [-> | Hne]; [discriminate |].
  intros _ [H | H]; [contradiction | now apply IH].
Qed.

(** A slice from an opening bracket to a closing bracket behind it. *)
Lemma slice_brackets l i j :
  l !! i = Some "["%char -> l !! j = Some "]"%char -> (i <= j)%nat ->
  exists middle, firstn (j + 1 - i) (skipn i l) = "["%char :: middle /\
                 exists front, firstn (j + 1 - i) (skipn i l) = front ++ ["]"%char].
Proof.
  intros Hi Hj Hij. replace (j + 1 - i)%nat with (S (j - i)) by lia.
  assert (Hhead : skipn i l !! 0%nat = Some "["%char).
  { rewrite lookup_drop. now rewrite Nat.add_0_r. }
  assert (Hlast : skipn i l !! (j - i)%nat = Some "]"%char).
  { rewrite lookup_drop. now replace (i + (j - i))%nat with j by lia. }
  split with (firstn (j - i) (tail (skipn i l))).
  split.
  - destruct (skipn i l) as [| a rest]; [discriminate |]. cbn in Hhead.
    injection Hhead as ->. reflexivity.
  - exists (firstn (j - i) (skipn i l)). now apply take_S_r.
Qed.

(** X18. What [_clean_gemini_response] hands to the decoder: whenever the
    cleaned text holds an opening and a closing square bracket, it starts
    with [[] and ends with []]: the text around the outermost pair of
    brackets is cut away, and a response whose first opening bracket comes
    after its last closing one is cleaned to the empty text. *)
Theorem cleaned_response_brackets (response : string) :
  let response_clean := _clean_gemini_response response in
  In "["%char (Str.chars response_clean) -> In "]"%char (Str.chars response_clean) ->
  Str.startswith response_clean "[" = true /\ Str.endswith response_clean "]" = true.
Proof.
  unfold _clean_gemini_response.
  destruct (String.eqb response EmptyString); [intros ? []|].
  set (r := Str.strip (if Str.endswith _ _ then _ else _)).
  destruct (Str.find_char "["%char (Str.chars r)) as [i |] eqn:Hi.
  - destruct (Str.rfind_char "]"%char (Str.chars r)) as [j |] eqn:Hj.
    + cbv zeta. unfold Str.slice, Str.startswith, Str.endswith. rewrite chars_of_chars.
      apply find_char_Some in Hi. apply rfind_char_Some in Hj.
      destruct (le_lt_dec i j) as [Hij | Hji].
      * destruct (slice_brackets _ i j Hi Hj Hij) as (middle & Hm & front & Hf).
        intros _ _. split.
        -- rewrite Hm. reflexivity.
        -- rewrite Hf, rev_app_distr. reflexivity.
      * replace (j + 1 - i)%nat with 0%nat by lia. intros [].
    + cbv zeta. intros _ H. apply rfind_char_None in Hj. contradiction.
  - cbv zeta. intros H _. apply find_char_None in Hi. contradiction.
Qed.

Lemma cleaned_response_brackets_witness :
  _clean_gemini_response "Here you are: [{}] and [1], bye" = "[{}] and [1]" /\
  _clean_gemini_response "] nothing [" = EmptyString /\
  Str.startswith (_clean_gemini_response "Here you are: [{}] and [1], bye") "[" = true /\
  Str.endswith (_clean_gemini_response "Here you are: [{}] and [1], bye") "]" = true.
Proof.
  split; [reflexivity |]. split; [reflexivity |].
  apply (cleaned_response_brackets "Here you are: [{}] and [1], bye"); vm_compute; tauto.
Defined.

(** ** The items that are processed *)

(** Unless the call raised [json.JSONDecodeError],
    [_extract_items_from_text] returns a value that has a length: the
    request for the length of the decoded value, made for the log, sends a
    value without one to the deterministic extractor. *)
Lemma extracted_items_have_length env raw_text receipt :
  ask_items env raw_text <> raise JSONDecodeError ->
  exists v n each,
    _extract_items_from_text env raw_text receipt = ok v /\
    py_len v = ok n /\ py_iter v = ok each /\ length each = n.
Proof.
  intros Hcall. unfold _extract_items_from_text.
  destruct (extract_items_body env raw_text) as [e | items_data] eqn:Hbody.
  - assert (Hlist : forall l : list pyval,
               exists v n each,
                 ok (VList l) = ok v /\ py_len v = ok n /\ py_iter v = ok each /\
                 length each = n)
      by (intros l; exists (VList l), (length l), l; repeat split).
    destruct e; try apply Hlist.
    destruct (ask_items env raw_text) as [e | response] eqn:Hask; [| apply Hlist].
    exfalso. unfold extract_items_body in Hbody. rewrite Hask in Hbody.
    cbn [ebind] in Hbody. injection Hbody as ->. apply Hcall. reflexivity.
  - unfold extract_items_body in Hbody.
    destruct (ask_items env raw_text) as [e | response]; [discriminate |].
    cbn [ebind] in Hbody.
    destruct (String.eqb _ EmptyString).
    + injection Hbody as <-. exists (VList []), 0%nat, []. repeat split.
    + destruct (loads env _) as [e | v]; [discriminate |]. cbn [ebind] in Hbody.
      destruct (py_len v) as [e | n] eqn:Hlen; [discriminate |]. cbn [ebind] in Hbody.
      injection Hbody as <-. destruct (py_len_iter _ _ Hlen) as (l & Hl & Hn).
      exists v, n, l. auto.
Qed.

(** X19. The choice of the items to process raises in one case only.  When
    the extraction request itself raises [json.JSONDecodeError], the handler
    of that exception reads the response that was never assigned, and
    [UnboundLocalError] leaves the method and the choice.  In every other
    case the choice does not raise, whatever the service answers: the
    extracted value has a length, and the extracted items are taken, one
    decoded value each, exactly when they are more than the receipt's own
    items or the receipt has none; otherwise the receipt's own items are
    taken as they are. *)
Theorem items_to_process_outcome (env : Env) (receipt : Receipt.t) :
  (ask_items env (Receipt.raw_text receipt) = raise JSONDecodeError ->
   _extract_items_from_text env (Receipt.raw_text receipt) (Some receipt)
   = raise UnboundLocalError /\
   items_to_process env receipt = raise UnboundLocalError) /\
  (ask_items env (Receipt.raw_text receipt) <> raise JSONDecodeError ->
   exists v n its,
     _extract_items_from_text env (Receipt.raw_text receipt) (Some receipt) = ok v /\
     py_len v = ok n /\
     items_to_process env receipt = ok its /\
     if (length (Receipt.items receipt) <? n)%nat
        || match Receipt.items receipt with [] => true | _ => false end
     then Forall is_val its /\ length its = n
     else its = Receipt.items receipt).
Proof.
  split.
  - intros Hask.
    pose proof (call_decode_error_is_unbound env (Receipt.raw_text receipt) (Some receipt)
                  Hask) as Hraise.
    split; [exact Hraise |]. unfold items_to_process. now rewrite Hraise.
  - intros Hcall.
    destruct (extracted_items_have_length env (Receipt.raw_text receipt) (Some receipt)
                Hcall) as (v & n & each & Hv & Hlen & Hiter & Hn).
    exists v, n.
    assert (Hits : items_to_process env receipt =
                   if (length (Receipt.items receipt) <? n)%nat
                      || match Receipt.items receipt with [] => true | _ => false end
                   then ok (map ItemVal each)
                   else ok (Receipt.items receipt)).
    { unfold items_to_process. rewrite Hv. cbv zeta. unfold ok at 1, ebind at 1.
      rewrite Hlen, Hiter. unfold ok, ebind. reflexivity. }
    rewrite Hits.
    destruct ((length (Receipt.items receipt) <? n)%nat
              || match Receipt.items receipt with [] => true | _ => false end).
    + exists (map ItemVal each).
      split; [exact Hv |]. split; [exact Hlen |]. split; [reflexivity |].
      split; [| now rewrite length_map].
      apply Forall_forall. intros it Hit. apply list_elem_of_In, in_map_iff in Hit.
      destruct Hit as (v' & <- & _). exact I.
    + exists (Receipt.items receipt). auto.
Qed.

(** ** The classifications of a response: all or none *)

Lemma compat_record_dict d :
  compat_record (VDict d)
  = ok (VDict [("category", Dict.get d "category" (VStr "food"));
               ("confidence", Dict.get d "confidence" (VFloat (6 # 10)));
               ("brand", Dict.get d "brand" VNone);
               ("enhanced_data", VDict d)]).
Proof. reflexivity. Qed.

Lemma compat_record_other c :
  is_dict c = false -> compat_record c = raise AttributeError.
Proof. destruct c; cbn; intros H; try reflexivity; discriminate. Qed.

Lemma mapM_compat l :
  (Forall (fun c => is_dict c = true) l ->
   exists records, mapM compat_record l = ok records /\ Forall2 compat_of l records) /\
  (~ Forall (fun c => is_dict c = true) l -> exists e, mapM compat_record l = inl e).
Proof.
  induction l as [| c l [IH1 IH2]]; cbn [mapM].
  - split; [intros _; exists []; split; [reflexivity | constructor] |].
    intros H. exfalso. apply H. constructor.
  - destruct (is_dict c) eqn:Hc.
    + destruct c; try discriminate. rewrite compat_record_dict. cbn [ebind ok]. split.
      * intros H. apply Forall_cons in H as [_ H]. destruct (IH1 H) as (records & -> & Hr).
        cbn. eexists. split; [reflexivity |]. constructor; [| exact Hr].
        exists d. split; reflexivity.
      * intros H. destruct IH2 as (e & ->); [| cbn; eauto].
        intros Hall. apply H. now constructor.
    + rewrite (compat_record_other c Hc). split; [| cbn; eauto].
      intros H. apply Forall_cons in H as [H _]. congruence.
Qed.

(** X20. The classifications of a response are taken all or none.  For a
    response that decodes to an object whose [item_classifications] is a
    list, the list is first cut or padded to the expected count; if every
    element is then an object, each one gives its record, with the defaults
    food, 0.6 and no brand and with the element itself as enhanced data; if
    one element is not an object, every classification of the response is
    dropped and the cycle of categories is returned for all the items. *)
Theorem parse_all_or_nothing (env : Env) (response : string) (expected_count : nat)
    (analysis : pydict) (l : list pyval) :
  json_loads env (strip_fences response) = Some (VDict analysis) ->
  Dict.lookup "item_classifications" analysis = Some (VList l) ->
  let fixed := firstn expected_count (l ++ repeat padding_record (expected_count - length l)) in
  (Forall (fun c => is_dict c = true) fixed ->
   Forall2 compat_of fixed (_parse_classification_response env response expected_count)) /\
  (~ Forall (fun c => is_dict c = true) fixed ->
   _parse_classification_response env response expected_count
   = _fallback_classification expected_count).
Proof.
  intros Hloads Hics fixed.
  rewrite (parse_pads_or_truncates env response expected_count analysis l Hloads Hics).
  fold fixed. destruct (mapM_compat fixed) as [Hall Hnot]. split.
  - intros H. destruct (Hall H) as (records & -> & Hr). exact Hr.
  - intros H. destruct (Hnot H) as (e & ->). reflexivity.
Qed.

Lemma parse_all_or_nothing_witness :
  _parse_classification_response null_env "{}" 2 = _fallback_classification 2 /\
  Forall2 compat_of [VDict [("category", VStr "dairy")]]
          (_parse_classification_response null_env "{}" 1).
Proof.
  split.
  - apply (parse_all_or_nothing null_env "{}" 2
             [("item_classifications", VList [VDict [("category", VStr "dairy")]; VNone])]
             [VDict [("category", VStr "dairy")]; VNone] eq_refl eq_refl).
    intros H. apply Forall_cons in H as [_ H]. apply Forall_cons in H as [H _].
    discriminate.
  - apply (parse_all_or_nothing null_env "{}" 1
             [("item_classifications", VList [VDict [("category", VStr "dairy")]; VNone])]
             [VDict [("category", VStr "dairy")]; VNone] eq_refl eq_refl).
    repeat constructor.
Defined.

(** ** Merging: relations whose endpoints are not names *)

Lemma frame_names (l0 l : list GraphEntity.t) :
  Forall2 entity_frame l0 l ->
  Forall (fun e => exists e0, In e0 l0 /\ GraphEntity.name e = GraphEntity.name e0) l.
Proof.
  induction 1 as [| e0 e l0 l Hf _ IH]; constructor.
  - exists e0. split; [now left | exact (proj1 (proj2 Hf))].
  - eapply Forall_impl; [exact IH |]. intros x (x0 & Hin & Hname).
    exists x0. split; [now right | exact Hname].
Qed.

Lemma merged_names db fresh_id stamp graph_ids user_id res :
  merge_graphs db fresh_id stamp graph_ids user_id = ok res ->
  Forall (fun e => exists e0, In e0 (all_entities (load_graphs db graph_ids)) /\
                              GraphEntity.name e = GraphEntity.name e0)
         (KnowledgeGraph.entities (merged res)).
Proof.
  intros H. apply merge_graphs_inv in H
    as (entity_map & eheap & _ & _ & _ & Hme & -> & _).
  apply deref_subset.
  pose proof (merge_entities_frame (all_entities (load_graphs db graph_ids))) as Hframe.
  rewrite Hme in Hframe. cbn [snd] in Hframe.
  now apply frame_names.
Qed.

Lemma entity_named_none (all merged_entities : list GraphEntity.t) endpoint :
  Forall (fun e => exists e0, In e0 all /\ GraphEntity.name e = GraphEntity.name e0)
         merged_entities ->
  existsb (fun e => String.eqb (GraphEntity.name e) endpoint) all = false ->
  entity_named merged_entities endpoint = None.
Proof.
  intros Hnames Hnone. unfold entity_named.
  destruct (List.find _ merged_entities) as [e |] eqn:Hfind; [| reflexivity].
  apply List.find_some in Hfind as [Hin Heq]. apply list_elem_of_In in Hin.
  destruct (proj1 (Forall_forall _ _) Hnames e Hin) as (e0 & Hin0 & Hname).
  assert (existsb (fun e => String.eqb (GraphEntity.name e) endpoint) all = true);
    [| congruence].
  apply existsb_exists. exists e0. split; [exact Hin0 | now rewrite <- Hname].
Qed.

(** The loop over the relations registers nothing when no relation has both
    endpoints among the names. *)
Lemma merge_relations_skip merged_entities heap :
  Forall (fun r =>
            entity_named merged_entities (GraphRelation.source_entity_id r) = None \/
            entity_named merged_entities (GraphRelation.target_entity_id r) = None) heap ->
  merge_relations merged_entities heap = ([], heap).
Proof.
  intros Hall. unfold merge_relations. generalize (seq 0 (length heap)) as positions.
  induction positions as [| a positions IH]; cbn [fold_left]; [reflexivity |].
  replace (merge_relation merged_entities ([], heap) a) with
    (@nil (relation_key * nat), heap); [exact IH |].
  unfold merge_relation. destruct (heap !! a) as [r |] eqn:Ha; [| reflexivity].
  pose proof (proj1 (Forall_lookup _ _) Hall a r Ha) as [Hs | Ht].
  - now rewrite Hs.
  - destruct (entity_named merged_entities (GraphRelation.source_entity_id r));
      [| reflexivity].
    now rewrite Ht.
Qed.

(** X22. A merge carries a relation over only when both of its endpoint
    identifiers are names of entities: the endpoints are looked up among the
    names of the merged entities.  When no relation of the loaded graphs has
    both endpoints among the names of their entities, as in graphs whose
    entities have drawn identifiers, the merged graph has no relation at
    all. *)
Theorem merge_keeps_only_named_endpoints (db : store) (fresh_id stamp : string)
    (graph_ids : list string) (user_id : string) (res : merge_result) :
  merge_graphs db fresh_id stamp graph_ids user_id = ok res ->
  Forall (fun r => endpoints_named (all_entities (load_graphs db graph_ids)) r = false)
         (all_relations (load_graphs db graph_ids)) ->
  KnowledgeGraph.relations (merged res) = [] /\
  KnowledgeGraph.total_relations (merged res) = 0.
Proof.
  intros Hres Hnone. pose proof (merged_names _ _ _ _ _ _ Hres) as Hnames.
  apply merge_graphs_inv in Hres
    as (entity_map & eheap & relation_map & rheap & _ & _ & _ & Hmr & Hrel & Hc & _).
  rewrite merge_relations_skip in Hmr.
  - injection Hmr as <- <-. cbn in Hrel.
    split; [exact Hrel |]. destruct Hc as [_ Hc]. now rewrite Hc, Hrel.
  - eapply Forall_impl; [exact Hnone |]. intros r Hr. unfold endpoints_named in Hr.
    apply andb_false_iff in Hr as [Hs | Ht].
    + left. eapply entity_named_none; eauto.
    + right. eapply entity_named_none; eauto.
Qed.

Lemma merge_keeps_only_named_endpoints_witness :
  exists res,
    merge_graphs built_store "g-new" "20250725_101500" ["graph-1"] "user-1" = ok res /\
    length (all_relations (load_graphs built_store ["graph-1"])) = 4%nat /\
    KnowledgeGraph.relations (merged res) = [] /\
    KnowledgeGraph.total_relations (merged res) = 0.
Proof.
  destruct (merge_graphs built_store "g-new" "20250725_101500" ["graph-1"] "user-1")
    as [e | res] eqn:Hres; [vm_compute in Hres; discriminate |].
  exists res. split; [reflexivity |]. split; [reflexivity |].
  apply (merge_keeps_only_named_endpoints _ _ _ _ _ _ Hres).
  vm_compute. repeat constructor.
Defined.

(** ** The graph of a receipt: identifiers *)

Lemma ids_snoc env entities e :
  entity_ids_in_order env entities ->
  GraphEntity.id e = uuid4 env (length entities) ->
  entity_ids_in_order env (entities ++ [e]).
Proof.
  unfold entity_ids_in_order. intros H He.
  rewrite List.map_app, length_app. cbn [length map].
  rewrite Nat.add_1_r, seq_S, List.map_app, H, He. reflexivity.
Qed.

Lemma header_entities_ids env receipt :
  entity_ids_in_order env (header_entities env receipt).
Proof.
  unfold header_entities.
  destruct (Receipt.merchant_address receipt) as [address |];
    destruct (Receipt.payment_method receipt) as [method |];
    repeat match goal with |- context [if ?b then _ else _] => destruct b end;
    reflexivity.
Qed.

Lemma item_entities_ids env entities ic out :
  entity_ids_in_order env entities ->
  item_entities env entities ic = ok out ->
  entity_ids_in_order env out.
Proof.
  destruct ic as [it c]. intros Hids H. unfold item_entities in H.
  bind_inv H attributes Hattributes.
  bind_inv H name Hname.
  bind_inv H category_v Hcategory_v.
  bind_inv H category Hcategory.
  bind_inv H confidence_v Hconfidence_v.
  bind_inv H confidence Hconfidence.
  bind_inv H brand_name Hbrand_name.
  bind_inv H entities2 Hentities2.
  bind_inv H category_name_v Hcategory_name_v.
  bind_inv H category_name Hcategory_name.
  bind_inv H brand Hbrand.
  assert (H1 : entity_ids_in_order env
                 (entities ++ [GraphEntity.Build (uuid4 env (length entities)) name "product"
                                                 category attributes confidence]))
    by (apply ids_snoc; [exact Hids | reflexivity]).
  assert (H2 : entity_ids_in_order env entities2).
  { destruct (truthy brand_name).
    - bind_inv Hentities2 b1 Hb1. injection Hentities2 as <-.
      apply ids_snoc; [exact H1 | reflexivity].
    - injection Hentities2 as <-. exact H1. }
  assert (H3 : entity_ids_in_order env
                 (entities2 ++ [plain_entity env (length entities2) category_name "category"
                                  [("domain", VStr "product_category")]]))
    by (apply ids_snoc; [exact H2 | reflexivity]).
  destruct (truthy brand).
  - bind_inv H b2 Hb2. bind_inv H product Hproduct. injection H as <-.
    apply ids_snoc; [exact H3 | reflexivity].
  - injection H as <-. exact H3.
Qed.

Lemma extract_entities_ids env receipt ents :
  _extract_entities_from_receipt env receipt = ok ents -> entity_ids_in_order env ents.
Proof.
  intros H. apply extract_entities_inv in H as (its & _ & [[_ ->] | (_ & cs & _ & Hfold)]).
  - apply header_entities_ids.
  - apply (foldM_invariant (item_entities env) (entity_ids_in_order env) (fun _ => True)
             (combine its cs) (header_entities env receipt) ents).
    + intros x b x' Hx _ Hstep. exact (item_entities_ids env x b x' Hx Hstep).
    + apply header_entities_ids.
    + apply Forall_forall. auto.
    + exact Hfold.
Qed.

Lemma find_by_id (l : list GraphEntity.t) e :
  List.NoDup (map GraphEntity.id l) -> In e l ->
  List.find (fun x => String.eqb (GraphEntity.id x) (GraphEntity.id e)) l = Some e.
Proof.
  induction l as [| a l IH]; cbn; intros Hnd Hin; [destruct Hin |].
  inversion Hnd as [| ? ? Ha Hl]; subst.
  destruct Hin as [-> | Hin]; [now rewrite String.eqb_refl |].
  destruct (String.eqb_spec (GraphEntity.id a) (GraphEntity.id e)) as [Heq | _];
    [| now apply IH].
  exfalso. apply Ha. rewrite Heq. now apply in_map.
Qed.

Lemma seq_map_nodup {B} (f : nat -> B) start len :
  (forall i j, f i = f j -> i = j) -> List.NoDup (map f (seq start len)).
Proof.
  intros Hinj. revert start. induction len as [| len IH]; intros start; cbn; constructor.
  - rewrite in_map_iff. intros (j & Hj & Hin). apply Hinj in Hj. subst j.
    apply in_seq in Hin. lia.
  - apply IH.
Qed.

(** X21. In the graph that [build_graph_from_receipt] returns, the entities
    carry the identifiers in the order in which they were drawn.  When the
    identifier source never repeats itself, no two entities share an
    identifier, [get_entity_by_id] returns every entity of the graph for its
    identifier, and both endpoints of every relation resolve to entities of
    the types of the relation's kind. *)
Theorem built_graph_resolves (env : Env) (graph_id : string) (fresh : nat -> string)
    (date_str : string) (receipt : Receipt.t) (g : KnowledgeGraph.t) :
  build_graph_from_receipt env graph_id fresh date_str receipt = ok g ->
  (forall i j, uuid4 env i = uuid4 env j -> i = j) ->
  entity_ids_in_order env (KnowledgeGraph.entities g) /\
  List.NoDup (map GraphEntity.id (KnowledgeGraph.entities g)) /\
  (forall e, In e (KnowledgeGraph.entities g) ->
             get_entity_by_id g (GraphEntity.id e) = Some e) /\
  Forall (resolves g) (KnowledgeGraph.relations g).
Proof.
  intros H Hinj. unfold build_graph_from_receipt in H.
  bind_inv H entities Hentities. injection H as <-.
  set (g0 := KnowledgeGraph.create _ _ _ _ _).
  set (g1 := fold_left (fun g e => KnowledgeGraph.add_entity e g) entities g0).
  set (relations := _create_relationships fresh entities receipt).
  set (g2 := fold_left (fun g r => KnowledgeGraph.add_relation r g) relations g1).
  destruct (add_entities_spec entities g0) as (He1 & Hr1 & _).
  fold g1 in He1, Hr1.
  destruct (add_relations_spec relations g1) as (He2 & Hr2 & _).
  fold g2 in He2, Hr2.
  assert (Hents : KnowledgeGraph.entities g2 = entities) by (rewrite He2, He1; reflexivity).
  assert (Hrels : KnowledgeGraph.relations g2 = relations) by (rewrite Hr2, Hr1; reflexivity).
  pose proof (extract_entities_ids env receipt entities Hentities) as Hids.
  assert (Hnd : List.NoDup (map GraphEntity.id entities)).
  { rewrite Hids. now apply seq_map_nodup. }
  assert (Hget : forall e, In e entities -> get_entity_by_id g2 (GraphEntity.id e) = Some e).
  { intros e He. unfold get_entity_by_id. rewrite Hents. now apply find_by_id. }
  rewrite Hents, Hrels.
  split; [exact Hids |]. split; [exact Hnd |]. split; [exact Hget |].
  destruct (create_relationships_spec fresh entities receipt) as (Hall & _).
  fold relations in Hall.
  eapply Forall_impl; [exact Hall |].
  intros r (_ & s & t & Hs & Ht & Hsrc & Htgt & Hkind).
  exists s, t. rewrite Hsrc, Htgt. auto.
Qed.

Lemma offline_uuid4_inj i j : uuid4 offline_env i = uuid4 offline_env j -> i = j.
Proof.
  unfold offline_env. cbn [uuid4 String.append]. intros H. injection H as H.
  exact (pretty_nat_inj i j H).
Qed.

Lemma built_graph_resolves_witness :
  exists g,
    build_graph_from_receipt offline_env "graph-1"
      (fun k => ("rel-" ++ pretty.pretty k)%string) "2025-07-22" scenario_receipt = ok g /\
    map GraphEntity.id (KnowledgeGraph.entities g)
    = ["uuid-0"; "uuid-1"; "uuid-2"; "uuid-3"; "uuid-4"] /\
    Forall (resolves g) (KnowledgeGraph.relations g).
Proof.
  destruct (build_graph_from_receipt offline_env "graph-1"
              (fun k => ("rel-" ++ pretty.pretty k)%string) "2025-07-22" scenario_receipt)
    as [e | g] eqn:Hg; [vm_compute in Hg; discriminate |].
  exists g. split; [reflexivity |].
  destruct (built_graph_resolves _ _ _ _ _ _ Hg offline_uuid4_inj) as (_ & _ & _ & Hr).
  split; [| exact Hr].
  vm_compute in Hg. injection Hg as <-. reflexivity.
Defined.

(** ** The graph of a receipt: the brand entities *)

Lemma build_graph_inv env graph_id fresh date_str receipt g :
  build_graph_from_receipt env graph_id fresh date_str receipt = ok g ->
  exists entities,
    _extract_entities_from_receipt env receipt = ok entities /\
    KnowledgeGraph.entities g = entities /\
    KnowledgeGraph.relations g = _create_relationships fresh entities receipt.
Proof.
  intros H. unfold build_graph_from_receipt in H.
  bind_inv H entities Hentities. injection H as <-.
  exists entities. split; [exact Hentities |].
  set (g0 := KnowledgeGraph.create _ _ _ _ _).
  destruct (add_entities_spec entities g0) as (He1 & Hr1 & _).
  destruct (add_relations_spec (_create_relationships fresh entities receipt)
              (fold_left (fun g e => KnowledgeGraph.add_entity e g) entities g0))
    as (He2 & Hr2 & _).
  cbv zeta in He1, Hr1, He2, Hr2. rewrite He2, Hr2, He1, Hr1. split; reflexivity.
Qed.

Lemma same_id_same_entity (l : list GraphEntity.t) a b :
  List.NoDup (map GraphEntity.id l) -> In a l -> In b l ->
  GraphEntity.id a = GraphEntity.id b -> a = b.
Proof.
  intros Hnd Ha Hb Hid.
  pose proof (find_by_id l a Hnd Ha) as Hfa. pose proof (find_by_id l b Hnd Hb) as Hfb.
  rewrite Hid in Hfa. congruence.
Qed.

Lemma filter_none {A} (f : A -> bool) (l : list A) :
  (forall x, In x l -> f x = false) -> List.filter f l = [].
Proof.
  induction l as [| a l IH]; cbn; intros H; [reflexivity |].
  rewrite (H a (or_introl eq_refl)). apply IH. intros x Hx. apply H. now right.
Qed.

(** X24. In the graph that [build_graph_from_receipt] returns, a brand
    entity without the attribute [product] is never linked: a
    [manufactured_by] relation goes to a brand entity whose [product]
    attribute is the product's name, and no other relation ends at a brand.
    Of the two brand entities that are made for an item with a brand, the
    first one, which records [detected_from], stays without any relation.
    The identifier source is assumed never to repeat itself. *)
Theorem unlinked_brand_entities (env : Env) (graph_id : string) (fresh : nat -> string)
    (date_str : string) (receipt : Receipt.t) (g : KnowledgeGraph.t) :
  build_graph_from_receipt env graph_id fresh date_str receipt = ok g ->
  (forall i j, uuid4 env i = uuid4 env j -> i = j) ->
  forall b,
    In b (KnowledgeGraph.entities g) ->
    GraphEntity.type b = "brand" ->
    Dict.lookup "product" (GraphEntity.attributes b) = None ->
    get_relations_for_entity g (GraphEntity.id b) = [].
Proof.
  intros H Hinj b Hb Hty Hattr.
  apply build_graph_inv in H as (entities & Hentities & Hents & Hrels).
  rewrite Hents in Hb.
  pose proof (extract_entities_ids env receipt entities Hentities) as Hids.
  assert (Hnd : List.NoDup (map GraphEntity.id entities)).
  { rewrite Hids. now apply seq_map_nodup. }
  unfold get_relations_for_entity. rewrite Hrels. apply filter_none.
  intros r Hr.
  destruct (create_relationships_spec fresh entities receipt) as (Hall & _).
  apply list_elem_of_In in Hr.
  destruct (proj1 (Forall_forall _ _) Hall r Hr) as (_ & s & t & Hs & Ht & Hsrc & Htgt & Hkind).
  apply orb_false_iff. split.
  - apply String.eqb_neq. intros Heq. rewrite Hsrc in Heq.
    assert (s = b) by exact (same_id_same_entity entities s b Hnd Hs Hb Heq). subst s.
    destruct Hkind as [K | [K | [K | [K | K]]]];
      destruct K as (_ & Hts & _); rewrite Hty in Hts; discriminate.
  - apply String.eqb_neq. intros Heq. rewrite Htgt in Heq.
    assert (t = b) by exact (same_id_same_entity entities t b Hnd Ht Hb Heq). subst t.
    destruct Hkind as [K | [K | [K | [K | K]]]].
    + destruct K as (_ & _ & Htt & _). rewrite Hty in Htt. discriminate.
    + destruct K as (_ & _ & Htt & _). rewrite Hty in Htt. discriminate.
    + destruct K as (_ & _ & _ & Hbrand & _). unfold brand_of, Dict.get in Hbrand.
      rewrite Hattr in Hbrand. discriminate.
    + destruct K as (_ & _ & Htt & _). rewrite Hty in Htt. discriminate.
    + destruct K as (_ & _ & Htt & _). rewrite Hty in Htt. discriminate.
Qed.

Lemma percent_uuid4_inj i j : uuid4 percent_env i = uuid4 percent_env j -> i = j.
Proof.
  unfold percent_env. cbn [uuid4 String.append]. intros H. injection H as H.
  exact (pretty_nat_inj i j H).
Qed.

Lemma unlinked_brand_entities_witness :
  exists g b,
    build_graph_from_receipt percent_env "graph-2"
      (fun k => ("rel-" ++ pretty.pretty k)%string) "2025-07-22" scenario_receipt = ok g /\
    KnowledgeGraph.entities g !! 2%nat = Some b /\
    (GraphEntity.name b, GraphEntity.type b) = ("Amul", "brand") /\
    map (fun r => (GraphRelation.relation_type r, GraphRelation.target_entity_id r))
        (KnowledgeGraph.relations g)
    = [("purchased_at", "uuid-0"); ("purchased_at", "uuid-0");
       ("belongs_to_category", "uuid-3"); ("belongs_to_category", "uuid-6");
       ("manufactured_by", "uuid-4")] /\
    get_relations_for_entity g (GraphEntity.id b) = [].
Proof.
  destruct (build_graph_from_receipt percent_env "graph-2"
              (fun k => ("rel-" ++ pretty.pretty k)%string) "2025-07-22" scenario_receipt)
    as [e | g] eqn:Hg; [vm_compute in Hg; discriminate |].
  destruct (KnowledgeGraph.entities g !! 2%nat) as [b |] eqn:Hb;
    [| vm_compute in Hg; injection Hg as <-; discriminate].
  exists g, b. split; [reflexivity |]. split; [exact Hb |].
  assert (Hin : In b (KnowledgeGraph.entities g))
    by (apply list_elem_of_In; eapply list_elem_of_lookup_2; exact Hb).
  pose proof (unlinked_brand_entities _ _ _ _ _ _ Hg percent_uuid4_inj b Hin) as Hnone.
  vm_compute in Hg. injection Hg as <-. cbn in Hb. injection Hb as <-.
  split; [reflexivity |]. split; [reflexivity |].
  apply Hnone; reflexivity.
Defined.

(** ** The graph of a receipt when the service cannot be reached *)

Lemma plain_item_ok it : plain_item it -> item_ok it.
Proof.
  destruct it as [r | v]; cbn; [auto |]. intros (n & p & ->). cbn. eauto.
Qed.

Lemma plain_item_data it : plain_item it -> exists d, item_data it = ok d.
Proof.
  destruct it as [r | v]; cbn; [eauto |]. intros (n & p & ->). cbn. eauto.
Qed.

(** With the extraction request failing, by another exception than
    [json.JSONDecodeError], the items to process are the receipt's own
    objects or items of the deterministic extractor. *)
Lemma offline_items env receipt e :
  ask_items env (Receipt.raw_text receipt) = raise e -> e <> JSONDecodeError ->
  Forall is_obj (Receipt.items receipt) ->
  exists its, items_to_process env receipt = ok its /\ Forall plain_item its.
Proof.
  intros Hask He Hobj.
  pose proof (call_failure_runs_fallback env (Receipt.raw_text receipt) (Some receipt) e
                Hask He) as Hextract.
  assert (Hplain : Forall (fun v => exists n p, v = extracted_item n p)
                          (_fallback_regex_extraction (Receipt.raw_text receipt)
                                                      (Some receipt))).
  { eapply Forall_impl; [apply (fallback_items_ok _ (Some receipt)) |].
    intros v (n & p & -> & _). eauto. }
  unfold items_to_process. rewrite Hextract. cbv zeta. cbn [py_len py_iter ebind ok].
  destruct (_ || _).
  - eexists. split; [reflexivity |]. apply Forall_map.
    eapply Forall_impl; [exact Hplain |]. intros v Hv. exact Hv.
  - eexists. split; [reflexivity |].
    eapply Forall_impl; [exact Hobj |]. intros [r | v]; cbn; tauto.
Qed.

(** With the classification request failing, the keyword classifier gives
    one of its records for every item. *)
Lemma offline_classes env its :
  (forall items_data, exists e, ask_classes env items_data = raise e) ->
  clock_ok env -> Forall plain_item its ->
  exists cs,
    _classify_items_with_gemini env its = ok cs /\
    Forall2 (fun (it : item) c =>
               exists category is_food has_expiry predicted_expiry price,
                 c = fallback_record category is_food has_expiry predicted_expiry price)
            its cs.
Proof.
  intros Hask Hclock Hplain.
  assert (Hdata : exists items_data, mapM item_data its = ok items_data).
  { apply mapM_total. eapply Forall_impl; [exact Hplain |]. intros it. apply plain_item_data. }
  destruct Hdata as [items_data Hdata].
  destruct (Hask items_data) as [e He].
  rewrite (classes_call_failure env its items_data e Hdata He).
  assert (Hok : Forall item_ok its).
  { eapply Forall_impl; [exact Hplain |]. intros it. apply plain_item_ok. }
  destruct (create_fallback_total env its Hok Hclock) as (cs & Hcs & _).
  exists cs. split; [exact Hcs |].
  apply mapM_Forall2 in Hcs. clear Hplain Hdata Hok.
  induction Hcs as [| it c its' cs' Hc _ IH]; constructor; [| exact IH].
  apply classify_one_record in Hc as (category & f & h & pe & price & -> & _). eauto 6.
Qed.

(** A plain item with a record of the keyword classifier gives a product
    entity and a category entity. *)
Lemma item_entities_plain env entities it category is_food has_expiry predicted_expiry price :
  validators_ok env -> plain_item it ->
  exists product category_entity,
    item_entities env entities
      (it, fallback_record category is_food has_expiry predicted_expiry price)
    = ok (entities ++ [product; category_entity]) /\
    GraphEntity.type product = "product" /\
    GraphEntity.type category_entity = "category".
Proof.
  intros [Hstr Hfloat] Hplain. destruct it as [r | v].
  - unfold item_entities, product_attributes, sub_get, fallback_record. cbn.
    unfold valid_opt_str, valid_str, valid_float. rewrite !Hstr, Hfloat. cbn.
    rewrite <- app_assoc. cbn. eexists _, _. split; [reflexivity |]. split; reflexivity.
  - destruct Hplain as (n & p & ->).
    unfold item_entities, product_attributes, sub_get, fallback_record, extracted_item. cbn.
    unfold valid_opt_str, valid_str, valid_float. rewrite !Hstr, Hfloat. cbn.
    rewrite <- app_assoc. cbn. eexists _, _. split; [reflexivity |]. split; reflexivity.
Qed.

Lemma of_type_app t (l l' : list GraphEntity.t) :
  of_type t (l ++ l') = of_type t l ++ of_type t l'.
Proof. unfold of_type. apply List.filter_app. Qed.

(** The loop over plain items and records of the keyword classifier ends,
    with two entities for every item, one of them a product. *)
Lemma assemble_plain env its cs entities :
  validators_ok env -> Forall plain_item its ->
  Forall2 (fun (it : item) c =>
             exists category is_food has_expiry predicted_expiry price,
               c = fallback_record category is_food has_expiry predicted_expiry price)
          its cs ->
  exists ents,
    foldM (item_entities env) (combine its cs) entities = ok ents /\
    length ents = (length entities + 2 * length its)%nat /\
    length (of_type "product" ents)
    = (length (of_type "product" entities) + length its)%nat.
Proof.
  intros Hval Hplain Hrec. revert entities.
  induction Hrec as [| it c its cs (cat & f & h & pe & price & ->) _ IH]; intros entities.
  - exists entities. cbn. split; [reflexivity |]. split; lia.
  - apply Forall_cons in Hplain as [Hit Hplain].
    destruct (item_entities_plain env entities it cat f h pe price Hval Hit)
      as (product & category_entity & Hstep & Hp & Hc).
    destruct (IH Hplain (entities ++ [product; category_entity])) as (ents & Hfold & Hlen & Hprod).
    exists ents. cbn [combine foldM]. rewrite Hstep. cbn [ebind ok].
    split; [exact Hfold |]. split.
    + rewrite Hlen, length_app. cbn [length]. lia.
    + rewrite Hprod, of_type_app, length_app. unfold of_type at 2. cbn [List.filter].
      rewrite Hp, Hc. cbn. lia.
Qed.

(** X23. When the text-completion service cannot be reached, a graph is
    still built.  With both requests failing, the extraction request by
    another exception than [json.JSONDecodeError], a clock at least 730 days
    before the last date, field validators that accept values of the field's
    type, and a receipt whose own items are objects, the method returns a
    graph: the items are those of the deterministic extractor or the
    receipt's own, classified by keywords, and the graph holds the entities
    of the receipt's head and, for every item, a product entity and a
    category entity. *)
Theorem offline_graph_is_built (env : Env) (graph_id : string) (fresh : nat -> string)
    (date_str : string) (receipt : Receipt.t) (e : exn) :
  ask_items env (Receipt.raw_text receipt) = raise e -> e <> JSONDecodeError ->
  (forall items_data, exists e', ask_classes env items_data = raise e') ->
  clock_ok env -> validators_ok env ->
  Forall is_obj (Receipt.items receipt) ->
  exists g its,
    build_graph_from_receipt env graph_id fresh date_str receipt = ok g /\
    items_to_process env receipt = ok its /\
    length (KnowledgeGraph.entities g)
    = (length (header_entities env receipt) + 2 * length its)%nat /\
    length (get_entities_by_type g "product") = length its.
Proof.
  intros Hitems He Hclasses Hclock Hval Hobj.
  destruct (offline_items env receipt e Hitems He Hobj) as (its & Hits & Hplain).
  assert (Hents : exists ents,
             _extract_entities_from_receipt env receipt = ok ents /\
             length ents = (length (header_entities env receipt) + 2 * length its)%nat /\
             length (of_type "product" ents) = length its).
  { unfold _extract_entities_from_receipt. rewrite Hits. cbn [ebind ok].
    assert (Hheader : length (of_type "product" (header_entities env receipt)) = 0%nat).
    { unfold of_type. rewrite filter_none; [reflexivity |].
      intros x Hx. apply list_elem_of_In in Hx.
      destruct (proj1 (Forall_forall _ _) (header_entities_plain env receipt) x Hx) as [Hne _].
      now apply String.eqb_neq. }
    destruct its as [| it its].
    - eexists. split; [reflexivity |]. split; [cbn; lia | exact Hheader].
    - destruct (offline_classes env (it :: its) Hclasses Hclock Hplain) as (cs & -> & Hrec).
      cbn [ebind ok].
      destruct (assemble_plain env (it :: its) cs (header_entities env receipt) Hval Hplain
                  Hrec) as (ents & Hfold & Hlen & Hprod).
      exists ents. split; [exact Hfold |]. split; [exact Hlen |].
      rewrite Hprod, Hheader. reflexivity. }
  destruct Hents as (ents & Hents & Hlen & Hprod).
  destruct (build_graph_from_receipt env graph_id fresh date_str receipt) as [e0 | g] eqn:Hg.
  - exfalso. unfold build_graph_from_receipt in Hg. rewrite Hents in Hg. discriminate.
  - exists g, its. split; [reflexivity |]. split; [exact Hits |].
    apply build_graph_inv in Hg as (ents' & Hents' & Hge & _).
    rewrite Hents in Hents'. injection Hents' as <-.
    unfold get_entities_by_type. rewrite Hge. split; [exact Hlen | exact Hprod].
Qed.

Lemma offline_graph_is_built_witness :
  exists g its,
    build_graph_from_receipt offline_env "graph-1"
      (fun k => ("rel-" ++ pretty.pretty k)%string) "2025-07-22" scenario_receipt = ok g /\
    items_to_process offline_env scenario_receipt = ok its /\
    length (KnowledgeGraph.entities g)
    = (length (header_entities offline_env scenario_receipt) + 2 * length its)%nat /\
    length (get_entities_by_type g "product") = length its.
Proof.
  apply (offline_graph_is_built offline_env "graph-1" _ "2025-07-22" scenario_receipt
           TransportError).
  - reflexivity.
  - discriminate.
  - intros items_data. exists TransportError. reflexivity.
  - vm_compute. discriminate.
  - exact offline_validators_ok.
  - constructor.
Defined.
